(** * saleor: bulk product mutations and the Shopify collection import

    A shallow embedding of [saleor/graphql/product/bulk_mutations/products.py]:
    the importer [ProductBulkCreateFromShopify] and the part of
    [ProductVariantBulkCreate] that saves variants and picks the default
    variant.

    Conventions.
    - Python [str] is modelled as [string], the bytes of its UTF-8 form;
      [str.replace] of one ASCII character by another is the same on bytes.
      [str.lower] follows the Unicode tables and is taken with the library
      functions.
    - Python [int] is [Z]; [str(int)] is stdpp's [pretty].
    - The ORM is a record of tables (lists of rows, in insertion order).  A
      [create]/[save] appends one row under a fresh primary key, [bulk_create]
      appends the rows it is given, [objects.get] raises [DoesNotExist] when no
      row matches.  Constraints declared in [models.py] (unique slugs and
      the like) are outside this file.
    - An exception is a value of [Exception]; a method is a function from the
      state to an outcome and the state it leaves behind.  [atomic] is
      [transaction.atomic]: when the body raises, the tables are put back and
      the in-process caches are not. *)

From stdpp Require Import base strings pretty list gmap.
From Stdlib Require Import Ascii String ZArith QArith Lia.

#[local] Open Scope string_scope.
#[local] Open Scope Z_scope.
#[local] Open Scope list_scope.

(** ** Python values *)

Module Py.

(** [s.replace(old, new)] for one-character [old] and [new]. *)
Fixpoint replace (old new : ascii) (s : string) : string :=
  match s with
  | EmptyString => EmptyString
  | String c s' =>
      String (if Ascii.eqb c old then new else c) (replace old new s')
  end.

(** [str(n)] for an [int]. *)
Definition str (n : Z) : string := pretty n.

(** Truth value of an optional string: [None] and [""] are false. *)
Definition truthy_str (o : option string) : bool :=
  match o with
  | None => false
  | Some s => negb (String.eqb s "")
  end.

(** [str(x)] for a string or [None]. *)
Definition str_opt (o : option string) : string :=
  match o with
  | None => "None"
  | Some s => s
  end.

(** A Django model instance defines neither [__bool__] nor [__len__]: it is
    always true. *)
Definition truthy_instance {A : Type} (x : A) : bool := true.

(** [not x] for [x] a model instance or [None]. *)
Definition not_instance {A : Type} (o : option A) : bool :=
  match o with
  | None => true
  | Some x => negb (truthy_instance x)
  end.

(** [x in l] for a list of strings. *)
Definition contains (x : string) (l : list string) : bool :=
  existsb (String.eqb x) l.

Inductive Exception : Type :=
| StopIteration
| ObjectDoesNotExist (msg : string)
| DoesNotExist (model : string)
| MultipleObjectsReturned (model : string)
| KeyError
| IndexError
| AttributeError
| AssertionError (msg : string)
| InvalidOperation
| ValidationError
| NonTermination.   (* a loop of the model out of rounds; never raised *)

Inductive Outcome (A : Type) : Type :=
| Ok (a : A)
| Raise (e : Exception).
Arguments Ok {A} a.
Arguments Raise {A} e.

End Py.
Import Py.

(** ** The tables *)

Module Models.

Record Attribute := { attr_pk : Z }.

Record AttributeValue := {
  av_pk : Z;
  av_attribute : Z;
  av_name : string;
  av_slug : string
}.

Record Warehouse := { wh_pk : string }.

(** [Weight()] after [setattr(weight, unit, value)]: the attribute that was
    set and what it was set to.  Which weight that makes is for the
    measurement library to say. *)
Record Weight := { w_unit : string; w_value : Q }.

Record Product := {
  p_pk : Z;
  p_name : string;
  p_slug : string;
  p_product_type : Z;
  p_category : Z;
  p_description : string;
  p_is_published : bool;
  p_visible_in_listings : bool;
  p_available_for_purchase : Z;
  p_shopifyid : option string;      (* metadata["shopifyid"] *)
  p_default_variant : option Z
}.

Record ProductVariant := {
  pv_pk : Z;
  pv_product : Z;
  pv_weight : Weight;
  pv_sku : string;
  pv_price_amount : Q
}.

(** One row per call of [associate_attribute_values_to_instance]. *)
Record AssignedVariantAttribute := {
  ava_variant : Z;
  ava_attribute : Z;
  ava_value : Z
}.

Record Stock := {
  s_warehouse : string;
  s_product_variant : Z;
  s_quantity : Z
}.

Record Collection := {
  c_pk : Z;
  c_name : string;
  c_slug : string;
  c_is_published : bool;
  c_description : string;
  c_shopifyid : option string
}.

Record CollectionProduct := { cp_collection : Z; cp_product : Z }.

Record Menu := { m_pk : Z; m_name : string }.

Record MenuItem := {
  mi_name : string;
  mi_menu : Z;
  mi_collection : Z;
  mi_parent : Z
}.

Record DB := {
  attributes : list Attribute;
  attribute_values : list AttributeValue;
  product_types : list Z;
  categories : list Z;
  warehouses : list Warehouse;
  products : list Product;
  variants : list ProductVariant;
  assigned : list AssignedVariantAttribute;
  stocks : list Stock;
  collections : list Collection;
  collection_products : list CollectionProduct;
  menus : list Menu;
  menu_items : list MenuItem
}.

(** The primary key the database gives the next row of a table. *)
Definition fresh_pk (pks : list Z) : Z := 1 + foldr Z.max 0 pks.

(** A lazy [AttributeValue] query:
    [filter(attribute_id=a) | filter(pk=p1) | ... ]. *)
Record QuerySet := { q_attribute_id : Z; q_pks : list Z }.

Definition q_matches (q : QuerySet) (v : AttributeValue) : bool :=
  Z.eqb (av_attribute v) (q_attribute_id q)
  || existsb (Z.eqb (av_pk v)) (q_pks q).

(** [q.iterator()]: the query is run against the table as it is now. *)
Definition iterator (q : QuerySet) (d : DB)
  : list AttributeValue :=
  List.filter (q_matches q) (attribute_values d).

(** [q |= AttributeValue.objects.filter(pk=pk)] *)
Definition q_or_pk (q : QuerySet) (pk : Z) : QuerySet :=
  {| q_attribute_id := q_attribute_id q; q_pks := q_pks q ++ [pk] |}.

End Models.
Import Models.

(** ** State, exceptions and transactions *)

Module Run.

(** One entry of [size_color_cache]: the attribute and the lazy query of
    its values. *)
Record AttributeCache := { ac_attribute : Attribute; ac_values : QuerySet }.

(** A task handed to the queue with [.delay(...)]. *)
Inductive Task : Type :=
| CreateProductImagesFromUrl (product_id : Z) (image_urls : list string)
| UpdateProductMinimalVariantPrice (product_id : Z).

(** The tables, the two class attributes of the importer that outlive a
    call, and the task queue. *)
Record State := {
  db : DB;
  size_color_cache : gmap Z AttributeCache;
  def_warehouse_cache : option Warehouse;
  delayed : list Task
}.

Definition with_db (d : DB) (st : State) : State :=
  {| db := d;
     size_color_cache := size_color_cache st;
     def_warehouse_cache := def_warehouse_cache st;
     delayed := delayed st |}.

Definition with_size_color_cache (c : gmap Z AttributeCache) (st : State)
  : State :=
  {| db := db st;
     size_color_cache := c;
     def_warehouse_cache := def_warehouse_cache st;
     delayed := delayed st |}.

Definition with_def_warehouse_cache (w : option Warehouse) (st : State)
  : State :=
  {| db := db st;
     size_color_cache := size_color_cache st;
     def_warehouse_cache := w;
     delayed := delayed st |}.

Definition with_delayed (q : list Task) (st : State) : State :=
  {| db := db st;
     size_color_cache := size_color_cache st;
     def_warehouse_cache := def_warehouse_cache st;
     delayed := q |}.

Definition M (A : Type) : Type := State -> Outcome A * State.

Definition ret {A} (a : A) : M A := fun st => (Ok a, st).

Definition raise {A} (e : Exception) : M A := fun st => (Raise e, st).

Definition bind {A B} (m : M A) (k : A -> M B) : M B :=
  fun st =>
    match m st with
    | (Ok a, st') => k a st'
    | (Raise e, st') => (Raise e, st')
    end.

Definition gets {A} (f : State -> A) : M A := fun st => (Ok (f st), st).

Definition modify (f : State -> State) : M unit := fun st => (Ok tt, f st).

Definition modify_db (f : DB -> DB) : M unit :=
  modify (fun st => with_db (f (db st)) st).

(** A value or an exception, from [option]. *)
Definition or_raise {A} (e : Exception) (o : option A) : M A :=
  match o with
  | Some a => ret a
  | None => raise e
  end.

(** [@transaction.atomic]: on an exception the tables are rolled back. *)
Definition atomic {A} (m : M A) : M A :=
  fun st =>
    match m st with
    | (Ok a, st') => (Ok a, st')
    | (Raise e, st') => (Raise e, with_db (db st) st')
    end.

(** [for x in l: acc = body(acc, x)] *)
Fixpoint for_each {A B} (body : B -> A -> M B) (acc : B) (l : list A)
  : M B :=
  match l with
  | [] => ret acc
  | x :: l' => bind (body acc x) (fun acc' => for_each body acc' l')
  end.

End Run.
Import Run.

Notation "x <~ c ;; k" := (bind c (fun x => k))
  (at level 100, c at next level, right associativity).
Notation "c ;;; k" := (bind c (fun _ => k))
  (at level 100, right associativity).

(** ** The ORM calls the mutations make *)

Module Orm.

Definition set_attribute_values (l : list AttributeValue) (d : DB) : DB :=
  {| attributes := attributes d; attribute_values := l;
     product_types := product_types d; categories := categories d;
     warehouses := warehouses d; products := products d;
     variants := variants d; assigned := assigned d; stocks := stocks d;
     collections := collections d;
     collection_products := collection_products d;
     menus := menus d; menu_items := menu_items d |}.

Definition set_products (l : list Product) (d : DB) : DB :=
  {| attributes := attributes d; attribute_values := attribute_values d;
     product_types := product_types d; categories := categories d;
     warehouses := warehouses d; products := l;
     variants := variants d; assigned := assigned d; stocks := stocks d;
     collections := collections d;
     collection_products := collection_products d;
     menus := menus d; menu_items := menu_items d |}.

Definition set_variants (l : list ProductVariant) (d : DB) : DB :=
  {| attributes := attributes d; attribute_values := attribute_values d;
     product_types := product_types d; categories := categories d;
     warehouses := warehouses d; products := products d;
     variants := l; assigned := assigned d; stocks := stocks d;
     collections := collections d;
     collection_products := collection_products d;
     menus := menus d; menu_items := menu_items d |}.

Definition set_assigned (l : list AssignedVariantAttribute) (d : DB) : DB :=
  {| attributes := attributes d; attribute_values := attribute_values d;
     product_types := product_types d; categories := categories d;
     warehouses := warehouses d; products := products d;
     variants := variants d; assigned := l; stocks := stocks d;
     collections := collections d;
     collection_products := collection_products d;
     menus := menus d; menu_items := menu_items d |}.

Definition set_stocks (l : list Stock) (d : DB) : DB :=
  {| attributes := attributes d; attribute_values := attribute_values d;
     product_types := product_types d; categories := categories d;
     warehouses := warehouses d; products := products d;
     variants := variants d; assigned := assigned d; stocks := l;
     collections := collections d;
     collection_products := collection_products d;
     menus := menus d; menu_items := menu_items d |}.

Definition set_collections (l : list Collection) (d : DB) : DB :=
  {| attributes := attributes d; attribute_values := attribute_values d;
     product_types := product_types d; categories := categories d;
     warehouses := warehouses d; products := products d;
     variants := variants d; assigned := assigned d; stocks := stocks d;
     collections := l;
     collection_products := collection_products d;
     menus := menus d; menu_items := menu_items d |}.

Definition set_collection_products (l : list CollectionProduct) (d : DB)
  : DB :=
  {| attributes := attributes d; attribute_values := attribute_values d;
     product_types := product_types d; categories := categories d;
     warehouses := warehouses d; products := products d;
     variants := variants d; assigned := assigned d; stocks := stocks d;
     collections := collections d;
     collection_products := l;
     menus := menus d; menu_items := menu_items d |}.

Definition set_menu_items (l : list MenuItem) (d : DB) : DB :=
  {| attributes := attributes d; attribute_values := attribute_values d;
     product_types := product_types d; categories := categories d;
     warehouses := warehouses d; products := products d;
     variants := variants d; assigned := assigned d; stocks := stocks d;
     collections := collections d;
     collection_products := collection_products d;
     menus := menus d; menu_items := l |}.

(** [models.Attribute.objects.get(pk=pk)] *)
Definition Attribute_get (pk : Z) : M Attribute :=
  attrs <~ gets (fun st => attributes (db st)) ;;
  or_raise (DoesNotExist "Attribute")
    (List.find (fun a => Z.eqb (attr_pk a) pk) attrs).

(** [models.AttributeValue.objects.create(attribute=.., name=.., slug=..)] *)
Definition AttributeValue_create (attribute : Attribute) (name slug : string)
  : M AttributeValue :=
  rows <~ gets (fun st => attribute_values (db st)) ;;
  let row := {| av_pk := fresh_pk (List.map av_pk rows);
                av_attribute := attr_pk attribute;
                av_name := name; av_slug := slug |} in
  modify_db (set_attribute_values (rows ++ [row])) ;;;
  ret row.

(** [warehouse_models.Warehouse.objects.get(pk=pk)] *)
Definition Warehouse_get (pk : string) : M Warehouse :=
  rows <~ gets (fun st => warehouses (db st)) ;;
  or_raise (DoesNotExist "Warehouse")
    (List.find (fun w => String.eqb (wh_pk w) pk) rows).

(** [models.ProductType.objects.get(pk=pk)] *)
Definition ProductType_get (pk : Z) : M Z :=
  rows <~ gets (fun st => product_types (db st)) ;;
  or_raise (DoesNotExist "ProductType") (List.find (Z.eqb pk) rows).

(** [models.Category.objects.get(pk=pk)] *)
Definition Category_get (pk : Z) : M Z :=
  rows <~ gets (fun st => categories (db st)) ;;
  or_raise (DoesNotExist "Category") (List.find (Z.eqb pk) rows).

(** [menu_models.Menu.objects.get(name=name)] *)
Definition Menu_get (name : string) : M Menu :=
  rows <~ gets (fun st => menus (db st)) ;;
  match List.filter (fun m => String.eqb (m_name m) name) rows with
  | [] => raise (DoesNotExist "Menu")
  | [m] => ret m
  | _ => raise (MultipleObjectsReturned "Menu")
  end.

(** [models.Product.objects.create(...)]: the row is given without its
    primary key and comes back with it. *)
Definition Product_create (row : Z -> Product) : M Product :=
  rows <~ gets (fun st => products (db st)) ;;
  let p := row (fresh_pk (List.map p_pk rows)) in
  modify_db (set_products (rows ++ [p])) ;;;
  ret p.

(** [new_variant.save()] on an instance that has no primary key yet. *)
Definition ProductVariant_save (row : Z -> ProductVariant)
  : M ProductVariant :=
  rows <~ gets (fun st => variants (db st)) ;;
  let v := row (fresh_pk (List.map pv_pk rows)) in
  modify_db (set_variants (rows ++ [v])) ;;;
  ret v.

(** [associate_attribute_values_to_instance(variant, attribute, value)] *)
Definition associate_attribute_values_to_instance
    (variant : ProductVariant) (attribute : Attribute)
    (value : AttributeValue) : M unit :=
  modify_db (fun d =>
    set_assigned (assigned d ++
      [{| ava_variant := pv_pk variant;
          ava_attribute := attr_pk attribute;
          ava_value := av_pk value |}]) d).

(** [warehouse_models.Stock.objects.bulk_create(new_stocks)] *)
Definition Stock_bulk_create (new_stocks : list Stock) : M unit :=
  modify_db (fun d => set_stocks (stocks d ++ new_stocks) d).

(** [models.Collection.objects.create(...)] *)
Definition Collection_create (row : Z -> Collection) : M Collection :=
  rows <~ gets (fun st => collections (db st)) ;;
  let c := row (fresh_pk (List.map c_pk rows)) in
  modify_db (set_collections (rows ++ [c])) ;;;
  ret c.

(** [models.CollectionProduct.objects.bulk_create(collection_products)] *)
Definition CollectionProduct_bulk_create (l : list CollectionProduct)
  : M unit :=
  modify_db (fun d => set_collection_products (collection_products d ++ l) d).

(** [menu_models.MenuItem.objects.create(...)] *)
Definition MenuItem_create (row : MenuItem) : M unit :=
  modify_db (fun d => set_menu_items (menu_items d ++ [row]) d).

(** [product.save(update_fields=["default_variant", ...])] *)
Definition Product_save_default_variant (product : Product) : M unit :=
  modify_db (fun d =>
    set_products
      (List.map (fun p => if Z.eqb (p_pk p) (p_pk product) then product else p)
                (products d)) d).

End Orm.
Import Orm.

(** ** What the remote shop returns *)

Module Remote.

Record ShopifyOption := { o_name : string; o_position : Z }.

(** [option1] ... [optionN] are kept as the list [v_options]. *)
Record ShopifyVariant := {
  v_sku : option string;
  v_price : option string;
  v_weight : Q;
  v_weight_unit : string;
  v_options : list string;
  v_inventory_quantity : Z
}.

Record ShopifyImage := { i_src : string }.

Record ShopifyProduct := {
  sp_id : Z;
  sp_title : string;
  sp_body_html : option string;
  sp_options : list ShopifyOption;
  sp_variants : list ShopifyVariant;
  sp_images : list ShopifyImage
}.

Record ShopifyCollection := {
  sc_id : Z;
  sc_title : string;
  sc_body_html : option string
}.

(** [getattr(variant, "option" + str(index))] *)
Definition getattr_option (variant : ShopifyVariant) (index : Z)
  : M string :=
  if index <=? 0 then raise AttributeError
  else or_raise AttributeError
         (nth_error (v_options variant) (Z.to_nat (index - 1))).

End Remote.
Import Remote.

(** Library functions the module calls: [django.utils.text.slugify],
    [decimal.Decimal] on a string ([None] is [InvalidOperation]),
    [datetime.date.today()] and [str.lower].  Of [s.lower()], which goes by
    the Unicode case mappings, one fact is used: a "(n)" put after [s]
    comes out as it is, after the lower case of [s] (digits and parentheses
    have no case, and a letter before them is lowered as at the end of the
    string). *)
Class Externals := {
  slugify : string -> string;
  Decimal : string -> option Q;
  today : Z;
  lower : string -> string;
  lower_suffix : forall s n,
    lower (s +:+ "(" +:+ str n +:+ ")") = lower s +:+ "(" +:+ str n +:+ ")"
}.

(** ** [class ProductBulkCreateFromShopify] *)

Module ProductBulkCreateFromShopify.
Section Importer.

Context `{Externals}.

Definition DEF_PRODUCT_TYPE_ID : Z := 16.
Definition DEF_PRODUCT_CATEGORY_ID : Z := 24.
Definition DEF_SIZE_ATTRIBUTE_ID : Z := 13.
Definition DEF_COLOR_ATTRIBUTE_ID : Z := 14.
Definition DEF_WAREHOUSE_ID : string := "74b279b5-77a5-49d3-9ba6-789eac7a2829".
Definition DEF_MENU_ITEM_ID : Z := 20.

(** Body of [for val in values] in [create_attribute_values].  The local
    [attribute_cache] is the dictionary stored in [size_color_cache], so
    [attribute_cache["values"] |= ...] changes both. *)
Definition create_attribute_values_body (attribute_id : Z)
    (attribute_cache : AttributeCache) (val : string) : M AttributeCache :=
  let val := replace " " "-" val in
  d <~ gets db ;;
  let exist_attr_val :=
    List.find (fun v => String.eqb (av_name v) val)
              (iterator (ac_values attribute_cache) d) in
  if not_instance exist_attr_val then
    new_attribute_val <~
      AttributeValue_create (ac_attribute attribute_cache) val (slugify val) ;;
    let attribute_cache' :=
      {| ac_attribute := ac_attribute attribute_cache;
         ac_values := q_or_pk (ac_values attribute_cache)
                              (av_pk new_attribute_val) |} in
    modify (fun st =>
      with_size_color_cache
        (<[attribute_id := attribute_cache']> (size_color_cache st)) st) ;;;
    ret attribute_cache'
  else ret attribute_cache.

Definition create_attribute_values (attribute_id : Z) (values : list string)
  : M unit :=
  cache <~ gets size_color_cache ;;
  attribute_cache <~
    match cache !! attribute_id with
    | None =>
        attribute <~ Attribute_get attribute_id ;;
        let attribute_cache :=
          {| ac_attribute := attribute;
             ac_values := {| q_attribute_id := attribute_id;
                             q_pks := [] |} |} in
        modify (fun st =>
          with_size_color_cache
            (<[attribute_id := attribute_cache]> (size_color_cache st)) st) ;;;
        ret attribute_cache
    | Some attribute_cache => ret attribute_cache
    end ;;
  for_each (create_attribute_values_body attribute_id) attribute_cache
           values ;;;
  ret tt.

Definition get_attribute_value (attribute_id : Z) (value : string)
  : M (Attribute * AttributeValue) :=
  let value := replace " " "-" value in
  cache <~ gets size_color_cache ;;
  attribute_cache <~ or_raise KeyError (cache !! attribute_id) ;;
  d <~ gets db ;;
  exist_attr_val <~
    or_raise StopIteration
      (List.find (fun v => String.eqb (av_name v) value)
                 (iterator (ac_values attribute_cache) d)) ;;
  if negb (truthy_instance exist_attr_val) then
    raise (ObjectDoesNotExist ("attribute with value not exist: " +:+ value))
  else ret (ac_attribute attribute_cache, exist_attr_val).

(** The cache holds [None] or a [Warehouse], which is true. *)
Definition get_default_warehouse : M Warehouse :=
  cached <~ gets def_warehouse_cache ;;
  match cached with
  | None =>
      warehouse <~ Warehouse_get DEF_WAREHOUSE_ID ;;
      modify (with_def_warehouse_cache (Some warehouse)) ;;;
      ret warehouse
  | Some warehouse => ret warehouse
  end.

(** Body of [for option in product.options] in [get_size_color_index]. *)
Definition get_size_color_index_body (acc : Z * Z) (option : ShopifyOption)
  : Z * Z :=
  let '(size_attr_index, color_attr_index) := acc in
  let name := lower (o_name option) in
  if String.eqb name "color" then (size_attr_index, o_position option)
  else if String.eqb name "size" then (o_position option, color_attr_index)
       else (size_attr_index, color_attr_index).

Definition get_size_color_index (product : ShopifyProduct) : Z * Z :=
  fold_left get_size_color_index_body (sp_options product) (0, 0).

(** Body of [for variant in shopify_product.variants] in [create_variants];
    the accumulator is [(new_variants, new_stocks)]. *)
Definition create_variants_body (product : Product)
    (size_attr_index color_attr_index : Z)
    (acc : list ProductVariant * list Stock) (variant : ShopifyVariant)
  : M (list ProductVariant * list Stock) :=
  let '(new_variants, new_stocks) := acc in
  if negb (truthy_str (v_sku variant) && truthy_str (v_price variant)) then
    ret acc
  else
    let weight := {| w_unit := v_weight_unit variant;
                     w_value := v_weight variant |} in
    price_amount <~
      or_raise InvalidOperation (Decimal (default "" (v_price variant))) ;;
    let new_variant := fun pk =>
      {| pv_pk := pk; pv_product := p_pk product; pv_weight := weight;
         pv_sku := default "" (v_sku variant);
         pv_price_amount := price_amount |} in
    size_option <~ getattr_option variant size_attr_index ;;
    size <~ get_attribute_value DEF_SIZE_ATTRIBUTE_ID size_option ;;
    color_option <~ getattr_option variant color_attr_index ;;
    color <~ get_attribute_value DEF_COLOR_ATTRIBUTE_ID color_option ;;
    new_variant <~ ProductVariant_save new_variant ;;
    warehouse <~ get_default_warehouse ;;
    let new_stock :=
      {| s_warehouse := wh_pk warehouse;
         s_product_variant := pv_pk new_variant;
         s_quantity := v_inventory_quantity variant |} in
    associate_attribute_values_to_instance new_variant size.1 size.2 ;;;
    associate_attribute_values_to_instance new_variant color.1 color.2 ;;;
    ret (new_variants ++ [new_variant], new_stocks ++ [new_stock]).

(** [None] is the bare [return] of the guard. *)
Definition create_variants (product : Product)
    (shopify_product : ShopifyProduct) : M (option (list ProductVariant)) :=
  let '(size_attr_index, color_attr_index) :=
    get_size_color_index shopify_product in
  if negb ((0 <? size_attr_index) && (0 <? color_attr_index)) then ret None
  else
    acc <~ for_each
             (create_variants_body product size_attr_index color_attr_index)
             ([], []) (sp_variants shopify_product) ;;
    Stock_bulk_create acc.2 ;;;
    ret (Some acc.1).

(** Body of [for variant in spd.variants] in [create_color_sizes]. *)
Definition create_color_sizes_body (size_attr_index color_attr_index : Z)
    (acc : list string * list string) (variant : ShopifyVariant)
  : M (list string * list string) :=
  let '(size_values, color_values) := acc in
  size_val <~ getattr_option variant size_attr_index ;;
  color_val <~ getattr_option variant color_attr_index ;;
  let size_values :=
    if negb (contains size_val size_values)
    then size_values ++ [size_val] else size_values in
  let color_values :=
    if negb (contains color_val color_values)
    then color_values ++ [color_val] else color_values in
  ret (size_values, color_values).

Definition create_color_sizes (shopify_products : list ShopifyProduct)
  : M unit :=
  acc <~ for_each
           (fun acc spd =>
              let '(size_attr_index, color_attr_index) :=
                get_size_color_index spd in
              if negb ((0 <? size_attr_index) && (0 <? color_attr_index))
              then ret acc
              else for_each
                     (create_color_sizes_body size_attr_index
                                              color_attr_index)
                     acc (sp_variants spd))
           ([], []) shopify_products ;;
  create_attribute_values DEF_SIZE_ATTRIBUTE_ID acc.1 ;;;
  create_attribute_values DEF_COLOR_ATTRIBUTE_ID acc.2.

(** [Product.objects.filter(metadata__shopifyid__in=shopify_product_ids)],
    evaluated. *)
Definition get_product_by_shopify_id (shopify_product_ids : list string)
  : M (list Product) :=
  rows <~ gets (fun st => products (db st)) ;;
  ret (List.filter
         (fun p => match p_shopifyid p with
                   | Some i => contains i shopify_product_ids
                   | None => false
                   end) rows).

Definition create_product_images (products : list Product)
    (product_images : gmap Z (list string)) : M unit :=
  for_each
    (fun _ product =>
       image_urls <~ or_raise KeyError (product_images !! p_pk product) ;;
       modify (fun st =>
         with_delayed
           (delayed st ++ [CreateProductImagesFromUrl (p_pk product)
                                                      image_urls]) st))
    tt products.

(** Body of [for spa in shopify_products] in [create_products]. *)
Definition create_products_body (def_product_type def_category : Z)
    (acc : list Product * gmap Z (list string)) (spa : ShopifyProduct)
  : M (list Product * gmap Z (list string)) :=
  let '(products, product_images) := acc in
  new_product <~
    Product_create (fun pk =>
      {| p_pk := pk;
         p_name := sp_title spa;
         p_slug := slugify (sp_title spa +:+ str (sp_id spa));
         p_product_type := def_product_type;
         p_category := def_category;
         p_description :=
           (if truthy_str (sp_body_html spa)
            then default "" (sp_body_html spa) else "");
         p_is_published := true;
         p_visible_in_listings := true;
         p_available_for_purchase := today;
         p_shopifyid := Some (str (sp_id spa));
         p_default_variant := None |}) ;;
  create_variants new_product spa ;;;
  ret (products ++ [new_product],
       <[p_pk new_product := List.map i_src (sp_images spa)]> product_images).

Definition create_products (shopify_products : list ShopifyProduct)
  : M (list Product * gmap Z (list string)) :=
  atomic (
    def_product_type <~ ProductType_get DEF_PRODUCT_TYPE_ID ;;
    def_category <~ Category_get DEF_PRODUCT_CATEGORY_ID ;;
    for_each (create_products_body def_product_type def_category)
             ([], ∅) shopify_products).

(** The [while True] loop of [create_collection]: [Some name] when it
    breaks within [fuel] rounds. *)
Fixpoint collection_name_loop (fuel : nat) (title : string)
    (all_collections : list Collection) (i : Z) (collection_name : string)
  : option string :=
  match fuel with
  | O => None
  | S fuel' =>
      let lower_collection_name := lower collection_name in
      let collection :=
        List.find
          (fun c => String.eqb (lower (c_name c)) lower_collection_name)
          all_collections in
      if not_instance collection then Some collection_name
      else
        let i := i + 1 in
        collection_name_loop fuel' title all_collections i
          (title +:+ "(" +:+ str i +:+ ")")
  end.

Definition create_menu_item (collection : Collection) : M unit :=
  menu <~ Menu_get "navbar" ;;
  MenuItem_create {| mi_name := c_name collection;
                     mi_menu := m_pk menu;
                     mi_collection := c_pk collection;
                     mi_parent := DEF_MENU_ITEM_ID |}.

(** The loop is given one round more than there are collections, which is
    enough for it to break ([collection_name_loop_breaks]). *)
Definition create_collection (shopify_collection : ShopifyCollection)
    (products : list Product) : M unit :=
  atomic (
    all_collections <~ gets (fun st => collections (db st)) ;;
    collection_name <~
      or_raise NonTermination
        (collection_name_loop (S (List.length all_collections))
           (sc_title shopify_collection) all_collections 1
           (sc_title shopify_collection)) ;;
    new_collection <~
      Collection_create (fun pk =>
        {| c_pk := pk;
           c_name := collection_name;
           c_slug := slugify collection_name;
           c_is_published := true;
           c_description := str_opt (sc_body_html shopify_collection);
           c_shopifyid := Some (str (sc_id shopify_collection)) |}) ;;
    let collection_products :=
      List.map (fun product =>
                  {| cp_collection := c_pk new_collection;
                     cp_product := p_pk product |}) products in
    CollectionProduct_bulk_create collection_products ;;;
    create_menu_item new_collection).

(** [perform_mutation], from the point where the collection and its
    products have been fetched from the shop. *)
Definition perform_mutation (shopify_collection : ShopifyCollection)
    (shopify_products : list ShopifyProduct) : M (list Product) :=
  let shopify_product_ids :=
    List.map (fun p => str (sp_id p)) shopify_products in
  exist_products <~ get_product_by_shopify_id shopify_product_ids ;;
  exist_product_ids <~
    for_each (fun acc p =>
                i <~ or_raise KeyError (p_shopifyid p) ;; ret (acc ++ [i]))
             [] exist_products ;;
  let shopify_products :=
    List.filter
      (fun p => negb (contains (str (sp_id p)) exist_product_ids))
      shopify_products in
  create_color_sizes shopify_products ;;;
  created <~ create_products shopify_products ;;
  create_collection shopify_collection (created.1 ++ exist_products) ;;;
  create_product_images created.1 created.2 ;;;
  ret created.1.

End Importer.
End ProductBulkCreateFromShopify.

(** ** [class ProductVariantBulkCreate] *)

Module ProductVariantBulkCreate.
Section Mutation.

(** [ProductVariantBulkCreateInput], the cleaned input made from it, and
    the attribute values already used by the variants of a product. *)
Variables VariantData CleanedInput Used : Type.

Record StockInput := { si_warehouse : string; si_quantity : Z }.

(** An instance before [save()]: the row, waiting for its primary key. *)
Definition Unsaved : Type := Z -> ProductVariant.

(** [errors]: the pairs of a field and the index of the input at fault. *)
Definition Errors : Type := list (string * nat).

(** Helpers of other modules, by what this class passes and gets back;
    [clean_variant_input], which does its work through such helpers, is
    taken the same way.  A [true] from
    [validate_duplicated_attribute_values] and a [Some] from
    [clean_instance] stand for the [ValidationError] they raise. *)
Variable vd_sku : VariantData -> option string.
Variable get_node_or_error : Z -> M Product.
Variable get_used_variants_attribute_values : Product -> M Used.
Variable validate_duplicated_attribute_values :
  VariantData -> Used -> Used * bool.
Variable clean_variant_input :
  VariantData -> Z -> Errors -> nat -> M (option CleanedInput * Errors).
Variable construct_instance : Product -> CleanedInput -> Unsaved.
Variable clean_instance : Unsaved -> State -> option (list string).
Variable save_attributes : ProductVariant -> CleanedInput -> M unit.
Variable ci_stocks : CleanedInput -> list StockInput.
Variable get_nodes_or_error : list string -> M (list Warehouse).
Variable create_stocks :
  ProductVariant -> list StockInput -> list Warehouse -> M unit.

(** [enumerate(l)] *)
Definition enumerate {A} (l : list A) : list (nat * A) :=
  combine (seq 0 (List.length l)) l.

Definition add_indexes_to_errors (index : nat) (error : list string)
    (error_dict : Errors) : Errors :=
  error_dict ++ List.map (fun key => (key, index)) error.

(** [cleaned_input.get(...)] on [None] is [AttributeError]. *)
Definition save (instance : Unsaved) (cleaned_input : option CleanedInput)
  : M ProductVariant :=
  instance <~ ProductVariant_save instance ;;
  cleaned_input <~ or_raise AttributeError cleaned_input ;;
  save_attributes instance cleaned_input ;;;
  ret instance.

Definition create_variants (cleaned_inputs : list (option CleanedInput))
    (product : Product) (errors : Errors) : M (list Unsaved * Errors) :=
  for_each
    (fun '(instances, errors) '(index, cleaned_input) =>
       match cleaned_input with
       | None => ret (instances, errors)
       | Some cleaned_input =>
           let instance := construct_instance product cleaned_input in
           exc <~ gets (clean_instance instance) ;;
           match exc with
           | None => ret (instances ++ [instance], errors)
           | Some exc =>
               ret (instances, add_indexes_to_errors index exc errors)
           end
       end)
    ([], errors) (enumerate cleaned_inputs).

Definition validate_duplicated_sku (sku : string) (index : nat)
    (sku_list : list string) (errors : Errors) : list string * Errors :=
  (sku_list ++ [sku],
   if contains sku sku_list then errors ++ [("sku", index)] else errors).

Definition clean_variants (variants : list VariantData) (product : Product)
    (errors : Errors) : M (list (option CleanedInput) * Errors) :=
  used_attribute_values <~ get_used_variants_attribute_values product ;;
  r <~ for_each
    (fun '(cleaned_inputs, sku_list, used, errors) '(index, variant_data) =>
       let '(used, failed) :=
         validate_duplicated_attribute_values variant_data used in
       let errors :=
         if (failed : bool) then errors ++ [("attributes", index)]
         else errors in
       r <~ clean_variant_input variant_data (p_product_type product)
              errors index ;;
       let '(cleaned_input, errors) := r in
       let cleaned_inputs := cleaned_inputs ++ [cleaned_input] in
       if negb (truthy_str (vd_sku variant_data)) then
         ret (cleaned_inputs, sku_list, used, errors)
       else
         let '(sku_list, errors) :=
           validate_duplicated_sku (default "" (vd_sku variant_data)) index
                                   sku_list errors in
         ret (cleaned_inputs, sku_list, used, errors))
    ([], [], used_attribute_values, errors) (enumerate variants) ;;
  let '(cleaned_inputs, _, _, errors) := r in
  ret (cleaned_inputs, errors).

Definition create_variant_stocks (variant : ProductVariant)
    (cleaned_input : option CleanedInput) : M unit :=
  cleaned_input <~ or_raise AttributeError cleaned_input ;;
  let stocks := ci_stocks cleaned_input in
  match stocks with
  | [] => ret tt
  | _ =>
      let warehouse_ids := List.map si_warehouse stocks in
      warehouses <~ get_nodes_or_error warehouse_ids ;;
      create_stocks variant stocks warehouses
  end.

(** The instances come back as saved; [instances[0]] is [IndexError] on an
    empty list. *)
Definition save_variants (instances : list Unsaved) (product : Product)
    (cleaned_inputs : list (option CleanedInput))
  : M (list ProductVariant) :=
  atomic (
    if negb (Nat.eqb (List.length instances) (List.length cleaned_inputs))
    then raise (AssertionError
      "There should be the same number of instances and cleaned inputs.")
    else
      saved <~ for_each
        (fun saved '(instance, cleaned_input) =>
           instance <~ save instance cleaned_input ;;
           create_variant_stocks instance cleaned_input ;;;
           ret (saved ++ [instance]))
        [] (combine instances cleaned_inputs) ;;
      if not_instance (p_default_variant product) then
        first <~ or_raise IndexError (nth_error saved 0) ;;
        Product_save_default_variant
          {| p_pk := p_pk product; p_name := p_name product;
             p_slug := p_slug product;
             p_product_type := p_product_type product;
             p_category := p_category product;
             p_description := p_description product;
             p_is_published := p_is_published product;
             p_visible_in_listings := p_visible_in_listings product;
             p_available_for_purchase := p_available_for_purchase product;
             p_shopifyid := p_shopifyid product;
             p_default_variant := Some (pv_pk first) |} ;;;
        ret saved
      else ret saved).

(** The response is [(count, product_variants)]. *)
Definition perform_mutation (product_id : Z) (variants : list VariantData)
  : M (nat * list ProductVariant) :=
  product <~ get_node_or_error product_id ;;
  let errors : Errors := [] in
  r <~ clean_variants variants product errors ;;
  let '(cleaned_inputs, errors) := r in
  r <~ create_variants cleaned_inputs product errors ;;
  let '(instances, errors) := r in
  match errors with
  | _ :: _ => raise ValidationError
  | [] =>
      instances <~ save_variants instances product cleaned_inputs ;;
      modify (fun st =>
        with_delayed
          (delayed st ++ [UpdateProductMinimalVariantPrice (p_pk product)])
          st) ;;;
      ret (List.length instances, instances)
  end.

End Mutation.
End ProductVariantBulkCreate.

(** ** The words of the specification *)

Module Wording.

(** [title] with "(n)" appended. *)
Definition suffixed (title : string) (n : Z) : string :=
  title +:+ "(" +:+ str n +:+ ")".

(** A collection already has this name, compared without regard to case. *)
Definition taken `{Externals} (all_collections : list Collection)
    (name : string) : Prop :=
  exists c, In c all_collections /\ lower (c_name c) = lower name.

(** [name] is what the naming rule gives for [title]: the title itself when
    it is free, and otherwise [title(n)] for the smallest [n], counting
    from 2, for which that is free. *)
Definition first_free `{Externals} (all_collections : list Collection)
    (title name : string) : Prop :=
  ~ taken all_collections name /\
  ((~ taken all_collections title /\ name = title) \/
   (taken all_collections title /\
    exists n, 2 <= n /\ name = suffixed title n /\
      forall m, 2 <= m < n -> taken all_collections (suffixed title m))).

(** The remote variant has both a [sku] and a [price]. *)
Definition has_sku_and_price (variant : ShopifyVariant) : bool :=
  truthy_str (v_sku variant) && truthy_str (v_price variant).

End Wording.
Import Wording.

(** ** Predicates on states and runs *)

Module Statements.
Import ProductBulkCreateFromShopify.

(** [respects R m]: every run of [m], successful or not, takes a state to one
    related to it by [R]. *)
Definition respects {A} (R : State -> State -> Prop) (m : M A) : Prop :=
  forall st r st', m st = (r, st') -> R st st'.

(** A relation that composes along a run and survives a rollback. *)
Class Stable (R : State -> State -> Prop) : Prop := {
  stable_refl : forall st, R st st;
  stable_trans : forall st1 st2 st3, R st1 st2 -> R st2 st3 -> R st1 st3;
  stable_rollback : forall st st', R st st' -> R st (with_db (db st) st')
}.

(** The part [g] of the tables is unchanged. *)
Definition same_db {T} (g : DB -> T) : State -> State -> Prop :=
  fun st st' => g (db st') = g (db st).

(** No entry of [size_color_cache] is dropped. *)
Definition cache_grows : State -> State -> Prop :=
  fun st st' =>
    forall a, is_Some (size_color_cache st !! a) ->
              is_Some (size_color_cache st' !! a).

(** The cached query of the attribute finds a value of this name. *)
Definition seeded (attribute_id : Z) (name : string) (st : State) : Prop :=
  exists ac v,
    size_color_cache st !! attribute_id = Some ac
    /\ In v (iterator (ac_values ac) (db st))
    /\ av_name v = name.

(** The cached default warehouse, when there is one, is the configured one. *)
Definition warehouse_ok (st : State) : Prop :=
  forall w, def_warehouse_cache st = Some w -> wh_pk w = DEF_WAREHOUSE_ID.

(** The tables no method of the importer writes to. *)
Definition fixed_tables (d : DB) : list Z * list Z * list Menu :=
  (product_types d, categories d, menus d).

(** The local products that carry the id of one of the remote products. *)
Definition already_imported (sps : list ShopifyProduct) (st : State)
  : list Product :=
  List.filter
    (fun p => match p_shopifyid p with
              | Some i => contains i (List.map (fun p => str (sp_id p)) sps)
              | None => false
              end)
    (products (db st)).

(** The remote products that no local product carries the id of. *)
Definition not_yet_imported (sps : list ShopifyProduct) (st : State)
  : list ShopifyProduct :=
  List.filter
    (fun p => negb (contains (str (sp_id p))
                      (List.map (fun p => default "" (p_shopifyid p))
                                (already_imported sps st))))
    sps.

(** The two rows [create_products] needs are there. *)
Definition configured (st : State) : Prop :=
  is_Some (List.find (Z.eqb DEF_PRODUCT_TYPE_ID) (product_types (db st)))
  /\ is_Some (List.find (Z.eqb DEF_PRODUCT_CATEGORY_ID) (categories (db st))).

End Statements.
Import Statements.

(** ** Sample data *)

Module Samples.
Import ProductBulkCreateFromShopify.

(** A stand-in for [str.lower]: the letters A to Z, which is what
    [str.lower] does to a string of ASCII characters. *)
Definition demo_lower_char (c : ascii) : ascii :=
  let n := N_of_ascii c in
  if ((65 <=? n)%N && (n <=? 90)%N)%bool then ascii_of_N (n + 32) else c.

Fixpoint demo_lower (s : string) : string :=
  match s with
  | EmptyString => EmptyString
  | String c s' => String (demo_lower_char c) (demo_lower s')
  end.

(** A stand-in for [slugify]: lower case, spaces to hyphens. *)
Definition demo_slugify (s : string) : string :=
  replace " " "-" (demo_lower s).

Definition digit_of (c : ascii) : option Z :=
  let n := N_of_ascii c in
  if ((48 <=? n)%N && (n <=? 57)%N)%bool then Some (Z.of_N (n - 48))
  else None.

Fixpoint digits_value (acc : Z) (s : string) : option Z :=
  match s with
  | EmptyString => Some acc
  | String c s' =>
      match digit_of c with
      | Some d => digits_value (10 * acc + d) s'
      | None => None
      end
  end.

(** A stand-in for [Decimal]: whole numbers written in digits. *)
Definition demo_Decimal (s : string) : option Q :=
  match s with
  | EmptyString => None
  | _ => option_map inject_Z (digits_value 0 s)
  end.

(** The stand-in for [str.lower] has what is asked of [str.lower]. *)
Lemma append_nil b : "" +:+ b = b.
Proof. reflexivity. Qed.

Lemma append_cons c a b : String c a +:+ b = String c (a +:+ b).
Proof. reflexivity. Qed.

Lemma demo_lower_app a b :
  demo_lower (a +:+ b) = demo_lower a +:+ demo_lower b.
Proof.
  induction a as [|c a IH]; cbn [demo_lower];
    rewrite ?append_nil, ?append_cons; [reflexivity|].
  cbn [demo_lower]. now rewrite IH.
Qed.

Lemma demo_lower_digit d : demo_lower_char (pretty_N_char d) = pretty_N_char d.
Proof. unfold pretty_N_char. repeat case_match; reflexivity. Qed.

Lemma demo_lower_pretty_N_go x :
  forall s, demo_lower (pretty_N_go x s) = pretty_N_go x (demo_lower s).
Proof.
  induction (N.lt_wf_0 x) as [x _ IH]; intros s.
  destruct (decide (x = 0)%N) as [-> | Hx].
  - now rewrite !pretty_N_go_0.
  - rewrite (pretty_N_go_step x s), (pretty_N_go_step x (demo_lower s))
      by lia.
    rewrite IH by (apply N.div_lt; lia).
    cbn [demo_lower]. now rewrite demo_lower_digit.
Qed.

Lemma demo_lower_pretty_N (x : N) : demo_lower (pretty x) = pretty x.
Proof.
  unfold pretty, pretty_N. case_decide; [reflexivity|].
  now rewrite demo_lower_pretty_N_go.
Qed.

Lemma demo_lower_str i : demo_lower (str i) = str i.
Proof.
  destruct i as [|p|p].
  - reflexivity.
  - apply (demo_lower_pretty_N (Npos p)).
  - change (str (Z.neg p)) with ("-" +:+ pretty (Npos p)).
    rewrite demo_lower_app. f_equal. apply demo_lower_pretty_N.
Qed.

Lemma demo_lower_suffix s n :
  demo_lower (s +:+ "(" +:+ str n +:+ ")")
  = demo_lower s +:+ "(" +:+ str n +:+ ")".
Proof. rewrite !demo_lower_app, demo_lower_str. reflexivity. Qed.

Definition demo_externals : Externals :=
  {| slugify := demo_slugify; Decimal := demo_Decimal; today := 738000;
     lower := demo_lower; lower_suffix := demo_lower_suffix |}.

(** A shop with the configured attributes, product type, category,
    warehouse and menu, and nothing else. *)
Definition shop_db : DB :=
  {| attributes := [ {| attr_pk := 13 |}; {| attr_pk := 14 |} ];
     attribute_values := [];
     product_types := [16];
     categories := [24];
     warehouses := [ {| wh_pk := DEF_WAREHOUSE_ID |} ];
     products := [];
     variants := [];
     assigned := [];
     stocks := [];
     collections := [];
     collection_products := [];
     menus := [ {| m_pk := 1; m_name := "navbar" |} ];
     menu_items := [] |}.

Definition shop : State :=
  {| db := shop_db; size_color_cache := ∅; def_warehouse_cache := None;
     delayed := [] |}.

Definition size_color : list ShopifyOption :=
  [ {| o_name := "Size"; o_position := 1 |};
    {| o_name := "Color"; o_position := 2 |} ].

Definition variant (sku : string) (size color : string) (quantity : Z)
  : ShopifyVariant :=
  {| v_sku := Some sku; v_price := Some "10"; v_weight := 0;
     v_weight_unit := "g"; v_options := [size; color];
     v_inventory_quantity := quantity |}.

Definition shirt : ShopifyProduct :=
  {| sp_id := 1001; sp_title := "Shirt"; sp_body_html := None;
     sp_options := size_color;
     sp_variants := [ variant "SH-S" "S" "Navy Blue" 5;
                      variant "SH-M" "M" "Navy Blue" 7;
                      variant "SH-L" "L" "Red" 9 ];
     sp_images := [ {| i_src := "https://cdn.example/shirt.jpg" |} ] |}.

(** A remote product that names a color option and no size option. *)
Definition shirt_without_size : ShopifyProduct :=
  {| sp_id := 1002; sp_title := "Shirt"; sp_body_html := None;
     sp_options := [ {| o_name := "Color"; o_position := 1 |} ];
     sp_variants := sp_variants shirt;
     sp_images := [] |}.

(** [shop] once both attributes are in the cache, with no value seeded. *)
Definition primed : State :=
  (create_color_sizes (H := demo_externals) [] shop).2.

(** [shop] without the configured warehouse. *)
Definition shop_without_warehouse : State :=
  {| db :=
       {| attributes := attributes shop_db;
          attribute_values := [];
          product_types := product_types shop_db;
          categories := categories shop_db;
          warehouses := [];
          products := []; variants := []; assigned := []; stocks := [];
          collections := []; collection_products := [];
          menus := menus shop_db; menu_items := [] |};
     size_color_cache := ∅; def_warehouse_cache := None; delayed := [] |}.

Definition summer : ShopifyCollection :=
  {| sc_id := 77; sc_title := "Summer"; sc_body_html := Some "Summer sale" |}.

Definition named (pk : Z) (name : string) : Collection :=
  {| c_pk := pk; c_name := name; c_slug := demo_slugify name;
     c_is_published := true; c_description := ""; c_shopifyid := None |}.

(** The row the import makes of [shirt] in [shop]. *)
Definition shirt_row : Product :=
  {| p_pk := 1; p_name := "Shirt"; p_slug := "shirt1001";
     p_product_type := 16; p_category := 24; p_description := "";
     p_is_published := true; p_visible_in_listings := true;
     p_available_for_purchase := 738000; p_shopifyid := Some "1001";
     p_default_variant := None |}.

(** The variant rows the import makes of [shirt] in [shop]. *)
Definition shirt_variant_rows : list ProductVariant :=
  List.map
    (fun '(pk, sku) =>
       {| pv_pk := pk; pv_product := 1;
          pv_weight := {| w_unit := "g"; w_value := 0 |};
          pv_sku := sku; pv_price_amount := inject_Z 10 |})
    [(1, "SH-S"); (2, "SH-M"); (3, "SH-L")].

(** [shop] after [shirt] has been imported. *)
Definition shop_with_shirt : State :=
  (perform_mutation (H := demo_externals) summer [shirt] shop).2.

(** [shop] with two collections, "Summer" and "Summer(2)". *)
Definition shop_with_summers : State :=
  {| db := set_collections [named 1 "Summer"; named 2 "Summer(2)"] shop_db;
     size_color_cache := ∅; def_warehouse_cache := None; delayed := [] |}.

(** [get_node_or_error] for a product, by primary key. *)
Definition product_by_pk (product_id : Z) : M Product :=
  rows <~ gets (fun st => products (db st)) ;;
  or_raise ValidationError
    (List.find (fun p => Z.eqb (p_pk p) product_id) rows).

End Samples.

Import ProductBulkCreateFromShopify Samples.

(** ** [class ProductVariantStocksCreate] *)

Module ProductVariantStocksCreate.
Import ProductVariantBulkCreate.

(** [StockErrorCode], as far as this file uses it. *)
Inductive StockErrorCode : Type := UNIQUE.

(** [ValidationError(msg, code=code, params={"index": index})] *)
Record StockValidationError := {
  ve_msg : string;
  ve_code : StockErrorCode;
  ve_index : nat
}.

(** [errors = defaultdict(list)]: a dictionary from a field to its errors;
    it is true when it has a key. *)
Abbreviation StockErrors := (gmap string (list StockValidationError)).

Definition truthy_errors (errors : StockErrors) : bool :=
  negb (bool_decide (errors = ∅)).

(** [errors[field].append(error)] on a [defaultdict(list)] *)
Definition append_error (field : string) (error : StockValidationError)
    (errors : StockErrors) : StockErrors :=
  <[field := default [] (errors !! field) ++ [error]]> errors.

Definition update_errors (errors : StockErrors) (msg field : string)
    (code : StockErrorCode) (indexes : list nat) : StockErrors :=
  fold_left
    (fun errors index =>
       append_error field
         {| ve_msg := msg; ve_code := code; ve_index := index |} errors)
    indexes errors.

(** [[i for i, id in enumerate(warehouse_ids) if id == x]] *)
Definition indexes_of (x : string) (warehouse_ids : list string) : list nat :=
  List.map fst
    (List.filter (fun p => String.eqb (snd p) x) (enumerate warehouse_ids)).

(** [warehouse_ids.count(id)] *)
Definition count (id : string) (warehouse_ids : list string) : nat :=
  List.length (List.filter (String.eqb id) warehouse_ids).

(** The set comprehension is a [gset]; the loop goes through its elements in
    the order [elements] gives, as Python goes through a set in an order of
    its own.  [l[-1]] on an empty list is [IndexError]. *)
Definition check_for_duplicates (warehouse_ids : list string)
    (errors : StockErrors) : M StockErrors :=
  let duplicates : gset string :=
    list_to_set
      (List.filter (fun id => Nat.ltb 1 (count id warehouse_ids))
                   warehouse_ids) in
  let error_msg := "Duplicated warehouse ID." in
  indexes <~
    for_each
      (fun indexes duplicated_id =>
         i <~ or_raise IndexError (last (indexes_of duplicated_id warehouse_ids)) ;;
         ret (indexes ++ [i]))
      [] (elements duplicates) ;;
  ret (update_errors errors error_msg "warehouse" UNIQUE indexes).

Section Mutation.

(** Helpers of other modules, by what this class passes and gets back. *)
Variable get_node_or_error : Z -> M ProductVariant.
Variable get_nodes_or_error : list string -> M (list Warehouse).
Variable to_global_id : string -> string -> string.
Variable create_stocks :
  ProductVariant -> list StockInput -> list Warehouse -> M unit.

(** [variant.stocks.filter(warehouse__in=warehouses)
      .values_list("warehouse__pk", flat=True)] *)
Definition existing_stocks (variant : ProductVariant)
    (warehouses : list Warehouse) (d : DB) : list string :=
  List.map s_warehouse
    (List.filter
       (fun s => Z.eqb (s_product_variant s) (pv_pk variant)
                 && contains (s_warehouse s) (List.map wh_pk warehouses))
       (stocks d)).

Definition clean_stocks_input (variant : ProductVariant)
    (stocks_data : list StockInput) (errors : StockErrors)
  : M (list Warehouse * StockErrors) :=
  let warehouse_ids := List.map si_warehouse stocks_data in
  errors <~ check_for_duplicates warehouse_ids errors ;;
  warehouses <~ get_nodes_or_error warehouse_ids ;;
  existing <~ gets (fun st => existing_stocks variant warehouses (db st)) ;;
  let error_msg :=
    "Stock for this warehouse already exists for this product variant." in
  let indexes :=
    fold_left
      (fun indexes warehouse_pk =>
         let warehouse_id := to_global_id "Warehouse" warehouse_pk in
         indexes ++ indexes_of warehouse_id warehouse_ids)
      existing [] in
  ret (warehouses, update_errors errors error_msg "warehouse" UNIQUE indexes).

Definition perform_mutation (variant_id : Z) (stocks : list StockInput)
  : M ProductVariant :=
  let errors : StockErrors := ∅ in
  variant <~ get_node_or_error variant_id ;;
  match stocks with
  | [] => ret variant
  | _ =>
      r <~ clean_stocks_input variant stocks errors ;;
      let '(warehouses, errors) := r in
      if truthy_errors errors then raise ValidationError
      else
        create_stocks variant stocks warehouses ;;;
        ret variant
  end.

End Mutation.
End ProductVariantStocksCreate.

(** ** [class ProductVariantStocksUpdate] *)

Module ProductVariantStocksUpdate.
Import ProductVariantBulkCreate ProductVariantStocksCreate.
Section Mutation.

Variable get_node_or_error : Z -> M ProductVariant.
Variable get_nodes_or_error : list string -> M (list Warehouse).

(** The quantity of a Stock row made without one, from the model. *)
Variable default_quantity : Z.

(** A Stock row is known by its variant and its warehouse. *)
Definition same_stock (variant : Z) (warehouse : string) (s : Stock) : bool :=
  Z.eqb (s_product_variant s) variant && String.eqb (s_warehouse s) warehouse.

(** [Stock.objects.get_or_create(product_variant=.., warehouse=..)]: the row
    there is, a new row when there is none, [MultipleObjectsReturned] when
    there are several. *)
Definition Stock_get_or_create (variant : ProductVariant)
    (warehouse : Warehouse) : M Stock :=
  rows <~ gets (fun st => stocks (db st)) ;;
  match List.filter (same_stock (pv_pk variant) (wh_pk warehouse)) rows with
  | [] =>
      let stock := {| s_warehouse := wh_pk warehouse;
                      s_product_variant := pv_pk variant;
                      s_quantity := default_quantity |} in
      modify_db (set_stocks (rows ++ [stock])) ;;;
      ret stock
  | [stock] => ret stock
  | _ => raise (MultipleObjectsReturned "Stock")
  end.

(** [Stock.objects.bulk_update(stocks, ["quantity"])]: each row takes the
    quantity of the first object of the list that stands for it. *)
Definition Stock_bulk_update (objs : list Stock) : M unit :=
  modify_db (fun d =>
    set_stocks
      (List.map
         (fun row =>
            match List.find
                    (same_stock (s_product_variant row) (s_warehouse row))
                    objs with
            | Some obj =>
                {| s_warehouse := s_warehouse row;
                   s_product_variant := s_product_variant row;
                   s_quantity := s_quantity obj |}
            | None => row
            end)
         (stocks d)) d).

Definition update_or_create_variant_stocks (variant : ProductVariant)
    (stocks_data : list StockInput) (warehouses : list Warehouse) : M unit :=
  atomic (
    stocks <~
      for_each
        (fun stocks '(stock_data, warehouse) =>
           stock <~ Stock_get_or_create variant warehouse ;;
           let stock := {| s_warehouse := s_warehouse stock;
                           s_product_variant := s_product_variant stock;
                           s_quantity := si_quantity stock_data |} in
           ret (stocks ++ [stock]))
        [] (combine stocks_data warehouses) ;;
    Stock_bulk_update stocks).

Definition perform_mutation (variant_id : Z) (stocks : list StockInput)
  : M ProductVariant :=
  let errors : StockErrors := ∅ in
  variant <~ get_node_or_error variant_id ;;
  match stocks with
  | [] => ret variant
  | _ =>
      let warehouse_ids := List.map si_warehouse stocks in
      errors <~ check_for_duplicates warehouse_ids errors ;;
      if truthy_errors errors then raise ValidationError
      else
        warehouses <~ get_nodes_or_error warehouse_ids ;;
        update_or_create_variant_stocks variant stocks warehouses ;;;
        ret variant
  end.

End Mutation.
End ProductVariantStocksUpdate.

(** ** [class ProductVariantStocksDelete] *)

Module ProductVariantStocksDelete.
Section Mutation.

Variable get_node_or_error : Z -> M ProductVariant.

(** The primary keys of [resolve_global_ids_to_primary_keys(ids, Warehouse)]. *)
Variable resolve_global_ids_to_primary_keys : list string -> M (list string).

(** [Stock.objects.filter(product_variant=variant,
      warehouse__pk__in=warehouses_pks).delete()] *)
Definition Stock_delete (variant : ProductVariant)
    (warehouses_pks : list string) : M unit :=
  modify_db (fun d =>
    set_stocks
      (List.filter
         (fun s => negb (Z.eqb (s_product_variant s) (pv_pk variant)
                         && contains (s_warehouse s) warehouses_pks))
         (stocks d)) d).

(** [warehouse_ids] is an optional argument: [None] is the key missing from
    [data], and [data["warehouse_ids"]] is then [KeyError]. *)
Definition perform_mutation (variant_id : Z)
    (warehouse_ids : option (list string)) : M ProductVariant :=
  variant <~ get_node_or_error variant_id ;;
  warehouse_ids <~ or_raise KeyError warehouse_ids ;;
  warehouses_pks <~ resolve_global_ids_to_primary_keys warehouse_ids ;;
  Stock_delete variant warehouses_pks ;;;
  ret variant.

End Mutation.
End ProductVariantStocksDelete.

(** ** [saleor/product/thumbnails.py] *)

Module Thumbnails.

(** A call of [product.images.create(image=image, alt=alt)]: the product,
    the name, content and content type [SimpleUploadedFile] was given for
    [image], the alt text, and the primary key of the row made.  The name
    the storage gives the file it keeps is not part of this. *)
Record ProductImage := {
  img_pk : Z;
  img_product : Z;
  img_file_name : string;
  img_content : string;
  img_content_type : string;
  img_alt : string
}.

(** What the task has done: the calls of [product.images.create], the
    primary keys [create_product_thumbnails] was called with, the messages
    handed to the logger.  Both calls are taken to return. *)
Record Media := {
  images : list ProductImage;
  thumbnailed : list Z;
  logged : list string
}.

Section Task.

(** The [try] block, [urllib.request.urlopen(url).read()] and the making of
    the uploaded file: the bytes read, or [None] for any exception. *)
Variable urlopen : string -> option string.

(** Body of [for image_url in image_urls]; the accumulator is
    [(index, media)]. *)
Definition create_product_images_from_url_body (product : Product)
    (acc : Z * Media) (image_url : string) : Z * Media :=
  let '(index, media) := acc in
  match urlopen image_url with
  | None =>
      (index,
       {| images := images media; thumbnailed := thumbnailed media;
          logged := logged media
                    ++ ["Unable to download image: " +:+ image_url] |})
  | Some image_bytes =>
      let product_image :=
        {| img_pk := fresh_pk (List.map img_pk (images media));
           img_product := p_pk product;
           img_file_name := p_slug product +:+ ".jpg";
           img_content := image_bytes;
           img_content_type := "image/png";
           img_alt := "" |} in
      (index + 1,
       {| images := images media ++ [product_image];
          thumbnailed := thumbnailed media ++ [img_pk product_image];
          logged := logged media |})
  end.

(** [Product.objects.get(pk=product_id)] reads the tables; the images are
    kept in [media]. *)
Definition create_product_images_from_url (d : DB) (media : Media)
    (product_id : Z) (image_urls : list string) : Outcome Media :=
  match List.find (fun p => Z.eqb (p_pk p) product_id) (products d) with
  | None => Raise (DoesNotExist "Product")
  | Some product =>
      Ok (snd (fold_left (create_product_images_from_url_body product)
                         image_urls (1, media)))
  end.

End Task.
End Thumbnails.

(** ** More predicates on states and runs *)

Module MoreStatements.

(** The option is called [name], in any mix of upper and lower case. *)
Definition option_named `{Externals} (name : string) (o : ShopifyOption)
  : bool :=
  String.eqb (lower (o_name o)) name.

(** The position of the last option called [name], or 0. *)
Definition last_position `{Externals} (name : string)
    (options : list ShopifyOption) : Z :=
  match last (List.filter (option_named name) options) with
  | Some o => o_position o
  | None => 0
  end.

(** [raises_only P m]: whenever [m] ends with an exception, it is one of
    [P]. *)
Definition raises_only {A} (P : Exception -> Prop) (m : M A) : Prop :=
  forall st e st', m st = (Raise e, st') -> P e.

(** The attribute cache and the table of attribute values are unchanged. *)
Definition same_seeds : State -> State -> Prop :=
  fun st st' =>
    size_color_cache st' = size_color_cache st
    /\ attribute_values (db st') = attribute_values (db st).

(** The task queue is unchanged. *)
Definition same_delayed : State -> State -> Prop :=
  fun st st' => delayed st' = delayed st.

(** The value of [option<index>] of a remote variant, when it has one. *)
Definition option_at (variant : ShopifyVariant) (index : Z) : option string :=
  if index <=? 0 then None
  else nth_error (v_options variant) (Z.to_nat (index - 1)).

(** No two collections have the same name, letter case apart. *)
Definition distinct_names `{Externals} (d : DB) : Prop :=
  List.NoDup (List.map (fun c => lower (c_name c)) (collections d)).

(** The size and the color of the remote variant are there and seeded. *)
Definition variant_ready (size_attr_index color_attr_index : Z) (st : State)
    (variant : ShopifyVariant) : Prop :=
  exists s c,
    option_at variant size_attr_index = Some s
    /\ option_at variant color_attr_index = Some c
    /\ seeded DEF_SIZE_ATTRIBUTE_ID (replace " " "-" s) st
    /\ seeded DEF_COLOR_ATTRIBUTE_ID (replace " " "-" c) st.

(** So are those of every variant of every product with both slots. *)
Definition batch_ready `{Externals} (sps : list ShopifyProduct) (st : State)
  : Prop :=
  forall spd, In spd sps ->
    (0 <? (get_size_color_index spd).1)
    && (0 <? (get_size_color_index spd).2) = true ->
    forall variant, In variant (sp_variants spd) ->
      variant_ready (get_size_color_index spd).1 (get_size_color_index spd).2
                    st variant.

(** The variant row is of the product and has the [sku] of the remote
    variant and its price, as [Decimal] reads it. *)
Definition variant_of `{Externals} (product : Product)
    (variant : ShopifyVariant) (row : ProductVariant) : Prop :=
  pv_product row = p_pk product
  /\ pv_sku row = default "" (v_sku variant)
  /\ Decimal (default "" (v_price variant)) = Some (pv_price_amount row).

(** [i] is the last position of an id that occurs more than once. *)
Definition last_of_a_duplicate (warehouse_ids : list string) (i : nat)
  : Prop :=
  exists x,
    nth_error warehouse_ids i = Some x
    /\ (1 < ProductVariantStocksCreate.count x warehouse_ids)%nat
    /\ forall j, (i < j)%nat -> nth_error warehouse_ids j <> Some x.

(** The error [check_for_duplicates] makes for a position. *)
Definition duplicate_error (index : nat)
  : ProductVariantStocksCreate.StockValidationError :=
  {| ProductVariantStocksCreate.ve_msg := "Duplicated warehouse ID.";
     ProductVariantStocksCreate.ve_code := ProductVariantStocksCreate.UNIQUE;
     ProductVariantStocksCreate.ve_index := index |}.

(** The Stock row is of this variant, in one of these warehouses. *)
Definition touched (variant : ProductVariant) (warehouses_pks : list string)
    (s : Stock) : bool :=
  Z.eqb (s_product_variant s) (pv_pk variant)
  && contains (s_warehouse s) warehouses_pks.

(** The Stock row [update_or_create_variant_stocks] leaves for an input. *)
Definition stock_of (variant : ProductVariant)
    (pair : ProductVariantBulkCreate.StockInput * Warehouse) : Stock :=
  {| s_warehouse := wh_pk (snd pair);
     s_product_variant := pv_pk variant;
     s_quantity := ProductVariantBulkCreate.si_quantity (fst pair) |}.

(** The later state differs from the earlier in the Stock table at most. *)
Definition only_stocks (st st' : State) : Prop :=
  db st' = set_stocks (stocks (db st')) (db st)
  /\ size_color_cache st' = size_color_cache st
  /\ def_warehouse_cache st' = def_warehouse_cache st
  /\ delayed st' = delayed st.

(** The variant has a Stock row in one of the warehouses, and the global id
    of that warehouse is among the ids of the input. *)
Definition already_stocked (to_global_id : string -> string -> string)
    (variant : ProductVariant) (warehouses : list Warehouse)
    (warehouse_ids : list string) (d : DB) : Prop :=
  exists warehouse_pk,
    In warehouse_pk
       (ProductVariantStocksCreate.existing_stocks variant warehouses d)
    /\ In (to_global_id "Warehouse" warehouse_pk) warehouse_ids.

(** What could be read at the urls, in their order. *)
Definition downloads (urlopen : string -> option string)
    (image_urls : list string) : list string :=
  flat_map (fun url => match urlopen url with
                       | Some image_bytes => [image_bytes]
                       | None => []
                       end) image_urls.

(** The urls that could not be read, in their order. *)
Definition failures (urlopen : string -> option string)
    (image_urls : list string) : list string :=
  List.filter (fun url => match urlopen url with
                          | Some _ => false
                          | None => true
                          end) image_urls.

(** The call was for this product, with an upload named by the slug of the
    product and said to be a PNG, and with the empty alt text. *)
Definition uploaded_for (product : Product) (image : Thumbnails.ProductImage)
  : Prop :=
  Thumbnails.img_product image = p_pk product
  /\ Thumbnails.img_file_name image = p_slug product +:+ ".jpg"
  /\ Thumbnails.img_content_type image = "image/png"
  /\ Thumbnails.img_alt image = "".

(** The task is an image task, and it finds its product in the tables. *)
Definition image_task_runs (urlopen : string -> option string) (d : DB)
    (task : Task) : Prop :=
  match task with
  | CreateProductImagesFromUrl product_id image_urls =>
      forall media,
        exists media',
          Thumbnails.create_product_images_from_url urlopen d media
            product_id image_urls = Ok media'
  | UpdateProductMinimalVariantPrice _ => False
  end.

(** The SKUs of the inputs that have one, in their order. *)
Definition skus_of {VariantData} (vd_sku : VariantData -> option string)
    (variants : list VariantData) : list string :=
  flat_map (fun variant_data =>
              if truthy_str (vd_sku variant_data)
              then [default "" (vd_sku variant_data)] else [])
           variants.

(** The tables [create_collection] writes to. *)
Definition collection_tables (d : DB)
  : list Collection * list CollectionProduct * list MenuItem :=
  (collections d, collection_products d, menu_items d).

(** The image task of a product made from a remote product. *)
Definition image_task (pair : ShopifyProduct * Product) : Task :=
  CreateProductImagesFromUrl (p_pk (snd pair))
    (List.map i_src (sp_images (fst pair))).

End MoreStatements.
Import MoreStatements.

(** ** More sample data *)

Module MoreSamples.

(** [shop] without its "navbar" menu. *)
Definition shop_without_menu : State :=
  {| db :=
       {| attributes := attributes shop_db;
          attribute_values := [];
          product_types := product_types shop_db;
          categories := categories shop_db;
          warehouses := warehouses shop_db;
          products := []; variants := []; assigned := []; stocks := [];
          collections := []; collection_products := [];
          menus := []; menu_items := [] |};
     size_color_cache := ∅; def_warehouse_cache := None; delayed := [] |}.

(** Two warehouses, and a variant with 4 in stock in the first. *)
Definition north : Warehouse := {| wh_pk := "north" |}.
Definition south : Warehouse := {| wh_pk := "south" |}.

Definition sample_variant : ProductVariant :=
  {| pv_pk := 1; pv_product := 1;
     pv_weight := {| w_unit := "g"; w_value := 0 |};
     pv_sku := "SH-S"; pv_price_amount := inject_Z 10 |}.

Definition stocked : State :=
  {| db := set_stocks [ {| s_warehouse := "north"; s_product_variant := 1;
                           s_quantity := 4 |};
                        {| s_warehouse := "north"; s_product_variant := 2;
                           s_quantity := 6 |} ] shop_db;
     size_color_cache := ∅; def_warehouse_cache := None; delayed := [] |}.

Definition stock_input (warehouse : string) (quantity : Z)
  : ProductVariantBulkCreate.StockInput :=
  {| ProductVariantBulkCreate.si_warehouse := warehouse;
     ProductVariantBulkCreate.si_quantity := quantity |}.

(** Helpers for a shop where the global id of a warehouse is its primary
    key and every id names a warehouse. *)
Definition demo_get_node (variant_id : Z) : M ProductVariant :=
  if Z.eqb variant_id (pv_pk sample_variant) then ret sample_variant
  else raise ValidationError.

Definition demo_get_nodes (ids : list string) : M (list Warehouse) :=
  ret (List.map (fun id => {| wh_pk := id |}) ids).

Definition demo_to_global_id (type pk : string) : string := pk.

Definition demo_create_stocks (variant : ProductVariant)
    (stocks_data : list ProductVariantBulkCreate.StockInput)
    (warehouses : list Warehouse) : M unit :=
  ret tt.

(** A network where one url can be read. *)
Definition demo_urlopen (url : string) : option string :=
  if String.eqb url "https://cdn.example/shirt.jpg" then Some "PNG-bytes"
  else None.

Definition no_media : Thumbnails.Media :=
  {| Thumbnails.images := []; Thumbnails.thumbnailed := [];
     Thumbnails.logged := [] |}.

End MoreSamples.
Import MoreSamples.

(** * Properties *)

(** The sample data is run with the stand-ins of [Samples]; every statement
    below that is not about sample data holds for any [Externals]. *)
#[local] Existing Instance demo_externals | 100.

(** ** Running a method step by step *)

Section MonadFacts.

Context {A B : Type}.

Lemma bind_ok (m : M A) (k : A -> M B) st a st1 :
  m st = (Ok a, st1) -> bind m k st = k a st1.
Proof. intros E. unfold bind. now rewrite E. Qed.

Lemma bind_raise (m : M A) (k : A -> M B) st e st1 :
  m st = (Raise e, st1) -> bind m k st = (Raise e, st1).
Proof. intros E. unfold bind. now rewrite E. Qed.

Lemma bind_inv (m : M A) (k : A -> M B) st r st2 :
  bind m k st = (r, st2) ->
  (exists a st1, m st = (Ok a, st1) /\ k a st1 = (r, st2)) \/
  (exists e, m st = (Raise e, st2) /\ r = Raise e).
Proof.
  unfold bind. destruct (m st) as [[a|e] st1]; intros E.
  - left. eauto.
  - right. inversion E; subst. eauto.
Qed.

Lemma bind_ok_inv (m : M A) (k : A -> M B) st b st2 :
  bind m k st = (Ok b, st2) ->
  exists a st1, m st = (Ok a, st1) /\ k a st1 = (Ok b, st2).
Proof.
  intros E. apply bind_inv in E as [(a & st1 & E1 & E2)|(e & _ & E)].
  - eauto.
  - discriminate.
Qed.

Lemma or_raise_ok_inv e (o : option A) st a st' :
  or_raise e o st = (Ok a, st') -> o = Some a /\ st' = st.
Proof. destruct o; cbn; intros E; inversion E; auto. Qed.

Lemma for_each_cons (body : B -> A -> M B) acc x l :
  for_each body acc (x :: l) =
  bind (body acc x) (fun acc' => for_each body acc' l).
Proof. reflexivity. Qed.

End MonadFacts.

(** Take a successful run apart, one [bind] at a time. *)
Ltac run_inv E :=
  let a := fresh "a" in
  let s := fresh "st" in
  let E1 := fresh "E" in
  apply bind_ok_inv in E as (a & s & E1 & E).

(** ** What a method leaves alone *)

#[export] Instance same_db_stable {T} (g : DB -> T) : Stable (same_db g).
Proof.
  split; unfold same_db; intros; simpl; try congruence.
Qed.

#[export] Instance cache_grows_stable : Stable cache_grows.
Proof.
  split; unfold cache_grows; intros; simpl; auto.
Qed.

Section Respects.

Context (R : State -> State -> Prop) `{!Stable R}.

Lemma respects_ret {A} (a : A) : respects R (ret a).
Proof. intros st r st' E. inversion E; subst. apply stable_refl. Qed.

Lemma respects_raise {A} e : respects R (@raise A e).
Proof. intros st r st' E. inversion E; subst. apply stable_refl. Qed.

Lemma respects_gets {A} (f : State -> A) : respects R (gets f).
Proof. intros st r st' E. inversion E; subst. apply stable_refl. Qed.

Lemma respects_or_raise {A} e (o : option A) : respects R (or_raise e o).
Proof. destruct o; [apply respects_ret | apply respects_raise]. Qed.

Lemma respects_modify f : (forall st, R st (f st)) -> respects R (modify f).
Proof. intros Hf st r st' E. inversion E; subst. apply Hf. Qed.

Lemma respects_bind {A B} (m : M A) (k : A -> M B) :
  respects R m -> (forall a, respects R (k a)) -> respects R (bind m k).
Proof.
  intros Hm Hk st r st' E.
  apply bind_inv in E as [(a & st1 & E1 & E2)|(e & E1 & _)].
  - eapply stable_trans; [eapply Hm | eapply Hk]; eassumption.
  - eapply Hm; eassumption.
Qed.

Lemma respects_atomic {A} (m : M A) : respects R m -> respects R (atomic m).
Proof.
  intros Hm st r st' E. unfold atomic in E.
  destruct (m st) as [[a|e] st1] eqn:Em; inversion E; subst.
  - eapply Hm; eassumption.
  - apply stable_rollback. eapply Hm; eassumption.
Qed.

Lemma respects_for_each {A B} (body : B -> A -> M B) l :
  (forall acc x, respects R (body acc x)) ->
  forall acc, respects R (for_each body acc l).
Proof.
  intros Hb. induction l as [|x l IH]; intros acc; cbn [for_each].
  - apply respects_ret.
  - apply respects_bind; auto.
Qed.

End Respects.

Create HintDb methods.
#[export] Hint Unfold
  Attribute_get AttributeValue_create Warehouse_get ProductType_get
  Category_get Menu_get Product_create ProductVariant_save
  associate_attribute_values_to_instance Stock_bulk_create Collection_create
  CollectionProduct_bulk_create MenuItem_create Product_save_default_variant
  getattr_option modify_db
  create_attribute_values_body create_attribute_values get_attribute_value
  get_default_warehouse create_variants_body create_variants
  create_color_sizes_body create_color_sizes get_product_by_shopify_id
  create_product_images create_products_body create_products
  create_menu_item create_collection : methods.

(** Walk through a method; [leaf] closes the goals left by [modify]. *)
Ltac respects_with leaf :=
  repeat first
    [ progress cbv beta
    | apply respects_ret; [typeclasses eauto]
    | apply respects_raise; [typeclasses eauto]
    | apply respects_gets; [typeclasses eauto]
    | apply respects_or_raise; [typeclasses eauto]
    | apply respects_atomic; [typeclasses eauto|]
    | apply respects_bind; [typeclasses eauto| |intros ?]
    | apply respects_for_each; [typeclasses eauto|intros ? ?]
    | apply respects_modify; intros ?; leaf
    | match goal with
      | |- respects _ (match ?x with _ => _ end) => destruct x
      end
    | progress autounfold with methods ].

Ltac same_db_leaf := reflexivity.


(** ** Skipped variants and products without a size or color option *)

Section Skips.

Context `{Externals}.

Lemma create_variants_body_skip product size_attr_index color_attr_index
    acc variant st :
  truthy_str (v_sku variant) && truthy_str (v_price variant) = false ->
  create_variants_body product size_attr_index color_attr_index acc variant
    st = (Ok acc, st).
Proof.
  intros E. unfold create_variants_body. destruct acc. now rewrite E.
Qed.

(** C7. A remote variant whose [sku] or [price] is missing ([None], or the
    empty string, which Python also takes as false) is passed over: the loop
    body returns without an exception, with the lists of new variants and
    new stocks and the whole state as they were, and the loop goes on with
    the variants that follow. *)
Theorem variant_without_sku_or_price_is_skipped
    product size_attr_index color_attr_index variant rest acc st :
  truthy_str (v_sku variant) = false \/ truthy_str (v_price variant) = false ->
  create_variants_body product size_attr_index color_attr_index acc variant
    st = (Ok acc, st)
  /\ for_each (create_variants_body product size_attr_index color_attr_index)
       acc (variant :: rest) st
     = for_each
         (create_variants_body product size_attr_index color_attr_index)
         acc rest st.
Proof.
  intros Hmiss.
  assert (E : truthy_str (v_sku variant) && truthy_str (v_price variant)
              = false).
  { destruct Hmiss as [-> | ->]; [reflexivity | apply andb_false_r]. }
  split.
  - now apply create_variants_body_skip.
  - rewrite for_each_cons.
    erewrite bind_ok by (now apply create_variants_body_skip).
    reflexivity.
Qed.

Lemma get_size_color_index_fold product :
  get_size_color_index product
  = fold_left get_size_color_index_body (sp_options product) (0, 0).
Proof. reflexivity. Qed.

Lemma index_without_size options :
  (forall o, In o options -> lower (o_name o) <> "size") ->
  forall acc, (fold_left get_size_color_index_body options acc).1 = acc.1.
Proof.
  induction options as [|o options IH]; intros Hno acc; [reflexivity|].
  cbn [fold_left]. rewrite IH by (intros; apply Hno; now right).
  destruct acc as [s c]. unfold get_size_color_index_body.
  destruct (String.eqb_spec (lower (o_name o)) "color"); [reflexivity|].
  destruct (String.eqb_spec (lower (o_name o)) "size"); [|reflexivity].
  exfalso. eapply Hno; [now left | assumption].
Qed.

Lemma index_without_color options :
  (forall o, In o options -> lower (o_name o) <> "color") ->
  forall acc, (fold_left get_size_color_index_body options acc).2 = acc.2.
Proof.
  induction options as [|o options IH]; intros Hno acc; [reflexivity|].
  cbn [fold_left]. rewrite IH by (intros; apply Hno; now right).
  destruct acc as [s c]. unfold get_size_color_index_body.
  destruct (String.eqb_spec (lower (o_name o)) "color").
  - exfalso. eapply Hno; [now left | assumption].
  - destruct (String.eqb (lower (o_name o)) "size"); reflexivity.
Qed.

Lemma create_variants_unset product spa st :
  (get_size_color_index spa).1 = 0 \/ (get_size_color_index spa).2 = 0 ->
  create_variants product spa st = (Ok None, st).
Proof.
  intros H0. unfold create_variants.
  destruct (get_size_color_index spa) as [s c]. cbn in H0.
  destruct H0 as [-> | ->]; cbn; [reflexivity|].
  now rewrite andb_false_r.
Qed.

(** C6. When no option of a remote product is called "size", or none is
    called "color" (in any mix of upper and lower case), [create_variants]
    returns at its guard and leaves the state as it is; the body of the
    product loop then adds the Product row, tagged with the remote id, and
    nothing else: no variant, no stock, no attribute assignment. *)
Theorem product_without_size_or_color_gets_no_variant spa :
  (forall o, In o (sp_options spa) -> lower (o_name o) <> "size") \/
  (forall o, In o (sp_options spa) -> lower (o_name o) <> "color") ->
  (forall product st, create_variants product spa st = (Ok None, st))
  /\ (forall def_product_type def_category products0 product_images st,
        exists p,
          create_products_body def_product_type def_category
            (products0, product_images) spa st
          = (Ok (products0 ++ [p],
                 <[p_pk p := List.map i_src (sp_images spa)]> product_images),
             with_db (set_products (products (db st) ++ [p]) (db st)) st)
          /\ p_name p = sp_title spa
          /\ p_shopifyid p = Some (str (sp_id spa))).
Proof.
  intros Hno.
  assert (Hcv : forall product st,
             create_variants product spa st = (Ok None, st)).
  { intros product st. apply create_variants_unset.
    rewrite get_size_color_index_fold.
    destruct Hno as [Hs | Hc].
    - left. now rewrite index_without_size.
    - right. now rewrite index_without_color. }
  split; [exact Hcv|].
  intros pt cat products0 product_images st.
  refine (ex_intro _ (Build_Product _ _ _ _ _ _ _ _ _ _ _) _).
  split; [|split].
  - unfold create_products_body, Product_create, modify_db, modify, gets,
      bind, ret. cbn. rewrite Hcv. reflexivity.
  - reflexivity.
  - reflexivity.
Qed.

End Skips.

Lemma variant_without_sku_or_price_is_skipped_witness :
  let v := {| v_sku := None; v_price := Some "10"; v_weight := 0;
              v_weight_unit := "g"; v_options := ["S"; "Red"];
              v_inventory_quantity := 4 |} in
  let product := {| p_pk := 1; p_name := "Shirt"; p_slug := "shirt1001";
                    p_product_type := 16; p_category := 24;
                    p_description := ""; p_is_published := true;
                    p_visible_in_listings := true;
                    p_available_for_purchase := 738000;
                    p_shopifyid := Some "1001"; p_default_variant := None |} in
  create_variants_body product 1 2 ([], []) v primed = (Ok ([], []), primed)
  /\ for_each (create_variants_body product 1 2) ([], [])
       (v :: sp_variants shirt) primed
     = for_each (create_variants_body product 1 2) ([], [])
         (sp_variants shirt) primed.
Proof.
  intros v product.
  apply (variant_without_sku_or_price_is_skipped product 1 2 v
           (sp_variants shirt) ([], []) primed).
  left. reflexivity.
Defined.

Lemma product_without_size_or_color_gets_no_variant_witness :
  (forall product st,
      create_variants product shirt_without_size st = (Ok None, st))
  /\ (forall def_product_type def_category products0 product_images st,
        exists p,
          create_products_body def_product_type def_category
            (products0, product_images) shirt_without_size st
          = (Ok (products0 ++ [p],
                 <[p_pk p := List.map i_src (sp_images shirt_without_size)]>
                   product_images),
             with_db (set_products (products (db st) ++ [p]) (db st)) st)
          /\ p_name p = sp_title shirt_without_size
          /\ p_shopifyid p = Some (str (sp_id shirt_without_size))).
Proof.
  apply (product_without_size_or_color_gets_no_variant shirt_without_size).
  left. intros o [<- | []]. vm_compute. discriminate.
Defined.

(** ** Resolving a value that was never seeded *)

Lemma get_attribute_value_raises attribute_id value st e st' :
  get_attribute_value attribute_id value st = (Raise e, st') ->
  e = KeyError \/ e = StopIteration.
Proof.
  unfold get_attribute_value, bind, gets, or_raise, ret, raise. cbn.
  destruct (size_color_cache st !! attribute_id) as [ac|]; cbn.
  - destruct (List.find _ _); cbn; intros E; inversion E; auto.
  - intros E; inversion E; auto.
Qed.

(** C5. With both attributes in the cache and no value "XL" among the size
    values, [get_attribute_value] raises [StopIteration], from its
    [next(...)]; the [ObjectDoesNotExist] of the line after is never
    reached ([get_attribute_value_raises]).  The exception is not caught on
    the way up: a batch whose second product has an unseeded size ends with
    it, and nothing of the batch is kept. *)
Theorem unseeded_value_raises_StopIteration :
  get_attribute_value DEF_SIZE_ATTRIBUTE_ID "XL" primed
  = (Raise StopIteration, primed)
  /\ create_products [shirt_without_size; shirt; shirt_without_size] primed
     = (Raise StopIteration, primed).
Proof. vm_compute. split; reflexivity. Qed.

(** ** The transaction around [create_products] *)

Section Transaction.

Context `{Externals}.

Lemma create_products_atomic sps st e st' :
  create_products sps st = (Raise e, st') -> db st' = db st.
Proof.
  unfold create_products, atomic.
  match goal with |- context [match ?m st with _ => _ end] =>
    destruct (m st) as [[a|e1] st1] end;
    intros E; inversion E; subst; reflexivity.
Qed.

Lemma create_color_sizes_products sps :
  respects (same_db products) (create_color_sizes sps).
Proof. respects_with same_db_leaf. Qed.

Lemma create_color_sizes_variants sps :
  respects (same_db variants) (create_color_sizes sps).
Proof. respects_with same_db_leaf. Qed.

Lemma create_color_sizes_stocks sps :
  respects (same_db stocks) (create_color_sizes sps).
Proof. respects_with same_db_leaf. Qed.

Lemma create_color_sizes_assigned sps :
  respects (same_db assigned) (create_color_sizes sps).
Proof. respects_with same_db_leaf. Qed.

(** C4. [create_color_sizes] runs before [create_products] and outside its
    transaction.  When [create_products] raises, whatever the product and
    the exception, the tables are back to what they were when
    [create_products] started: they hold the attribute values seeded by
    [create_color_sizes], and no product, variant, stock or assignment of
    the batch. *)
Theorem failed_batch_is_rolled_back_to_the_seeded_tables sps st st1 e st2 :
  create_color_sizes sps st = (Ok tt, st1) ->
  create_products sps st1 = (Raise e, st2) ->
  db st2 = db st1
  /\ products (db st2) = products (db st)
  /\ variants (db st2) = variants (db st)
  /\ stocks (db st2) = stocks (db st)
  /\ assigned (db st2) = assigned (db st).
Proof.
  intros Hseed Hfail. apply create_products_atomic in Hfail.
  rewrite Hfail. split; [reflexivity|].
  repeat split.
  - exact (create_color_sizes_products sps _ _ _ Hseed).
  - exact (create_color_sizes_variants sps _ _ _ Hseed).
  - exact (create_color_sizes_stocks sps _ _ _ Hseed).
  - exact (create_color_sizes_assigned sps _ _ _ Hseed).
Qed.

End Transaction.

(** The import of [shirt] into a shop without the warehouse fails inside
    [create_products], after the product and its first variant were written:
    neither is kept, the five attribute values seeded before are. *)
Lemma seeding_is_outside_the_transaction :
  let r := perform_mutation summer [shirt] shop_without_warehouse in
  r.1 = Raise (DoesNotExist "Warehouse")
  /\ products (db r.2) = []
  /\ variants (db r.2) = []
  /\ List.map av_name (attribute_values (db r.2))
     = ["S"; "M"; "L"; "Navy-Blue"; "Red"].
Proof. vm_compute. repeat split; reflexivity. Qed.

Lemma failed_batch_is_rolled_back_witness :
  let st1 := (create_color_sizes [shirt] shop_without_warehouse).2 in
  let st2 := (create_products [shirt] st1).2 in
  db st2 = db st1
  /\ products (db st2) = products (db shop_without_warehouse)
  /\ variants (db st2) = variants (db shop_without_warehouse)
  /\ stocks (db st2) = stocks (db shop_without_warehouse)
  /\ assigned (db st2) = assigned (db shop_without_warehouse).
Proof.
  intros st1 st2.
  apply (failed_batch_is_rolled_back_to_the_seeded_tables
           [shirt] shop_without_warehouse st1 (DoesNotExist "Warehouse") st2).
  - vm_compute. reflexivity.
  - vm_compute. reflexivity.
Defined.

(** The second of three products meets a size that was never seeded: the
    batch raises and not one of the three products is kept. *)
Example second_of_three_fails :
  let r := create_products [shirt_without_size; shirt; shirt_without_size]
             primed in
  r.1 = Raise StopIteration /\ db r.2 = db primed.
Proof. vm_compute. split; reflexivity. Qed.

(** ** The default variant *)

(** C9. The import of [shirt] into [shop] creates the product with three
    variants and leaves its [default_variant] unset: [create_variants] of the
    importer never assigns it, for this product or any other
    ([imported_products_have_no_default_variant]). *)
Theorem import_leaves_default_variant_unset :
  let r := perform_mutation summer [shirt] shop in
  r.1 = Ok [shirt_row]
  /\ products (db r.2) = [shirt_row]
  /\ List.map pv_product (variants (db r.2))
     = [p_pk shirt_row; p_pk shirt_row; p_pk shirt_row]
  /\ p_default_variant shirt_row = None.
Proof. vm_compute. repeat split; reflexivity. Qed.

Section EmptyBulkCreate.

Variables VariantData CleanedInput Used : Type.
Variable vd_sku : VariantData -> option string.
Variable get_node_or_error : Z -> M Product.
Variable get_used_variants_attribute_values : Product -> M Used.
Variable validate_duplicated_attribute_values :
  VariantData -> Used -> Used * bool.
Variable clean_variant_input :
  VariantData -> Z -> ProductVariantBulkCreate.Errors -> nat ->
  M (option CleanedInput * ProductVariantBulkCreate.Errors).
Variable construct_instance :
  Product -> CleanedInput -> ProductVariantBulkCreate.Unsaved.
Variable clean_instance :
  ProductVariantBulkCreate.Unsaved -> State -> option (list string).
Variable save_attributes : ProductVariant -> CleanedInput -> M unit.
Variable ci_stocks :
  CleanedInput -> list ProductVariantBulkCreate.StockInput.
Variable get_nodes_or_error : list string -> M (list Warehouse).
Variable create_stocks :
  ProductVariant -> list ProductVariantBulkCreate.StockInput ->
  list Warehouse -> M unit.

Lemma with_db_same st : with_db (db st) st = st.
Proof. now destruct st. Qed.

(** C10. [ProductVariantBulkCreate.perform_mutation] with an empty
    [variants] list, on a product that is found and has no default variant:
    nothing is cleaned, constructed or saved, [save_variants] reaches
    [instances[0]] with [instances] empty, and the mutation ends with
    [IndexError] instead of a response with count 0. *)
Theorem empty_variants_raise_IndexError product_id product used st st1 st2 :
  get_node_or_error product_id st = (Ok product, st1) ->
  get_used_variants_attribute_values product st1 = (Ok used, st2) ->
  p_default_variant product = None ->
  ProductVariantBulkCreate.perform_mutation VariantData CleanedInput Used
    vd_sku get_node_or_error get_used_variants_attribute_values validate_duplicated_attribute_values
    clean_variant_input construct_instance clean_instance save_attributes
    ci_stocks get_nodes_or_error create_stocks product_id [] st
  = (Raise IndexError, st2).
Proof.
  intros Hnode Hused Hdefault.
  unfold ProductVariantBulkCreate.perform_mutation.
  erewrite bind_ok by eassumption.
  unfold ProductVariantBulkCreate.clean_variants.
  unfold bind at 1. unfold bind at 1. rewrite Hused. cbn.
  unfold ProductVariantBulkCreate.save_variants, atomic, bind. cbn.
  rewrite Hdefault. cbn. now rewrite with_db_same.
Qed.

End EmptyBulkCreate.

Lemma empty_variants_raise_IndexError_witness :
  ProductVariantBulkCreate.perform_mutation unit unit unit
    (fun _ => None) product_by_pk (fun _ => ret tt)
    (fun _ u => (u, false)) (fun _ _ errors _ => ret (Some tt, errors))
    (fun product _ pk =>
       {| pv_pk := pk; pv_product := p_pk product;
          pv_weight := {| w_unit := "g"; w_value := 0 |};
          pv_sku := ""; pv_price_amount := 0 |})
    (fun _ _ => None) (fun _ _ => ret tt) (fun _ => [])
    (fun _ => ret []) (fun _ _ _ => ret tt) 1 [] shop_with_shirt
  = (Raise IndexError, shop_with_shirt).
Proof.
  apply (empty_variants_raise_IndexError unit unit unit (fun _ => None)
           product_by_pk (fun _ => ret tt) (fun _ u => (u, false))
           (fun _ _ errors _ => ret (Some tt, errors))
           (fun product _ pk =>
              {| pv_pk := pk; pv_product := p_pk product;
                 pv_weight := {| w_unit := "g"; w_value := 0 |};
                 pv_sku := ""; pv_price_amount := 0 |})
           (fun _ _ => None) (fun _ _ => ret tt) (fun _ => [])
           (fun _ => ret []) (fun _ _ _ => ret tt)
           1 shirt_row tt shop_with_shirt shop_with_shirt shop_with_shirt).
  - vm_compute. reflexivity.
  - reflexivity.
  - reflexivity.
Defined.

(** ** The name of the new collection *)

Section CollectionName.

Context `{Externals}.

Lemma lower_suffixed title n :
  lower (suffixed title n) = lower title +:+ "(" +:+ str n +:+ ")".
Proof. apply lower_suffix. Qed.

Lemma append_last_inj x y c :
  x +:+ String c "" = y +:+ String c "" -> x = y.
Proof.
  revert y. induction x as [|a x IH]; intros [|b y];
    rewrite ?append_nil, ?append_cons; intros E.
  - reflexivity.
  - inversion E as [[Ea Eb]]. destruct y; discriminate.
  - inversion E as [[Ea Eb]]. destruct x; discriminate.
  - inversion E; subst. f_equal. now apply IH.
Qed.

Lemma length_append a b :
  String.length (a +:+ b) = (String.length a + String.length b)%nat.
Proof.
  induction a as [|c a IH]; rewrite ?append_nil, ?append_cons;
    cbn [String.length]; [reflexivity|]. now rewrite IH.
Qed.

Lemma lower_suffixed_inj title n m :
  lower (suffixed title n) = lower (suffixed title m) -> n = m.
Proof.
  rewrite !lower_suffixed. intros E.
  apply String.app_inj in E. apply (String.app_inj "(") in E.
  apply append_last_inj in E. now apply pretty_Z_inj in E.
Qed.

Lemma lower_suffixed_title title n :
  lower (suffixed title n) <> lower title.
Proof.
  rewrite lower_suffixed. intros E.
  apply (f_equal String.length) in E. rewrite !length_append in E.
  cbn [String.length] in E. lia.
Qed.

Lemma found_iff_taken cols name :
  not_instance
    (List.find (fun c => String.eqb (lower (c_name c)) (lower name)) cols)
  = false <-> taken cols name.
Proof.
  unfold not_instance, truthy_instance, taken. split.
  - destruct (List.find _ cols) as [c|] eqn:E; [|discriminate].
    intros _. apply find_some in E as [Hin Heq].
    apply String.eqb_eq in Heq. eauto.
  - intros (c & Hin & Heq).
    destruct (List.find _ cols) as [c'|] eqn:E; [reflexivity|].
    eapply find_none in E; [|exact Hin].
    cbn in E. rewrite Heq, String.eqb_refl in E. discriminate.
Qed.

Lemma not_found_iff_free cols name :
  not_instance
    (List.find (fun c => String.eqb (lower (c_name c)) (lower name)) cols)
  = true <-> ~ taken cols name.
Proof.
  rewrite <- found_iff_taken. destruct (not_instance _); split; congruence.
Qed.

(** What the loop returns when it breaks. *)
Lemma collection_name_loop_some title cols fuel :
  forall i name r,
    collection_name_loop fuel title cols i name = Some r ->
    (~ taken cols name /\ r = name) \/
    (taken cols name /\
     exists n, i < n /\ r = suffixed title n /\ ~ taken cols r /\
       forall m, i < m < n -> taken cols (suffixed title m)).
Proof.
  induction fuel as [|fuel IH]; intros i name r; cbn [collection_name_loop];
    [discriminate|].
  destruct (not_instance _) eqn:E.
  - intros [= <-]. left. split; [now apply not_found_iff_free | reflexivity].
  - apply found_iff_taken in E. intros Hr. right. split; [exact E|].
    apply IH in Hr as [[Hfree ->] | (Htaken & n & Hn & -> & Hfree & Hall)].
    + exists (i + 1). repeat split; [lia | exact Hfree | intros m Hm; lia].
    + exists n. repeat split; [lia | exact Hfree |].
      intros m Hm. destruct (decide (m = i + 1)) as [-> | Hne].
      * exact Htaken.
      * apply Hall. lia.
Qed.

(** What is known when the loop runs out of rounds. *)
Lemma collection_name_loop_none title cols fuel :
  forall i name,
    collection_name_loop fuel title cols i name = None ->
    ((0 < fuel)%nat -> taken cols name) /\
    forall k, (1 <= k < fuel)%nat ->
              taken cols (suffixed title (i + Z.of_nat k)).
Proof.
  induction fuel as [|fuel IH]; intros i name; cbn [collection_name_loop].
  - intros _. split; intros; lia.
  - destruct (not_instance _) eqn:E; [discriminate|].
    apply found_iff_taken in E. intros Hnone.
    apply IH in Hnone as [Hfirst Hrest]. split; [auto|].
    intros k Hk. destruct (decide (k = 1%nat)) as [-> | Hne].
    + apply Hfirst. lia.
    + replace (i + Z.of_nat k) with (i + 1 + Z.of_nat (k - 1)) by lia.
      apply Hrest. lia.
Qed.

(** One round more than there are collections is enough: the candidates
    differ from one another in lower case, and each round that does not
    break has found a collection of its own. *)
Lemma collection_name_loop_breaks title cols :
  exists name,
    collection_name_loop (S (List.length cols)) title cols 1 title
    = Some name.
Proof.
  destruct (collection_name_loop _ _ _ _ _) as [name|] eqn:E; [eauto|].
  exfalso. apply collection_name_loop_none in E as [Hfirst Hrest].
  specialize (Hfirst ltac:(lia)).
  set (n := List.length cols) in *.
  set (cand := fun k : nat => lower (suffixed title (1 + Z.of_nat k))).
  set (L := lower title :: List.map cand (seq 1 n)).
  assert (Hnodup : List.NoDup L).
  { constructor.
    - intros Hin. apply in_map_iff in Hin as (k & Hk & _).
      exact (lower_suffixed_title _ _ Hk).
    - apply Finite.Injective_map_NoDup; [|apply seq_NoDup].
      intros a b Hab. apply lower_suffixed_inj in Hab. lia. }
  assert (Hincl : incl L (List.map (fun c => lower (c_name c)) cols)).
  { intros x [<- | Hin].
    - destruct Hfirst as (c & Hc & Heq). apply in_map_iff. eauto.
    - apply in_map_iff in Hin as (k & <- & Hk). apply in_seq in Hk.
      destruct (Hrest k ltac:(lia)) as (c & Hc & Heq).
      apply in_map_iff. eauto. }
  apply NoDup_incl_length in Hincl; [|exact Hnodup].
  subst L. cbn [List.length] in Hincl.
  rewrite !length_map, length_seq in Hincl. lia.
Qed.

Lemma collection_name_loop_first_free title cols name :
  collection_name_loop (S (List.length cols)) title cols 1 title = Some name ->
  first_free cols title name.
Proof.
  intros E.
  apply collection_name_loop_some in E
    as [[Hfree ->] | (Htaken & n & Hn & -> & Hfree & Hall)].
  - split; [exact Hfree|]. left. auto.
  - split; [exact Hfree|]. right. split; [exact Htaken|].
    exists n. repeat split; [lia|]. intros m Hm. apply Hall. lia.
Qed.

#[local] Arguments collection_name_loop : simpl never.

Lemma atomic_ok_inv {A} (m : M A) st a st' :
  atomic m st = (Ok a, st') -> m st = (Ok a, st').
Proof.
  unfold atomic. destruct (m st) as [[a'|e] st1]; intros E; inversion E.
  reflexivity.
Qed.

(** A successful [create_collection]: the row it adds, the memberships it
    adds for the products it is given, and the name it chose. *)
Lemma create_collection_ok sc prods st st' :
  create_collection sc prods st = (Ok tt, st') ->
  exists c,
    collection_name_loop (S (List.length (collections (db st))))
      (sc_title sc) (collections (db st)) 1 (sc_title sc) = Some (c_name c)
    /\ collections (db st') = collections (db st) ++ [c]
    /\ collection_products (db st')
       = collection_products (db st)
         ++ List.map (fun p => {| cp_collection := c_pk c;
                                  cp_product := p_pk p |}) prods.
Proof.
  intros E. unfold create_collection in E. apply atomic_ok_inv in E.
  unfold bind, gets, or_raise, raise, ret in E. cbn in E.
  destruct (collection_name_loop _ _ _ _ _) as [name|] eqn:Hloop;
    cbn in E; [|discriminate].
  unfold create_menu_item, Menu_get, MenuItem_create, modify_db, modify,
    bind, gets, raise, ret in E.
  cbn in E.
  destruct (List.filter _ (menus (db st))) as [|m [|m' l]];
    cbn in E; inversion E; subst; clear E.
  eexists (Build_Collection _ _ _ _ _ _). cbn. repeat split.
Qed.

Lemma create_collection_terminates sc prods st r st' :
  create_collection sc prods st = (r, st') -> r <> Raise NonTermination.
Proof.
  destruct (collection_name_loop_breaks (sc_title sc) (collections (db st)))
    as [name Hloop].
  unfold create_collection, atomic, bind, gets, or_raise, raise, ret. cbn.
  rewrite Hloop. cbn.
  unfold create_menu_item, Menu_get, MenuItem_create, modify_db, modify,
    bind, gets, raise, ret.
  cbn.
  destruct (List.filter _ (menus (db st))) as [|m [|m' l]];
    cbn; intros E; inversion E; discriminate.
Qed.

(** C2. The loop of [create_collection] always breaks, with the title when
    no collection has it (in any case of letters), and otherwise with the
    title followed by "(n)" for the least [n] from 2 on that no collection
    has; [create_collection] gives that name to the collection it adds.
    With "Summer" and "Summer(2)" in the table, the collection made for a
    remote "Summer" is "Summer(3)". *)
Theorem new_collection_takes_first_free_name sc prods st :
  (exists name,
     collection_name_loop (S (List.length (collections (db st))))
       (sc_title sc) (collections (db st)) 1 (sc_title sc) = Some name
     /\ first_free (collections (db st)) (sc_title sc) name
     /\ forall r st',
          create_collection sc prods st = (r, st') ->
          r <> Raise NonTermination
          /\ (r = Ok tt ->
              exists c, collections (db st') = collections (db st) ++ [c]
                        /\ c_name c = name))
  /\ List.map c_name
       (collections
          (db (create_collection (H := demo_externals) summer []
                 shop_with_summers).2))
     = ["Summer"; "Summer(2)"; "Summer(3)"].
Proof.
  split; [|vm_compute; reflexivity].
  destruct (collection_name_loop_breaks (sc_title sc) (collections (db st)))
    as [name Hloop].
  exists name. split; [exact Hloop|].
  split; [now apply collection_name_loop_first_free|].
  intros r st' E. split.
  - eapply create_collection_terminates; eassumption.
  - intros ->. apply create_collection_ok in E as (c & Hc & Hcols & _).
    exists c. split; [exact Hcols|]. congruence.
Qed.

End CollectionName.

(** ** Seeding attribute values and resolving them *)

Section Seeding.

Context `{Externals}.

Lemma replace_get old new s :
  forall i,
    String.get i (replace old new s)
    = option_map (fun c => if Ascii.eqb c old then new else c)
                 (String.get i s).
Proof.
  induction s as [|c s IH]; intros i; cbn [replace String.get];
    [reflexivity|].
  destruct i; [reflexivity | apply IH].
Qed.

Lemma find_by_name name l :
  (exists v, In v l /\ av_name v = name) ->
  exists x, List.find (fun v => String.eqb (av_name v) name) l = Some x
            /\ av_name x = name.
Proof.
  intros (v & Hin & Hname).
  destruct (List.find _ l) as [x|] eqn:E.
  - exists x. split; [reflexivity|].
    apply find_some in E as [_ E]. now apply String.eqb_eq in E.
  - eapply find_none in E; [|exact Hin]. cbn in E.
    rewrite Hname, String.eqb_refl in E. discriminate.
Qed.

Lemma iterator_grows q pk row d v :
  In v (iterator q d) ->
  In v (iterator (q_or_pk q pk)
          (set_attribute_values (attribute_values d ++ [row]) d)).
Proof.
  unfold iterator. cbn. rewrite !filter_In, in_app_iff.
  intros [Hin Hm]. split; [now left|].
  unfold q_matches in *. cbn. rewrite existsb_app.
  apply orb_true_iff in Hm as [-> | ->]; [reflexivity|].
  cbn. now rewrite orb_true_r.
Qed.

Lemma iterator_new q row d :
  In row (iterator (q_or_pk q (av_pk row))
            (set_attribute_values (attribute_values d ++ [row]) d)).
Proof.
  unfold iterator. cbn. rewrite filter_In, in_app_iff. split.
  - right. now left.
  - unfold q_matches. cbn. rewrite existsb_app. cbn.
    rewrite Z.eqb_refl. cbn. now rewrite !orb_true_r.
Qed.

Lemma create_attribute_values_body_seeds a ac val st ac' st' :
  size_color_cache st !! a = Some ac ->
  create_attribute_values_body a ac val st = (Ok ac', st') ->
  size_color_cache st' !! a = Some ac'
  /\ seeded a (replace " " "-" val) st'
  /\ forall name, seeded a name st -> seeded a name st'.
Proof.
  intros Hcache. unfold create_attribute_values_body.
  unfold bind at 1. unfold gets at 1. cbv beta iota.
  destruct (List.find _ (iterator (ac_values ac) (db st))) as [v|] eqn:Efind.
  - cbn. intros [= <- <-]. split; [exact Hcache|]. split; [|auto].
    apply find_some in Efind as [Hin Hname]. apply String.eqb_eq in Hname.
    exists ac, v. auto.
  - cbn. intros [= <- <-]. cbn. split; [apply lookup_insert_eq|]. split.
    + eexists _, _. split; [apply lookup_insert_eq|]. cbn.
      split; [apply (iterator_new _ (Build_AttributeValue _ _ _ _))|].
      reflexivity.
    + intros name (ac0 & v & Hc & Hin & Hname).
      rewrite Hcache in Hc. injection Hc as <-.
      eexists _, v. split; [apply lookup_insert_eq|]. cbn.
      split; [now apply iterator_grows | exact Hname].
Qed.

Lemma create_attribute_values_loop_seeds a values :
  forall ac st ac' st',
    size_color_cache st !! a = Some ac ->
    for_each (create_attribute_values_body a) ac values st = (Ok ac', st') ->
    size_color_cache st' !! a = Some ac'
    /\ (forall v, In v values -> seeded a (replace " " "-" v) st')
    /\ forall name, seeded a name st -> seeded a name st'.
Proof.
  induction values as [|val values IH]; intros ac st ac' st' Hcache E.
  - cbn in E. injection E as <- <-. split; [exact Hcache|].
    split; [intros v []|auto].
  - rewrite for_each_cons in E. run_inv E.
    eapply create_attribute_values_body_seeds in E0 as (Hc & Hnew & Hold);
      [|exact Hcache].
    eapply IH in E as (Hc' & Hall & Hold'); [|exact Hc].
    split; [exact Hc'|]. split; [|auto].
    intros v [<- | Hin]; auto.
Qed.

Lemma create_attribute_values_seeds a values st st' :
  create_attribute_values a values st = (Ok tt, st') ->
  is_Some (size_color_cache st' !! a)
  /\ forall v, In v values -> seeded a (replace " " "-" v) st'.
Proof.
  unfold create_attribute_values. intros E.
  apply bind_ok_inv in E as (cache & st0 & Egets & E).
  injection Egets as <- <-.
  apply bind_ok_inv in E as (ac & st1 & Ecache & E).
  apply bind_ok_inv in E as (ac' & st2 & Eloop & E).
  injection E as <-.
  assert (Hcache : size_color_cache st1 !! a = Some ac).
  { destruct (size_color_cache st !! a) as [ac0|] eqn:Hc.
    - injection Ecache as <- <-. exact Hc.
    - apply bind_ok_inv in Ecache as (attribute & st3 & _ & Ecache).
      apply bind_ok_inv in Ecache as (u & st4 & Emod & Ecache).
      injection Ecache as <- <-. injection Emod as Emod. subst st4.
      cbn. apply lookup_insert_eq. }
  eapply create_attribute_values_loop_seeds in Eloop as (Hc & Hall & _);
    [|exact Hcache].
  split; [eauto | exact Hall].
Qed.

Lemma get_attribute_value_seeded a w st :
  seeded a (replace " " "-" w) st ->
  exists attr x,
    get_attribute_value a w st = (Ok (attr, x), st)
    /\ av_name x = replace " " "-" w.
Proof.
  intros (ac & v & Hc & Hin & Hname).
  destruct (find_by_name (replace " " "-" w) (iterator (ac_values ac) (db st)))
    as (x & Hfind & Hx); [eauto|].
  exists (ac_attribute ac), x. split; [|exact Hx].
  unfold get_attribute_value, bind, gets, or_raise, ret. cbn.
  rewrite Hc. cbn. rewrite Hfind. reflexivity.
Qed.

(** A string resolves to a value named as the string is with hyphens for
    its spaces, and to no other. *)
Lemma get_attribute_value_name a w st attr x st' :
  get_attribute_value a w st = (Ok (attr, x), st') ->
  av_name x = replace " " "-" w.
Proof.
  unfold get_attribute_value, bind, gets, or_raise, ret, raise. cbn.
  destruct (size_color_cache st !! a) as [ac|]; cbn; [|discriminate].
  destruct (List.find _ _) as [y|] eqn:Efind; cbn; [|discriminate].
  intros [= _ <- _]. apply find_some in Efind as [_ Hname].
  now apply String.eqb_eq in Hname.
Qed.

(** The lookup sees its argument through the replacement only. *)
Lemma get_attribute_value_replace a w v st :
  replace " " "-" w = replace " " "-" v ->
  get_attribute_value a w st = get_attribute_value a v st.
Proof. intros Hsame. unfold get_attribute_value. now rewrite Hsame. Qed.

(** C3. [create_attribute_values] and [get_attribute_value] both put a
    hyphen in the place of every space of a name, one for one, and change
    nothing else.  After [create_attribute_values] has run for a list of
    names, each of them resolves to a value that carries the name with
    hyphens, and a string resolves to that same value exactly when the two
    are the same once their spaces are hyphens. *)
Theorem seeded_name_resolves_with_hyphens_for_spaces
    a values st st' v :
  create_attribute_values a values st = (Ok tt, st') ->
  In v values ->
  exists attr x,
    get_attribute_value a v st' = (Ok (attr, x), st')
    /\ av_name x = replace " " "-" v
    /\ (forall i,
          String.get i (av_name x)
          = option_map (fun c => if Ascii.eqb c " " then "-"%char else c)
                       (String.get i v))
    /\ forall w,
         get_attribute_value a w st' = (Ok (attr, x), st')
         <-> replace " " "-" w = replace " " "-" v.
Proof.
  intros Hseed Hin.
  apply create_attribute_values_seeds in Hseed as [_ Hall].
  specialize (Hall v Hin).
  apply get_attribute_value_seeded in Hall as (attr & x & Hget & Hname).
  exists attr, x. split; [exact Hget|]. split; [exact Hname|].
  split; [rewrite Hname; intros i; apply replace_get|].
  intros w. split.
  - intros Hw. apply get_attribute_value_name in Hw. congruence.
  - intros Hsame.
    rewrite (get_attribute_value_replace a w v st' Hsame). exact Hget.
Qed.

End Seeding.

(** Two spaces give two hyphens: the value seeded for "Navy  Blue" is named
    "Navy--Blue", and the option string "Navy Blue" does not resolve to it. *)
Lemma two_spaces_are_two_hyphens :
  replace " " "-" "Navy  Blue" = "Navy--Blue"
  /\ replace " " "-" "Navy Blue" = "Navy-Blue"
  /\ let st := (create_attribute_values DEF_COLOR_ATTRIBUTE_ID
                  ["Navy  Blue"] shop).2 in
     List.map av_name (attribute_values (db st)) = ["Navy--Blue"]
     /\ (get_attribute_value DEF_COLOR_ATTRIBUTE_ID "Navy Blue" st).1
        = Raise StopIteration.
Proof. vm_compute. repeat split; reflexivity. Qed.

Lemma seeded_name_resolves_witness :
  let st' := (create_attribute_values DEF_COLOR_ATTRIBUTE_ID ["Navy Blue"]
                shop).2 in
  exists attr x,
    get_attribute_value DEF_COLOR_ATTRIBUTE_ID "Navy Blue" st'
    = (Ok (attr, x), st')
    /\ av_name x = replace " " "-" "Navy Blue"
    /\ (forall i,
          String.get i (av_name x)
          = option_map (fun c => if Ascii.eqb c " " then "-"%char else c)
                       (String.get i "Navy Blue"))
    /\ forall w,
         get_attribute_value DEF_COLOR_ATTRIBUTE_ID w st'
         = (Ok (attr, x), st')
         <-> replace " " "-" w = replace " " "-" "Navy Blue".
Proof.
  intros st'.
  apply (seeded_name_resolves_with_hyphens_for_spaces
           DEF_COLOR_ATTRIBUTE_ID ["Navy Blue"] shop st' "Navy Blue").
  - vm_compute. reflexivity.
  - left. reflexivity.
Defined.

(** ** Stocks of the imported variants *)

Section Stocks.

Context `{Externals}.

Lemma getattr_option_ok variant index st s st' :
  getattr_option variant index st = (Ok s, st') -> st' = st.
Proof.
  unfold getattr_option. destruct (index <=? 0); [discriminate|].
  intros E. now apply or_raise_ok_inv in E.
Qed.

Lemma get_attribute_value_ok a value st r st' :
  get_attribute_value a value st = (Ok r, st') -> st' = st.
Proof.
  unfold get_attribute_value, bind, gets, or_raise, ret, raise. cbn.
  destruct (size_color_cache st !! a) as [ac|]; cbn; [|discriminate].
  destruct (List.find _ _); cbn; intros E; inversion E; reflexivity.
Qed.

Lemma get_default_warehouse_ok st w st' :
  warehouse_ok st ->
  get_default_warehouse st = (Ok w, st') ->
  wh_pk w = DEF_WAREHOUSE_ID /\ warehouse_ok st' /\ db st' = db st.
Proof.
  intros Hok. unfold get_default_warehouse, Warehouse_get, bind, gets,
    or_raise, modify, ret, raise. cbn.
  destruct (def_warehouse_cache st) as [cached|] eqn:Hc; cbn.
  - intros [= <- <-]. auto.
  - destruct (List.find _ (warehouses (db st))) as [found|] eqn:Efind; cbn;
      [|discriminate].
    intros [= <- <-]. apply find_some in Efind as [_ Epk].
    apply String.eqb_eq in Epk. repeat split; [exact Epk|].
    intros w'. cbn. now intros [= <-].
Qed.

Lemma create_variants_body_stocks product si ci acc variant :
  respects (same_db stocks) (create_variants_body product si ci acc variant).
Proof. respects_with same_db_leaf. Qed.

Lemma create_variants_body_valid product si ci vs ss variant st acc' st' :
  has_sku_and_price variant = true ->
  warehouse_ok st ->
  create_variants_body product si ci (vs, ss) variant st = (Ok acc', st') ->
  exists nv,
    acc' = (vs ++ [nv],
            ss ++ [{| s_warehouse := DEF_WAREHOUSE_ID;
                      s_product_variant := pv_pk nv;
                      s_quantity := v_inventory_quantity variant |}])
    /\ pv_product nv = p_pk product
    /\ pv_sku nv = default "" (v_sku variant)
    /\ warehouse_ok st'.
Proof.
  intros Hvalid Hok. unfold create_variants_body.
  unfold has_sku_and_price in Hvalid. rewrite Hvalid. cbn [negb].
  intros E.
  apply bind_ok_inv in E as (price & s1 & E1 & E).
  apply or_raise_ok_inv in E1 as [_ ->].
  apply bind_ok_inv in E as (size_option & s2 & E2 & E).
  apply getattr_option_ok in E2 as ->.
  apply bind_ok_inv in E as (size & s3 & E3 & E).
  apply get_attribute_value_ok in E3 as ->.
  apply bind_ok_inv in E as (color_option & s4 & E4 & E).
  apply getattr_option_ok in E4 as ->.
  apply bind_ok_inv in E as (color & s5 & E5 & E).
  apply get_attribute_value_ok in E5 as ->.
  apply bind_ok_inv in E as (nv & s6 & E6 & E).
  injection E6 as <- <-.
  apply bind_ok_inv in E as (w & s7 & E7 & E).
  apply get_default_warehouse_ok in E7 as (Hw & Hok7 & _);
    [|unfold warehouse_ok; cbn; exact Hok].
  apply bind_ok_inv in E as (u1 & s8 & E8 & E). injection E8 as _ <-.
  apply bind_ok_inv in E as (u2 & s9 & E9 & E). injection E9 as _ <-.
  injection E as <- <-. rewrite Hw.
  eexists (Build_ProductVariant _ _ _ _ _). cbn. repeat split.
  unfold warehouse_ok. cbn. exact Hok7.
Qed.

Lemma create_variants_loop product si ci variants :
  forall vs ss st vs' ss' st',
    warehouse_ok st ->
    for_each (create_variants_body product si ci) (vs, ss) variants st
    = (Ok (vs', ss'), st') ->
    exists nv ns,
      vs' = vs ++ nv /\ ss' = ss ++ ns
      /\ List.map s_product_variant ns = List.map pv_pk nv
      /\ List.map s_quantity ns
         = List.map v_inventory_quantity
             (List.filter has_sku_and_price variants)
      /\ Forall (fun s => s_warehouse s = DEF_WAREHOUSE_ID) ns
      /\ warehouse_ok st'.
Proof.
  induction variants as [|variant variants IH];
    intros vs ss st vs' ss' st' Hok E.
  - injection E as <- <- <-. exists [], []. rewrite !app_nil_r.
    repeat split; [constructor | exact Hok].
  - rewrite for_each_cons in E. cbn [List.filter].
    destruct (has_sku_and_price variant) eqn:Hvalid.
    + apply bind_ok_inv in E as (acc & st1 & Ebody & E).
      eapply create_variants_body_valid in Ebody
        as (v & -> & _ & _ & Hok1); [|exact Hvalid|exact Hok].
      apply IH in E as (nv & ns & -> & -> & Hpk & Hq & Hw & Hok');
        [|exact Hok1].
      eexists (v :: nv), (_ :: ns). rewrite <- !app_assoc. cbn.
      repeat split; [now f_equal | now f_equal | | exact Hok'].
      constructor; [reflexivity | exact Hw].
    + erewrite bind_ok in E
        by (apply create_variants_body_skip; exact Hvalid).
      now apply IH in E.
Qed.

(** C8. When [create_variants] gets past its guard on the size and color
    slots and returns the variants it made, with the cached warehouse, if
    any, being the configured one: the Stock table has grown by one row for
    each remote variant with a [sku] and a [price], in their order; each row
    is in the configured warehouse, belongs to the variant made for it and
    has the [inventory_quantity] of the remote variant.  The loop over the
    variants writes no Stock row: its result is the list that
    [bulk_create] then appends in one go. *)
Theorem one_stock_row_per_variant_with_sku_and_price
    product spa st new_variants st' :
  warehouse_ok st ->
  create_variants product spa st = (Ok (Some new_variants), st') ->
  let valid := List.filter has_sku_and_price (sp_variants spa) in
  let '(size_attr_index, color_attr_index) := get_size_color_index spa in
  exists new_stocks,
    stocks (db st') = stocks (db st) ++ new_stocks
    /\ List.length new_stocks = List.length valid
    /\ List.length new_variants = List.length valid
    /\ Forall (fun s => s_warehouse s = DEF_WAREHOUSE_ID) new_stocks
    /\ List.map s_quantity new_stocks = List.map v_inventory_quantity valid
    /\ List.map s_product_variant new_stocks = List.map pv_pk new_variants
    /\ exists st1,
         for_each
           (create_variants_body product size_attr_index color_attr_index)
           ([], []) (sp_variants spa) st
         = (Ok (new_variants, new_stocks), st1)
         /\ stocks (db st1) = stocks (db st).
Proof.
  intros Hok E valid. unfold create_variants in E.
  destruct (get_size_color_index spa) as [si ci].
  destruct (negb _); [discriminate|].
  apply bind_ok_inv in E as ([vs ss] & st1 & Eloop & E).
  apply bind_ok_inv in E as (u & st2 & Ebulk & E).
  injection E as <- <-. injection Ebulk as _ <-. cbn [fst snd] in *.
  pose proof (respects_for_each (same_db stocks) _ (sp_variants spa)
                (create_variants_body_stocks product si ci) _ _ _ _ Eloop)
    as Hsame.
  unfold same_db in Hsame.
  pose proof Eloop as Eloop'.
  apply create_variants_loop in Eloop'
    as (nv & ns & Hvs & Hss & Hpk & Hq & Hw & _); [|exact Hok].
  cbn in Hvs, Hss. subst vs ss.
  exists ns. cbn. rewrite Hsame.
  assert (Hlen : List.length ns = List.length valid).
  { apply (f_equal (@List.length _)) in Hq.
    now rewrite !length_map in Hq. }
  repeat split; try assumption.
  - apply (f_equal (@List.length _)) in Hpk.
    rewrite !length_map in Hpk. congruence.
  - exists st1. split; [exact Eloop | exact Hsame].
Qed.

End Stocks.

(** [shirt_without_size] has three variants with a [sku] and a [price]; its
    import succeeds and writes no Stock row. *)
Lemma variants_without_size_slot_get_no_stock :
  let r := perform_mutation summer [shirt_without_size] shop in
  List.length (List.filter has_sku_and_price (sp_variants shirt_without_size))
  = 3%nat
  /\ List.map p_shopifyid (products (db r.2)) = [Some "1002"]
  /\ variants (db r.2) = []
  /\ stocks (db r.2) = [].
Proof. vm_compute. repeat split; reflexivity. Qed.

Lemma one_stock_row_per_variant_witness :
  let seeded_shop := (create_color_sizes [shirt] shop).2 in
  let r := create_variants shirt_row shirt seeded_shop in
  exists new_stocks,
    stocks (db r.2) = stocks (db seeded_shop) ++ new_stocks
    /\ List.length new_stocks = 3%nat
    /\ Forall (fun s => s_warehouse s = DEF_WAREHOUSE_ID) new_stocks
    /\ List.map s_quantity new_stocks = [5; 7; 9].
Proof.
  intros seeded_shop r.
  pose proof (one_stock_row_per_variant_with_sku_and_price
                shirt_row shirt seeded_shop shirt_variant_rows r.2) as Hthm.
  cbv zeta in Hthm.
  change (get_size_color_index shirt) with (1, 2) in Hthm.
  cbv beta iota in Hthm.
  destruct Hthm as (new_stocks & Hstocks & Hlen & _ & Hw & Hq & _).
  - intros w. vm_compute. discriminate.
  - vm_compute. reflexivity.
  - exists new_stocks. repeat split; assumption.
Defined.

(** ** Importing the same collection again *)

Section Idempotence.

Context `{Externals}.

Ltac cache_grows_leaf :=
  unfold cache_grows; cbn; intros ? ?;
  first [ assumption | apply lookup_insert_is_Some'; right; assumption ].

Lemma create_color_sizes_fixed sps :
  respects (same_db fixed_tables) (create_color_sizes sps).
Proof. respects_with same_db_leaf. Qed.

Lemma create_products_fixed sps :
  respects (same_db fixed_tables) (create_products sps).
Proof. respects_with same_db_leaf. Qed.

Lemma create_collection_fixed sc prods :
  respects (same_db fixed_tables) (create_collection sc prods).
Proof. respects_with same_db_leaf. Qed.

Lemma create_collection_products sc prods :
  respects (same_db products) (create_collection sc prods).
Proof. respects_with same_db_leaf. Qed.

Lemma create_product_images_db prods imgs :
  respects (same_db (fun d => d)) (create_product_images prods imgs).
Proof. respects_with same_db_leaf. Qed.

Lemma create_variants_products product spa :
  respects (same_db products) (create_variants product spa).
Proof. respects_with same_db_leaf. Qed.

Lemma create_products_cache sps :
  respects cache_grows (create_products sps).
Proof. respects_with cache_grows_leaf. Qed.

Lemma create_collection_cache sc prods :
  respects cache_grows (create_collection sc prods).
Proof. respects_with cache_grows_leaf. Qed.

Lemma create_product_images_cache prods imgs :
  respects cache_grows (create_product_images prods imgs).
Proof. respects_with cache_grows_leaf. Qed.

Lemma create_attribute_values_cache a values :
  respects cache_grows (create_attribute_values a values).
Proof. respects_with cache_grows_leaf. Qed.

Lemma contains_In x l : contains x l = true <-> In x l.
Proof.
  unfold contains. rewrite existsb_exists. split.
  - intros (y & Hin & Heq). apply String.eqb_eq in Heq. now subst.
  - intros Hin. exists x. split; [exact Hin | apply String.eqb_refl].
Qed.

Lemma shopifyid_loop l :
  forall acc st,
    Forall (fun p => is_Some (p_shopifyid p)) l ->
    for_each (fun acc p =>
                i <~ or_raise KeyError (p_shopifyid p) ;; ret (acc ++ [i]))
             acc l st
    = (Ok (acc ++ List.map (fun p => default "" (p_shopifyid p)) l), st).
Proof.
  induction l as [|p l IH]; intros acc st Hall.
  - cbn. now rewrite app_nil_r.
  - inversion Hall as [|? ? [i Hi] Hall']; subst.
    rewrite for_each_cons. unfold bind at 1. unfold bind at 1.
    rewrite Hi. cbn. rewrite IH by assumption.
    rewrite Hi. cbn. now rewrite <- app_assoc.
Qed.

Lemma already_imported_tagged sps st :
  Forall (fun p => is_Some (p_shopifyid p)) (already_imported sps st).
Proof.
  apply List.Forall_forall. intros p Hin.
  apply filter_In in Hin as [_ Hp].
  destruct (p_shopifyid p); [eauto | discriminate].
Qed.

(** [perform_mutation], with its filter worked out. *)
Lemma perform_mutation_stages sc sps st :
  perform_mutation sc sps st
  = (create_color_sizes (not_yet_imported sps st) ;;;
     created <~ create_products (not_yet_imported sps st) ;;
     create_collection sc (created.1 ++ already_imported sps st) ;;;
     create_product_images created.1 created.2 ;;;
     ret created.1) st.
Proof.
  unfold perform_mutation, get_product_by_shopify_id.
  unfold bind at 1. unfold bind at 1. unfold gets at 1. unfold ret at 1.
  cbv beta iota. fold (already_imported sps st).
  unfold bind at 1.
  rewrite shopifyid_loop by apply already_imported_tagged.
  reflexivity.
Qed.

Lemma create_products_loop pt cat sps :
  forall prods0 imgs0 st prods imgs st',
    for_each (create_products_body pt cat) (prods0, imgs0) sps st
    = (Ok (prods, imgs), st') ->
    exists new,
      prods = prods0 ++ new
      /\ products (db st') = products (db st) ++ new
      /\ List.map p_shopifyid new
         = List.map (fun sp => Some (str (sp_id sp))) sps.
Proof.
  induction sps as [|spa sps IH]; intros prods0 imgs0 st prods imgs st' E.
  - injection E as <- <- <-. exists []. now rewrite !app_nil_r.
  - rewrite for_each_cons in E.
    apply bind_ok_inv in E as ([prods1 imgs1] & st1 & Ebody & E).
    unfold create_products_body in Ebody.
    apply bind_ok_inv in Ebody as (p & s1 & Ecreate & Ebody).
    injection Ecreate as <- <-.
    apply bind_ok_inv in Ebody as (vs & s2 & Evars & Ebody).
    injection Ebody as <- <- <-.
    apply create_variants_products in Evars. unfold same_db in Evars.
    cbn in Evars.
    apply IH in E as (new & -> & Hprods & Hids).
    eexists (_ :: new). rewrite <- app_assoc. split; [reflexivity|].
    rewrite Hprods, Evars, <- app_assoc. split; [reflexivity|].
    cbn. now rewrite Hids.
Qed.

Lemma create_products_ok sps st prods imgs st' :
  create_products sps st = (Ok (prods, imgs), st') ->
  configured st
  /\ products (db st') = products (db st) ++ prods
  /\ List.map p_shopifyid prods
     = List.map (fun sp => Some (str (sp_id sp))) sps.
Proof.
  intros E. unfold create_products in E. apply atomic_ok_inv in E.
  apply bind_ok_inv in E as (pt & s1 & Ept & E).
  apply bind_ok_inv in Ept as (pts & s0 & Egets & Ept).
  injection Egets as <- <-. apply or_raise_ok_inv in Ept as [Hpt ->].
  apply bind_ok_inv in E as (cat & s2 & Ecat & E).
  apply bind_ok_inv in Ecat as (cats & s0 & Egets & Ecat).
  injection Egets as <- <-. apply or_raise_ok_inv in Ecat as [Hcat ->].
  apply create_products_loop in E as (new & -> & Hprods & Hids).
  split; [split; eauto|]. auto.
Qed.

Lemma imported_products_have_no_default_variant sps st prods imgs st' :
  create_products sps st = (Ok (prods, imgs), st') ->
  Forall (fun p => p_default_variant p = None) prods.
Proof.
  intros E. unfold create_products in E. apply atomic_ok_inv in E.
  apply bind_ok_inv in E as (pt & s1 & _ & E).
  apply bind_ok_inv in E as (cat & s2 & _ & E).
  assert (Hnil : Forall (fun p => p_default_variant p = None) []) by constructor.
  revert E Hnil. generalize (@nil Product) as prods0.
  generalize (∅ : gmap Z (list string)) as imgs0. revert s2.
  induction sps as [|spa sps IH]; intros s2 imgs0 prods0 E Hall.
  - now injection E as <- <- <-.
  - rewrite for_each_cons in E.
    apply bind_ok_inv in E as ([prods1 imgs1] & st1 & Ebody & E).
    unfold create_products_body in Ebody.
    apply bind_ok_inv in Ebody as (p & s3 & Ecreate & Ebody).
    injection Ecreate as <- <-.
    apply bind_ok_inv in Ebody as (vs & s4 & _ & Ebody).
    injection Ebody as <- <- <-.
    eapply IH; [exact E|].
    apply Forall_app. split; [exact Hall|]. now constructor.
Qed.

Lemma create_products_nil st :
  configured st -> create_products [] st = (Ok ([], ∅), st).
Proof.
  intros [[pt Hpt] [cat Hcat]].
  unfold create_products, atomic, ProductType_get, Category_get, bind, gets,
    or_raise, ret.
  cbn. rewrite Hpt, Hcat. reflexivity.
Qed.

Lemma create_color_sizes_nil st :
  is_Some (size_color_cache st !! DEF_SIZE_ATTRIBUTE_ID) ->
  is_Some (size_color_cache st !! DEF_COLOR_ATTRIBUTE_ID) ->
  create_color_sizes [] st = (Ok tt, st).
Proof.
  intros [s Hs] [c Hc].
  unfold create_color_sizes, create_attribute_values, bind, gets, ret.
  cbn. rewrite Hs. cbn. rewrite Hc. reflexivity.
Qed.

Lemma create_color_sizes_ok_cache sps st st' :
  create_color_sizes sps st = (Ok tt, st') ->
  is_Some (size_color_cache st' !! DEF_SIZE_ATTRIBUTE_ID)
  /\ is_Some (size_color_cache st' !! DEF_COLOR_ATTRIBUTE_ID).
Proof.
  unfold create_color_sizes. intros E.
  apply bind_ok_inv in E as (acc & s1 & _ & E).
  apply bind_ok_inv in E as ([] & s2 & Esize & Ecolor).
  pose proof (create_attribute_values_cache _ _ _ _ _ Ecolor) as Hgrow.
  apply create_attribute_values_seeds in Esize as [Hsize _].
  apply create_attribute_values_seeds in Ecolor as [Hcolor _].
  split; [apply Hgrow; exact Hsize | exact Hcolor].
Qed.

#[local] Arguments collection_name_loop : simpl never.

(** Whether [create_collection] succeeds is a matter of the "navbar" menu. *)
Lemma create_collection_ok_menu sc prods st st' :
  create_collection sc prods st = (Ok tt, st') ->
  exists m, List.filter (fun m => String.eqb (m_name m) "navbar")
                        (menus (db st)) = [m].
Proof.
  destruct (collection_name_loop_breaks (sc_title sc) (collections (db st)))
    as [name Hloop].
  unfold create_collection, atomic, bind, gets, or_raise, raise, ret. cbn.
  rewrite Hloop. cbn.
  unfold create_menu_item, Menu_get, MenuItem_create, modify_db, modify,
    bind, gets, raise, ret.
  cbn.
  destruct (List.filter _ (menus (db st))) as [|m [|m' l]];
    cbn; intros E; inversion E. eauto.
Qed.

Lemma create_collection_succeeds sc prods st m :
  List.filter (fun m => String.eqb (m_name m) "navbar") (menus (db st)) = [m] ->
  exists st', create_collection sc prods st = (Ok tt, st').
Proof.
  intros Hmenu.
  destruct (collection_name_loop_breaks (sc_title sc) (collections (db st)))
    as [name Hloop].
  unfold create_collection, atomic, bind, gets, or_raise, raise, ret. cbn.
  rewrite Hloop. cbn.
  unfold create_menu_item, Menu_get, MenuItem_create, modify_db, modify,
    bind, gets, raise, ret.
  cbn. rewrite Hmenu. cbn. eauto.
Qed.

Lemma create_color_sizes_collections sps :
  respects (same_db collections) (create_color_sizes sps).
Proof. respects_with same_db_leaf. Qed.

Lemma create_products_collections sps :
  respects (same_db collections) (create_products sps).
Proof. respects_with same_db_leaf. Qed.

Lemma filter_nil {A} (f : A -> bool) l :
  (forall x, In x l -> f x = false) -> List.filter f l = [].
Proof.
  induction l as [|x l IH]; intros Hf; [reflexivity|].
  cbn. rewrite Hf by now left. apply IH. intros y Hy. apply Hf. now right.
Qed.

Lemma already_imported_In sps st sp p :
  In sp sps -> In p (products (db st)) ->
  p_shopifyid p = Some (str (sp_id sp)) ->
  In p (already_imported sps st).
Proof.
  intros Hsp Hp Hid. apply filter_In. split; [exact Hp|].
  rewrite Hid. apply contains_In.
  apply (in_map (fun p => str (sp_id p))) in Hsp. exact Hsp.
Qed.

Lemma configured_fixed st st' :
  fixed_tables (db st') = fixed_tables (db st) -> configured st ->
  configured st'.
Proof.
  unfold fixed_tables, configured. intros [= -> -> _]. auto.
Qed.

(** C1. After a successful import: the Product table has grown by the
    products returned, and by nothing else; no product returned carries the
    id of a remote product that a local product carried before; each local
    product that carried the id of a remote product of the run is a member
    of the collection the run created; and the same import run again
    succeeds, returns no product and leaves the Product table as it is. *)
Theorem reimport_creates_no_product sc sps st created st1 :
  perform_mutation sc sps st = (Ok created, st1) ->
  products (db st1) = products (db st) ++ created
  /\ (forall sp p,
        In sp sps -> In p (products (db st)) ->
        p_shopifyid p = Some (str (sp_id sp)) ->
        forall p', In p' created ->
                   p_shopifyid p' <> Some (str (sp_id sp)))
  /\ (exists c,
        collections (db st1) = collections (db st) ++ [c]
        /\ forall sp p,
             In sp sps -> In p (products (db st)) ->
             p_shopifyid p = Some (str (sp_id sp)) ->
             In {| cp_collection := c_pk c; cp_product := p_pk p |}
                (collection_products (db st1)))
  /\ exists st2,
       perform_mutation sc sps st1 = (Ok [], st2)
       /\ products (db st2) = products (db st1).
Proof.
  intros E. rewrite perform_mutation_stages in E.
  apply bind_ok_inv in E as ([] & sa & Eseed & E).
  apply bind_ok_inv in E as ([prods imgs] & sb & Ecreate & E).
  apply bind_ok_inv in E as ([] & sd & Ecoll & E).
  apply bind_ok_inv in E as ([] & se & Eimg & E).
  injection E as <- ->. cbn [fst snd] in *.
  (* what each stage leaves alone *)
  pose proof (create_color_sizes_products _ _ _ _ Eseed) as Hp1.
  pose proof (create_color_sizes_collections _ _ _ _ Eseed) as Hc1.
  pose proof (create_products_collections _ _ _ _ Ecreate) as Hc2.
  pose proof (create_products_fixed _ _ _ _ Ecreate) as Hf2.
  pose proof (create_products_cache _ _ _ _ Ecreate) as Hg2.
  pose proof (create_collection_products _ _ _ _ _ Ecoll) as Hp3.
  pose proof (create_collection_fixed _ _ _ _ _ Ecoll) as Hf3.
  pose proof (create_collection_cache _ _ _ _ _ Ecoll) as Hg3.
  pose proof (create_product_images_db _ _ _ _ _ Eimg) as Hd4.
  pose proof (create_product_images_cache _ _ _ _ _ Eimg) as Hg4.
  unfold same_db in *. cbn beta in Hd4.
  (* what each stage does *)
  pose proof (create_color_sizes_ok_cache _ _ _ Eseed) as [Hsize Hcolor].
  pose proof (create_collection_ok_menu _ _ _ _ Ecoll) as [m Hmenu].
  apply create_products_ok in Ecreate as (Hconf & Hprods & Hids).
  apply create_collection_ok in Ecoll as (c & _ & Hcols & Hmembers).
  assert (Hall : products (db st1) = products (db st) ++ prods).
  { now rewrite Hd4, Hp3, Hprods, Hp1. }
  split; [exact Hall|]. split; [|split].
  - intros sp p Hsp Hp Hid p' Hp' Hid'.
    apply (in_map p_shopifyid) in Hp'. rewrite Hids, Hid' in Hp'.
    apply in_map_iff in Hp' as (sp' & Hsame & Hnew).
    injection Hsame as Hsame.
    apply filter_In in Hnew as [_ Hnew]. apply negb_true_iff in Hnew.
    rewrite Hsame in Hnew.
    assert (Hin : contains (str (sp_id sp))
                    (List.map (fun p => default "" (p_shopifyid p))
                              (already_imported sps st)) = true).
    { apply contains_In. apply in_map_iff. exists p.
      rewrite Hid. split; [reflexivity|].
      eapply already_imported_In; eassumption. }
    congruence.
  - exists c. split; [now rewrite Hd4, Hcols, Hc2, Hc1|].
    intros sp p Hsp Hp Hid. rewrite Hd4, Hmembers.
    apply in_app_iff. right.
    apply (in_map (fun p => {| cp_collection := c_pk c;
                               cp_product := p_pk p |})).
    apply in_app_iff. right. eapply already_imported_In; eassumption.
  - assert (Hnone : not_yet_imported sps st1 = []).
    { apply filter_nil. intros sp Hsp. apply negb_false_iff.
      apply contains_In.
      assert (Hp : exists p, In p (products (db st1))
                             /\ p_shopifyid p = Some (str (sp_id sp))).
      { destruct (contains (str (sp_id sp))
                    (List.map (fun p => default "" (p_shopifyid p))
                              (already_imported sps st))) eqn:Hold.
        - apply contains_In in Hold.
          apply in_map_iff in Hold as (p & Hid & Hp).
          pose proof (already_imported_tagged sps st) as Htag.
          rewrite List.Forall_forall in Htag.
          destruct (Htag p Hp) as [i Hi]. rewrite Hi in Hid. cbn in Hid.
          subst i. apply filter_In in Hp as [Hp _].
          exists p. split; [|exact Hi]. rewrite Hall.
          apply in_app_iff. now left.
        - assert (Hnew : In sp (not_yet_imported sps st)).
          { apply filter_In. split; [exact Hsp|]. now rewrite Hold. }
          apply (in_map (fun sp => Some (str (sp_id sp)))) in Hnew.
          rewrite <- Hids in Hnew.
          apply in_map_iff in Hnew as (p & Hid & Hp).
          exists p. split; [|exact Hid]. rewrite Hall.
          apply in_app_iff. now right. }
      destruct Hp as (p & Hp & Hid).
      apply in_map_iff. exists p. rewrite Hid. split; [reflexivity|].
      eapply already_imported_In; eassumption. }
    assert (Hconf1 : configured st1).
    { eapply configured_fixed; [|exact Hconf].
      rewrite Hd4. now rewrite Hf3, Hf2. }
    assert (Hmenu1 : List.filter (fun m => String.eqb (m_name m) "navbar")
                                 (menus (db st1)) = [m]).
    { rewrite Hd4.
      assert (Hm : menus (db sd) = menus (db sb)).
      { unfold fixed_tables in Hf3. now injection Hf3. }
      now rewrite Hm. }
    destruct (create_collection_succeeds sc
                ([] ++ already_imported sps st1) st1 m Hmenu1)
      as [st2 Ecoll2].
    exists st2. split.
    + rewrite perform_mutation_stages, Hnone.
      erewrite bind_ok
        by (apply create_color_sizes_nil; [apply Hg4, Hg3, Hg2, Hsize
                                          |apply Hg4, Hg3, Hg2, Hcolor]).
      erewrite bind_ok by (now apply create_products_nil).
      cbn [fst snd].
      erewrite bind_ok by exact Ecoll2.
      reflexivity.
    + exact (create_collection_products _ _ _ _ _ Ecoll2).
Qed.

End Idempotence.

Lemma reimport_creates_no_product_witness :
  let st1 := (perform_mutation summer [shirt; shirt_without_size] shop).2 in
  exists st2,
    perform_mutation summer [shirt; shirt_without_size] st1 = (Ok [], st2)
    /\ products (db st2) = products (db st1).
Proof.
  intros st1.
  destruct (reimport_creates_no_product summer [shirt; shirt_without_size]
              shop
              (products
                 (db (perform_mutation summer [shirt; shirt_without_size]
                        shop).2))
              st1) as (_ & _ & _ & Hagain).
  - vm_compute. reflexivity.
  - exact Hagain.
Defined.

(** * More properties *)

(** ** The size and color slots *)

Lemma index_fold_last options :
  forall acc,
    fold_left get_size_color_index_body options acc
    = (match last (List.filter (option_named "size") options) with
       | Some o => o_position o
       | None => acc.1
       end,
       match last (List.filter (option_named "color") options) with
       | Some o => o_position o
       | None => acc.2
       end).
Proof.
  induction options as [|o options IH]; intros [s c]; [reflexivity|].
  cbn [fold_left List.filter]. rewrite IH.
  unfold get_size_color_index_body, option_named.
  destruct (String.eqb_spec (lower (o_name o)) "color") as [Ec|Ec].
  - rewrite Ec. change (String.eqb "color" "size") with false. cbv iota.
    rewrite last_cons. cbn [fst snd].
    repeat (destruct (last (List.filter _ options))); reflexivity.
  - destruct (String.eqb (lower (o_name o)) "size"); [|reflexivity].
    rewrite last_cons. cbn [fst snd].
    repeat (destruct (last (List.filter _ options))); reflexivity.
Qed.

(** X1. [get_size_color_index] gives, for size and for color, the position
    of the last option of that name (in any mix of cases), and 0 when no
    option has it: a later option overrides an earlier one of the same
    name. *)
Theorem get_size_color_index_last_wins product :
  get_size_color_index product
  = (last_position "size" (sp_options product),
     last_position "color" (sp_options product)).
Proof. unfold get_size_color_index. now rewrite index_fold_last. Qed.

(** ** Seeding again, and what seeding is good for *)

Section MoreSeeding.

Context `{Externals}.

Lemma create_attribute_values_body_found a ac val st :
  size_color_cache st !! a = Some ac ->
  seeded a (replace " " "-" val) st ->
  create_attribute_values_body a ac val st = (Ok ac, st).
Proof.
  intros Hcache (ac0 & v & Hc & Hin & Hname).
  rewrite Hcache in Hc. injection Hc as <-.
  destruct (find_by_name (replace " " "-" val) (iterator (ac_values ac) (db st)))
    as (x & Hfind & _); [eauto|].
  unfold create_attribute_values_body, bind, gets. cbn.
  rewrite Hfind. reflexivity.
Qed.

Lemma create_attribute_values_loop_found a ac values st :
  size_color_cache st !! a = Some ac ->
  (forall v, In v values -> seeded a (replace " " "-" v) st) ->
  for_each (create_attribute_values_body a) ac values st = (Ok ac, st).
Proof.
  intros Hcache. induction values as [|val values IH]; intros Hall;
    [reflexivity|].
  rewrite for_each_cons.
  erewrite bind_ok
    by (apply create_attribute_values_body_found;
        [exact Hcache | apply Hall; now left]).
  apply IH. intros v Hv. apply Hall. now right.
Qed.

Lemma create_attribute_values_found a values st :
  is_Some (size_color_cache st !! a) ->
  (forall v, In v values -> seeded a (replace " " "-" v) st) ->
  create_attribute_values a values st = (Ok tt, st).
Proof.
  intros [ac Hcache] Hall. unfold create_attribute_values.
  unfold bind at 1. unfold gets at 1. cbv beta iota. rewrite Hcache.
  unfold bind at 1. unfold ret at 1. cbv beta iota.
  erewrite bind_ok by (now apply create_attribute_values_loop_found).
  reflexivity.
Qed.

(** X2. Seeding is idempotent: once [create_attribute_values] has run for a
    list of names, running it again for names that are, with hyphens for
    spaces, among those of the first run creates no value and changes
    nothing, cache included. *)
Theorem seeding_again_changes_nothing a values values' st st1 :
  create_attribute_values a values st = (Ok tt, st1) ->
  (forall v', In v' values' ->
     exists v, In v values /\ replace " " "-" v' = replace " " "-" v) ->
  create_attribute_values a values' st1 = (Ok tt, st1).
Proof.
  intros E Hsub. apply create_attribute_values_seeds in E as [Hcache Hall].
  apply create_attribute_values_found; [exact Hcache|].
  intros v' Hv'. destruct (Hsub v' Hv') as (v & Hv & ->). now apply Hall.
Qed.

End MoreSeeding.

Lemma seeding_again_changes_nothing_witness :
  let st1 := (create_attribute_values DEF_COLOR_ATTRIBUTE_ID
                ["Navy Blue"; "Red"] shop).2 in
  create_attribute_values DEF_COLOR_ATTRIBUTE_ID ["Red"; "Navy-Blue"] st1
  = (Ok tt, st1).
Proof.
  intros st1.
  apply (seeding_again_changes_nothing DEF_COLOR_ATTRIBUTE_ID
           ["Navy Blue"; "Red"] ["Red"; "Navy-Blue"] shop st1).
  - vm_compute. reflexivity.
  - intros v' [<- | [<- | []]].
    + exists "Red". split; [right; now left | reflexivity].
    + exists "Navy Blue". split; [now left | reflexivity].
Defined.

Section SeededBatch.

Context `{Externals}.

Lemma getattr_option_eq variant index st :
  getattr_option variant index st
  = (match option_at variant index with
     | Some s => Ok s
     | None => Raise AttributeError
     end, st).
Proof.
  unfold getattr_option, option_at.
  destruct (index <=? 0); [reflexivity|].
  destruct (nth_error _ _); reflexivity.
Qed.

Lemma contains_app_self x l :
  In x (if negb (contains x l) then l ++ [x] else l).
Proof.
  destruct (contains x l) eqn:E; cbn.
  - now apply contains_In.
  - apply in_app_iff. right. now left.
Qed.

Lemma incl_app_or (x : string) l :
  incl l (if negb (contains x l) then l ++ [x] else l).
Proof.
  destruct (negb _); [apply incl_appl|]; apply incl_refl.
Qed.

(** The inner loop of [create_color_sizes] collects the size and the color
    of every variant it goes through, and forgets none it had. *)
Lemma create_color_sizes_inner si ci variants :
  forall sizes0 colors0 st sizes colors st',
    for_each (create_color_sizes_body si ci) (sizes0, colors0) variants st
    = (Ok (sizes, colors), st') ->
    st' = st /\ incl sizes0 sizes /\ incl colors0 colors
    /\ forall v, In v variants ->
         exists s c, option_at v si = Some s /\ option_at v ci = Some c
                     /\ In s sizes /\ In c colors.
Proof.
  induction variants as [|v variants IH];
    intros sizes0 colors0 st sizes colors st' E.
  - injection E as <- <- <-.
    repeat split; try apply incl_refl. intros v [].
  - rewrite for_each_cons in E.
    apply bind_ok_inv in E as ([sizes1 colors1] & st1 & Ebody & E).
    unfold create_color_sizes_body in Ebody.
    unfold bind at 1 in Ebody. rewrite getattr_option_eq in Ebody.
    destruct (option_at v si) as [s|] eqn:Hs; [|discriminate].
    unfold bind at 1 in Ebody. rewrite getattr_option_eq in Ebody.
    destruct (option_at v ci) as [c|] eqn:Hc; [|discriminate].
    injection Ebody as <- <- <-.
    apply IH in E as (-> & Hsizes & Hcolors & Hall).
    split; [reflexivity|].
    split; [eapply incl_tran; [apply incl_app_or | exact Hsizes]|].
    split; [eapply incl_tran; [apply incl_app_or | exact Hcolors]|].
    intros v' [<- | Hv']; [|now apply Hall].
    exists s, c. repeat split; try assumption.
    + apply Hsizes, contains_app_self.
    + apply Hcolors, contains_app_self.
Qed.

Lemma create_color_sizes_outer sps :
  forall sizes0 colors0 st sizes colors st',
    for_each
      (fun acc spd =>
         let '(size_attr_index, color_attr_index) :=
           get_size_color_index spd in
         if negb ((0 <? size_attr_index) && (0 <? color_attr_index))
         then ret acc
         else for_each
                (create_color_sizes_body size_attr_index color_attr_index)
                acc (sp_variants spd))
      (sizes0, colors0) sps st
    = (Ok (sizes, colors), st') ->
    st' = st /\ incl sizes0 sizes /\ incl colors0 colors
    /\ forall spd, In spd sps ->
         (0 <? (get_size_color_index spd).1)
         && (0 <? (get_size_color_index spd).2) = true ->
         forall v, In v (sp_variants spd) ->
           exists s c,
             option_at v (get_size_color_index spd).1 = Some s
             /\ option_at v (get_size_color_index spd).2 = Some c
             /\ In s sizes /\ In c colors.
Proof.
  induction sps as [|spd sps IH];
    intros sizes0 colors0 st sizes colors st' E.
  - injection E as <- <- <-.
    repeat split; try apply incl_refl. intros spd [].
  - rewrite for_each_cons in E.
    apply bind_ok_inv in E as ([sizes1 colors1] & st1 & Ebody & E).
    apply IH in E as (-> & Hsizes & Hcolors & Hall).
    destruct (get_size_color_index spd) as [si ci] eqn:Hidx.
    destruct ((0 <? si) && (0 <? ci)) eqn:Hguard; cbn [negb] in Ebody.
    + apply create_color_sizes_inner in Ebody as (-> & Hs1 & Hc1 & Hin).
      split; [reflexivity|].
      split; [eapply incl_tran; eassumption|].
      split; [eapply incl_tran; eassumption|].
      intros spd' [<- | Hspd'] Hg v Hv; [|now apply Hall].
      rewrite Hidx. cbn [fst snd].
      destruct (Hin v Hv) as (s & c & Hs & Hc & Hins & Hinc).
      exists s, c. repeat split; auto.
    + injection Ebody as <- <- <-.
      split; [reflexivity|]. split; [exact Hsizes|]. split; [exact Hcolors|].
      intros spd' [<- | Hspd'] Hg v Hv; [|now apply Hall].
      rewrite Hidx in Hg. cbn [fst snd] in Hg. congruence.
Qed.

Lemma iterator_table_grows q row d v :
  In v (iterator q d) ->
  In v (iterator q (set_attribute_values (attribute_values d ++ [row]) d)).
Proof.
  unfold iterator. cbn. rewrite !filter_In, in_app_iff.
  intros [Hin Hm]. auto.
Qed.

(** A value that resolves still does after any step of seeding, for the same
    attribute or another. *)
Lemma create_attribute_values_body_keeps a name b ac val st ac' st' :
  size_color_cache st !! b = Some ac ->
  seeded a name st ->
  create_attribute_values_body b ac val st = (Ok ac', st') ->
  seeded a name st'.
Proof.
  intros Hcache Hseeded E.
  destruct (decide (a = b)) as [-> | Hne].
  - eapply create_attribute_values_body_seeds in E as (_ & _ & Hold);
      [|exact Hcache]. now apply Hold.
  - revert E. unfold create_attribute_values_body.
    unfold bind at 1. unfold gets at 1. cbv beta iota.
    destruct (List.find _ (iterator (ac_values ac) (db st))) as [v|].
    + cbn. now intros [= <- <-].
    + cbn. intros [= <- <-].
      destruct Hseeded as (ac0 & v & Hc & Hin & Hname).
      exists ac0, v. cbn. rewrite lookup_insert_ne by congruence.
      split; [exact Hc|]. split; [now apply iterator_table_grows|exact Hname].
Qed.

Lemma create_attribute_values_loop_keeps a name b values :
  forall ac st ac' st',
    size_color_cache st !! b = Some ac ->
    seeded a name st ->
    for_each (create_attribute_values_body b) ac values st = (Ok ac', st') ->
    seeded a name st'.
Proof.
  induction values as [|val values IH]; intros ac st ac' st' Hcache Hs E.
  - now injection E as <- <-.
  - rewrite for_each_cons in E.
    apply bind_ok_inv in E as (ac1 & st1 & Ebody & E).
    pose proof Ebody as Ebody'.
    eapply create_attribute_values_body_seeds in Ebody' as (Hc1 & _);
      [|exact Hcache].
    eapply IH; [exact Hc1| |exact E].
    exact (create_attribute_values_body_keeps a name b ac val st ac1 st1
             Hcache Hs Ebody).
Qed.

Lemma create_attribute_values_keeps a name b values st st' :
  seeded a name st ->
  create_attribute_values b values st = (Ok tt, st') ->
  seeded a name st'.
Proof.
  intros Hs E. unfold create_attribute_values in E.
  apply bind_ok_inv in E as (cache & st0 & Egets & E).
  injection Egets as <- <-.
  apply bind_ok_inv in E as (ac & st1 & Ecache & E).
  apply bind_ok_inv in E as (ac' & st2 & Eloop & E).
  injection E as <-.
  destruct (size_color_cache st !! b) as [ac0|] eqn:Hc.
  - injection Ecache as <- <-.
    eapply create_attribute_values_loop_keeps; eassumption.
  - apply bind_ok_inv in Ecache as (attribute & st3 & Eget & Ecache).
    apply bind_ok_inv in Ecache as (u & st4 & Emod & Ecache).
    injection Ecache as <- <-. injection Emod as Emod. subst st4.
    assert (st3 = st) as ->.
    { unfold Attribute_get, bind, gets, or_raise in Eget. cbn in Eget.
      destruct (List.find _ _); inversion Eget; reflexivity. }
    eapply create_attribute_values_loop_keeps; [| |exact Eloop].
    + cbn. apply lookup_insert_eq.
    + destruct Hs as (ac0 & v & Hc0 & Hin & Hname).
      exists ac0, v. cbn. split; [|auto].
      rewrite lookup_insert_ne; [exact Hc0|]. congruence.
Qed.

(** After [create_color_sizes], whatever [create_variants] will look up is
    there. *)
Lemma create_color_sizes_ready sps st st1 :
  create_color_sizes sps st = (Ok tt, st1) -> batch_ready sps st1.
Proof.
  unfold create_color_sizes. intros E.
  apply bind_ok_inv in E as ([sizes colors] & s0 & Eloop & E).
  apply create_color_sizes_outer in Eloop as (-> & _ & _ & Hall).
  apply bind_ok_inv in E as ([] & s1 & Esize & Ecolor). cbn [fst snd] in *.
  pose proof Esize as Esize'. pose proof Ecolor as Ecolor'.
  apply create_attribute_values_seeds in Esize' as [_ Hsizes].
  apply create_attribute_values_seeds in Ecolor' as [_ Hcolors].
  intros spd Hspd Hguard v Hv.
  destruct (Hall spd Hspd Hguard v Hv) as (s & c & Hs & Hc & Hins & Hinc).
  exists s, c. repeat split; try assumption.
  - eapply create_attribute_values_keeps; [|exact Ecolor]. now apply Hsizes.
  - now apply Hcolors.
Qed.

End SeededBatch.

(** ** The exceptions a method can end with *)

#[export] Instance same_seeds_stable : Stable same_seeds.
Proof.
  split; unfold same_seeds.
  - auto.
  - intros st1 st2 st3 [Hc12 Hv12] [Hc23 Hv23]. split; congruence.
  - intros st st' [Hc _]. cbn. auto.
Qed.

#[export] Instance same_delayed_stable : Stable same_delayed.
Proof.
  split; unfold same_delayed; intros; simpl; congruence.
Qed.

Section RaisesOnly.

Context (P : Exception -> Prop).

Lemma raises_only_ret {A} (a : A) : raises_only P (ret a).
Proof. intros st e st' E. discriminate. Qed.

Lemma raises_only_raise {A} e : P e -> raises_only P (@raise A e).
Proof. intros He st e' st' E. now injection E as <- _. Qed.

Lemma raises_only_gets {A} (f : State -> A) : raises_only P (gets f).
Proof. intros st e st' E. discriminate. Qed.

Lemma raises_only_modify f : raises_only P (modify f).
Proof. intros st e st' E. discriminate. Qed.

Lemma raises_only_or_raise {A} e (o : option A) :
  P e -> raises_only P (or_raise e o).
Proof.
  intros He. destruct o; [apply raises_only_ret | now apply raises_only_raise].
Qed.

Lemma raises_only_bind {A B} (m : M A) (k : A -> M B) :
  raises_only P m -> (forall a, raises_only P (k a)) ->
  raises_only P (bind m k).
Proof.
  intros Hm Hk st e st' E.
  apply bind_inv in E as [(a & st1 & E1 & E2)|(e' & E1 & [= ->])].
  - eapply Hk; eassumption.
  - eapply Hm; eassumption.
Qed.

Lemma raises_only_atomic {A} (m : M A) :
  raises_only P m -> raises_only P (atomic m).
Proof.
  intros Hm st e st' E. unfold atomic in E.
  destruct (m st) as [[a|e'] st1] eqn:Em; inversion E; subst.
  eapply Hm; eassumption.
Qed.

Lemma raises_only_for_each {A B} (body : B -> A -> M B) l :
  (forall acc x, raises_only P (body acc x)) ->
  forall acc, raises_only P (for_each body acc l).
Proof.
  intros Hb. induction l as [|x l IH]; intros acc; cbn [for_each].
  - apply raises_only_ret.
  - apply raises_only_bind; auto.
Qed.

End RaisesOnly.

(** Walk through a method; [leaf] shows that an exception raised is one of
    those allowed. *)
Ltac raises_with leaf :=
  repeat first
    [ progress cbv beta
    | apply raises_only_ret
    | apply raises_only_gets
    | apply raises_only_modify
    | apply raises_only_raise; leaf
    | apply raises_only_or_raise; leaf
    | apply raises_only_atomic
    | apply raises_only_bind; [|intros ?]
    | apply raises_only_for_each; intros ? ?
    | progress (cbv [truthy_instance]; cbn [negb])
    | match goal with
      | |- raises_only _ (match ?x with _ => _ end) => destruct x
      end
    | progress autounfold with methods ].

Ltac same_seeds_leaf := split; reflexivity.

Section BatchFailures.

Context `{Externals}.

Lemma seeded_same_seeds a name st st' :
  same_seeds st st' -> seeded a name st -> seeded a name st'.
Proof.
  intros [Hc Hv] (ac & v & Hcache & Hin & Hname).
  exists ac, v. rewrite Hc. split; [exact Hcache|]. split; [|exact Hname].
  unfold iterator in *. now rewrite Hv.
Qed.

Lemma variant_ready_same_seeds si ci st st' v :
  same_seeds st st' -> variant_ready si ci st v -> variant_ready si ci st' v.
Proof.
  intros Hsame (s & c & Hs & Hc & Hseed_s & Hseed_c).
  exists s, c. repeat split; try assumption;
    eapply seeded_same_seeds; eassumption.
Qed.

Lemma batch_ready_same_seeds sps st st' :
  same_seeds st st' -> batch_ready sps st -> batch_ready sps st'.
Proof.
  intros Hsame Hready spd Hspd Hguard v Hv.
  eapply variant_ready_same_seeds; [exact Hsame|]. now apply Hready.
Qed.

Lemma create_variants_body_seeds product si ci acc variant :
  respects same_seeds (create_variants_body product si ci acc variant).
Proof. respects_with same_seeds_leaf. Qed.

Lemma create_products_body_seeds pt cat acc spa :
  respects same_seeds (create_products_body pt cat acc spa).
Proof. respects_with same_seeds_leaf. Qed.

Lemma get_default_warehouse_raises :
  raises_only (fun e => e = DoesNotExist "Warehouse") get_default_warehouse.
Proof. raises_with ltac:(cbv beta; reflexivity). Qed.

Lemma or_raise_raise_inv {A} e (o : option A) st e' st' :
  or_raise e o st = (Raise e', st') -> e' = e.
Proof. destruct o; cbn; intros E; inversion E; reflexivity. Qed.

(** With its size and color seeded, a variant can fail on its price or on
    the warehouse only. *)
Lemma create_variants_body_ready product si ci acc variant st e st' :
  variant_ready si ci st variant ->
  create_variants_body product si ci acc variant st = (Raise e, st') ->
  e = InvalidOperation \/ e = DoesNotExist "Warehouse".
Proof.
  intros (s & c & Hs & Hc & Hseed_s & Hseed_c).
  apply get_attribute_value_seeded in Hseed_s as (sa & sx & Hget_s & _).
  apply get_attribute_value_seeded in Hseed_c as (ca & cx & Hget_c & _).
  destruct acc as [vs ss]. unfold create_variants_body.
  destruct (negb _); [discriminate|]. intros E.
  apply bind_inv in E as [(price & s1 & E1 & E)|(e' & E1 & [= ->])];
    [|left; eapply or_raise_raise_inv; exact E1].
  apply or_raise_ok_inv in E1 as [_ ->].
  unfold bind at 1 in E. rewrite getattr_option_eq, Hs in E.
  unfold bind at 1 in E. rewrite Hget_s in E.
  unfold bind at 1 in E. rewrite getattr_option_eq, Hc in E.
  unfold bind at 1 in E. rewrite Hget_c in E.
  apply bind_inv in E as [(nv & s6 & E6 & E)|(e' & E6 & _)];
    [|discriminate].
  apply bind_inv in E as [(w & s7 & E7 & E)|(e' & E7 & [= ->])];
    [|right; eapply get_default_warehouse_raises; exact E7].
  discriminate.
Qed.

Lemma create_variants_loop_ready product si ci variants :
  forall acc st e st',
    (forall v, In v variants -> variant_ready si ci st v) ->
    for_each (create_variants_body product si ci) acc variants st
    = (Raise e, st') ->
    e = InvalidOperation \/ e = DoesNotExist "Warehouse".
Proof.
  induction variants as [|v variants IH]; intros acc st e st' Hready E;
    [discriminate|].
  rewrite for_each_cons in E.
  apply bind_inv in E as [(acc1 & st1 & Ebody & E)|(e' & Ebody & [= ->])].
  - eapply IH; [|exact E]. intros v' Hv'.
    eapply variant_ready_same_seeds;
      [exact (create_variants_body_seeds _ _ _ _ _ _ _ _ Ebody)|].
    apply Hready. now right.
  - eapply create_variants_body_ready; [|exact Ebody].
    apply Hready. now left.
Qed.

Lemma create_variants_ready product spa st e st' :
  batch_ready [spa] st ->
  create_variants product spa st = (Raise e, st') ->
  e = InvalidOperation \/ e = DoesNotExist "Warehouse".
Proof.
  intros Hready. specialize (Hready spa ltac:(now left)).
  unfold create_variants.
  destruct (get_size_color_index spa) as [si ci]. cbn [fst snd] in Hready.
  destruct ((0 <? si) && (0 <? ci)); cbn [negb]; [|discriminate].
  specialize (Hready eq_refl). intros E.
  apply bind_inv in E as [(acc & st1 & Eloop & E)|(e' & Eloop & [= ->])].
  - discriminate.
  - eapply create_variants_loop_ready; eassumption.
Qed.

Lemma create_products_loop_ready pt cat sps :
  forall acc st e st',
    batch_ready sps st ->
    for_each (create_products_body pt cat) acc sps st = (Raise e, st') ->
    e = InvalidOperation \/ e = DoesNotExist "Warehouse".
Proof.
  induction sps as [|spa sps IH]; intros acc st e st' Hready E;
    [discriminate|].
  rewrite for_each_cons in E.
  apply bind_inv in E as [(acc1 & st1 & Ebody & E)|(e' & Ebody & [= ->])].
  - eapply IH; [|exact E].
    eapply batch_ready_same_seeds;
      [exact (create_products_body_seeds _ _ _ _ _ _ _ Ebody)|].
    intros spd Hspd. apply Hready. now right.
  - destruct acc as [prods imgs]. unfold create_products_body in Ebody.
    apply bind_inv in Ebody
      as [(p & s1 & Ecreate & Ebody)|(e2 & Ecreate & _)]; [|discriminate].
    injection Ecreate as <- <-.
    apply bind_inv in Ebody
      as [(vs & s2 & Evars & Ebody)|(e3 & Evars & [= ->])]; [discriminate|].
    eapply create_variants_ready; [|exact Evars].
    eapply batch_ready_same_seeds with (st := st); [split; reflexivity|].
    intros spd [<- | []]. apply Hready. now left.
Qed.

(** In this file a write is never refused, so a seeded batch that fails has
    failed on a price or on a missing product type, category or
    warehouse. *)
Lemma create_products_ready sps st e st' :
  batch_ready sps st ->
  create_products sps st = (Raise e, st') ->
  e = InvalidOperation
  \/ e = DoesNotExist "ProductType"
  \/ e = DoesNotExist "Category"
  \/ e = DoesNotExist "Warehouse".
Proof.
  intros Hseed E.
  unfold create_products, atomic in E.
  match type of E with
  | context [match ?m st with _ => _ end] =>
      destruct (m st) as [[a|e1] s1] eqn:Em
  end; [discriminate|].
  injection E as <- _.
  apply bind_inv in Em as [(pt & s2 & Ept & Em)|(e' & Ept & [= ->])].
  - assert (s2 = st) as ->.
    { unfold ProductType_get, bind, gets in Ept. cbn in Ept.
      now apply or_raise_ok_inv in Ept. }
    apply bind_inv in Em as [(cat & s3 & Ecat & Em)|(e' & Ecat & [= ->])].
    + assert (s3 = st) as ->.
      { unfold Category_get, bind, gets in Ecat. cbn in Ecat.
        now apply or_raise_ok_inv in Ecat. }
      eapply create_products_loop_ready in Em; [|exact Hseed]. tauto.
    + right. right. left.
      unfold Category_get, bind, gets in Ecat. cbn in Ecat.
      eapply or_raise_raise_inv. exact Ecat.
  - right. left.
    unfold ProductType_get, bind, gets in Ept. cbn in Ept.
    eapply or_raise_raise_inv. exact Ept.
Qed.

(** X3. Once [create_color_sizes] has run for a batch, the lookups of
    [create_products] on that batch find what they look for: it does not
    end with the [StopIteration] of [get_attribute_value], nor with the
    [KeyError] of a missing cache entry. *)
Theorem seeded_batch_does_not_fail_on_a_lookup sps st st1 e st2 :
  create_color_sizes sps st = (Ok tt, st1) ->
  create_products sps st1 = (Raise e, st2) ->
  e <> StopIteration /\ e <> KeyError.
Proof.
  intros Hseed E. apply create_color_sizes_ready in Hseed.
  destruct (create_products_ready _ _ _ _ Hseed E) as [->|[->|[->| ->]]];
    split; discriminate.
Qed.

End BatchFailures.

Lemma seeded_batch_does_not_fail_on_a_lookup_witness :
  let st1 := (create_color_sizes [shirt] shop_without_warehouse).2 in
  let e := DoesNotExist "Warehouse" in
  (create_products [shirt] st1).1 = Raise e
  /\ e <> StopIteration /\ e <> KeyError.
Proof.
  intros st1 e. split; [vm_compute; reflexivity|].
  apply (seeded_batch_does_not_fail_on_a_lookup
           [shirt] shop_without_warehouse st1 e (create_products [shirt] st1).2).
  - vm_compute. reflexivity.
  - vm_compute. reflexivity.
Defined.

(** ** Image tasks *)

Section ImageTasks.

Context `{Externals}.

Lemma fresh_pk_gt l x : In x l -> x < fresh_pk l.
Proof.
  unfold fresh_pk. induction l as [|y l IH]; intros []; cbn.
  - subst. lia.
  - specialize (IH H0). lia.
Qed.

Lemma create_products_loop_images pt cat sps :
  forall prods0 imgs0 st prods imgs st',
    (forall p, In p prods0 -> In p (products (db st))) ->
    for_each (create_products_body pt cat) (prods0, imgs0) sps st
    = (Ok (prods, imgs), st') ->
    exists new,
      prods = prods0 ++ new
      /\ Forall2 (fun sp p => imgs !! p_pk p
                              = Some (List.map i_src (sp_images sp)))
                 sps new
      /\ forall p, In p prods0 -> imgs !! p_pk p = imgs0 !! p_pk p.
Proof.
  induction sps as [|spa sps IH];
    intros prods0 imgs0 st prods imgs st' Hin E.
  - injection E as <- <- <-. exists []. rewrite app_nil_r.
    split; [reflexivity|]. split; [constructor|auto].
  - rewrite for_each_cons in E.
    apply bind_ok_inv in E as ([prods1 imgs1] & st1 & Ebody & E).
    unfold create_products_body in Ebody.
    apply bind_ok_inv in Ebody as (p & s1 & Ecreate & Ebody).
    injection Ecreate as <- <-.
    apply bind_ok_inv in Ebody as (vs & s2 & Evars & Ebody).
    injection Ebody as <- <- <-.
    apply create_variants_products in Evars. unfold same_db in Evars.
    cbn in Evars.
    apply IH in E as (new & -> & Hnew & Hold).
    + eexists (_ :: new). rewrite <- app_assoc. split; [reflexivity|].
      split.
      * constructor; [|exact Hnew].
        rewrite Hold by (apply in_app_iff; right; now left).
        cbn. apply lookup_insert_eq.
      * intros q Hq. rewrite Hold by (apply in_app_iff; now left).
        cbn. apply lookup_insert_ne.
        apply (in_map p_pk) in Hq as Hpk.
        assert (Hlt : p_pk q < fresh_pk (List.map p_pk (products (db st)))).
        { apply fresh_pk_gt. apply in_map. now apply Hin. }
        lia.
    + intros q Hq. rewrite Evars. apply in_app_iff.
      apply in_app_iff in Hq as [Hq | [<- | []]]; [left; now apply Hin|].
      right. now left.
Qed.

Lemma with_delayed_twice q q' st :
  with_delayed q (with_delayed q' st) = with_delayed q st.
Proof. reflexivity. Qed.

Lemma create_product_images_runs imgs prods :
  forall st,
    (forall p, In p prods -> is_Some (imgs !! p_pk p)) ->
    create_product_images prods imgs st
    = (Ok tt,
       with_delayed
         (delayed st
          ++ List.map (fun p => CreateProductImagesFromUrl (p_pk p)
                                  (default [] (imgs !! p_pk p))) prods)
         st).
Proof.
  unfold create_product_images.
  induction prods as [|p prods IH]; intros st Hall.
  - cbn. rewrite app_nil_r. now destruct st.
  - rewrite for_each_cons.
    destruct (Hall p ltac:(now left)) as [urls Hurls].
    unfold bind at 1. unfold bind at 1. rewrite Hurls. cbn [or_raise ret].
    cbv beta iota. unfold modify at 1. cbv beta iota.
    rewrite IH by (intros q Hq; apply Hall; now right).
    cbn. rewrite Hurls. cbn. now rewrite <- app_assoc.
Qed.

Lemma create_products_image_tasks sps st prods imgs st1 st2 :
  create_products sps st = (Ok (prods, imgs), st1) ->
  List.length prods = List.length sps
  /\ create_product_images prods imgs st2
     = (Ok tt,
        with_delayed
          (delayed st2 ++ List.map image_task (combine sps prods)) st2).
Proof.
  intros E. unfold create_products in E. apply atomic_ok_inv in E.
  apply bind_ok_inv in E as (pt & s1 & _ & E).
  apply bind_ok_inv in E as (cat & s2 & _ & E).
  apply create_products_loop_images in E as (new & -> & Hnew & _);
    [|intros p []].
  cbn [app] in *. split; [symmetry; eapply Forall2_length; exact Hnew|].
  rewrite create_product_images_runs.
  - do 3 f_equal. clear -Hnew.
    induction Hnew as [|sp p sps new Hp Hrest IH]; [reflexivity|].
    cbn. rewrite Hp, IH. reflexivity.
  - intros p Hp. clear -Hnew Hp.
    induction Hnew as [|sp q sps new Hq Hrest IH]; [destruct Hp|].
    destruct Hp as [<- | Hp]; eauto.
Qed.

(** X5. After [create_products], [create_product_images] cannot miss a key:
    in any state it queues one task per product created, in the order of
    the remote products, each with the primary key of the product and the
    [src] of the images of the remote product it was made from. *)
Theorem one_image_task_per_created_product sps st prods imgs st1 st2 :
  create_products sps st = (Ok (prods, imgs), st1) ->
  List.length prods = List.length sps
  /\ create_product_images prods imgs st2
     = (Ok tt,
        with_delayed
          (delayed st2 ++ List.map image_task (combine sps prods)) st2).
Proof. exact (create_products_image_tasks sps st prods imgs st1 st2). Qed.

End ImageTasks.

Lemma one_image_task_per_created_product_witness :
  let seeded_shop := (create_color_sizes [shirt] shop).2 in
  let r := create_products [shirt] seeded_shop in
  exists prods imgs,
    r.1 = Ok (prods, imgs)
    /\ List.length prods = 1%nat
    /\ create_product_images prods imgs shop
       = (Ok tt,
          with_delayed
            (delayed shop ++ List.map image_task (combine [shirt] prods)) shop).
Proof.
  intros seeded_shop r.
  exists [shirt_row], {[ 1 := ["https://cdn.example/shirt.jpg"] ]}.
  split; [vm_compute; reflexivity|].
  apply (one_image_task_per_created_product [shirt] seeded_shop [shirt_row]
           {[ 1 := ["https://cdn.example/shirt.jpg"] ]} r.2 shop).
  vm_compute. reflexivity.
Defined.

(** ** How an import can fail, and what it leaves when it does *)

Section ImportFailures.

Context `{Externals}.

#[local] Arguments collection_name_loop : simpl never.

Lemma atomic_raise_db {A} (m : M A) st e st' :
  atomic m st = (Raise e, st') -> db st' = db st.
Proof.
  unfold atomic. destruct (m st) as [[a|e1] st1]; intros E; inversion E.
  reflexivity.
Qed.

Lemma create_collection_raises sc prods st e st' :
  create_collection sc prods st = (Raise e, st') ->
  e = DoesNotExist "Menu" \/ e = MultipleObjectsReturned "Menu".
Proof.
  destruct (collection_name_loop_breaks (sc_title sc) (collections (db st)))
    as [name Hloop].
  unfold create_collection, atomic, bind, gets, or_raise, raise, ret. cbn.
  rewrite Hloop. cbn.
  unfold create_menu_item, Menu_get, MenuItem_create, modify_db, modify,
    bind, gets, raise, ret.
  cbn.
  destruct (List.filter _ (menus (db st))) as [|m [|m' l]];
    cbn; intros E; inversion E; auto.
Qed.

Lemma create_color_sizes_raises sps :
  raises_only
    (fun e => e = AttributeError \/ e = DoesNotExist "Attribute")
    (create_color_sizes sps).
Proof.
  raises_with ltac:(cbv beta; first [left; reflexivity | right; reflexivity]).
Qed.

Lemma create_color_sizes_collection_tables sps :
  respects (same_db collection_tables) (create_color_sizes sps).
Proof. respects_with same_db_leaf. Qed.

Lemma create_products_collection_tables sps :
  respects (same_db collection_tables) (create_products sps).
Proof. respects_with same_db_leaf. Qed.

Lemma create_color_sizes_delayed sps :
  respects same_delayed (create_color_sizes sps).
Proof. respects_with ltac:(reflexivity). Qed.

Lemma create_products_delayed sps :
  respects same_delayed (create_products sps).
Proof. respects_with ltac:(reflexivity). Qed.

Lemma create_collection_delayed sc prods :
  respects same_delayed (create_collection sc prods).
Proof. respects_with ltac:(reflexivity). Qed.

(** X6. Given the remote collection and products, [perform_mutation]
    does not fail on a lookup of its own, whatever the tables hold: it
    does not end with the [StopIteration] of [get_attribute_value], nor
    with a [KeyError] from the cache of attributes, from
    [metadata["shopifyid"]] or from [product_images]. *)
Theorem import_does_not_fail_on_a_lookup sc sps st e st' :
  perform_mutation sc sps st = (Raise e, st') ->
  e <> StopIteration /\ e <> KeyError.
Proof.
  rewrite perform_mutation_stages. intros E.
  apply bind_inv in E as [([] & sa & Eseed & E)|(e1 & Eseed & [= ->])];
    [|apply create_color_sizes_raises in Eseed as [-> | ->];
      split; discriminate].
  apply bind_inv in E
    as [([prods imgs] & sb & Ecreate & E)|(e1 & Ecreate & [= ->])].
  - apply bind_inv in E as [([] & sd & Ecoll & E)|(e1 & Ecoll & [= ->])];
      [|apply create_collection_raises in Ecoll as [-> | ->];
        split; discriminate].
    cbn [fst snd] in E.
    destruct (create_products_image_tasks _ _ _ _ _ sd Ecreate)
      as [_ Eimg].
    unfold bind in E. rewrite Eimg in E. discriminate.
  - apply create_color_sizes_ready in Eseed.
    destruct (create_products_ready _ _ _ _ Eseed Ecreate)
      as [->|[->|[->| ->]]]; split; discriminate.
Qed.

(** X7. The import is not one transaction.  When it ends with an exception
    about the "navbar" menu, raised by [create_collection], the products of
    the batch are there, one for each remote product not yet imported,
    while no collection, membership, menu item or image task is. *)
Theorem import_without_menu_keeps_products sc sps st e st' :
  perform_mutation sc sps st = (Raise e, st') ->
  e = DoesNotExist "Menu" \/ e = MultipleObjectsReturned "Menu" ->
  (exists created,
     products (db st') = products (db st) ++ created
     /\ List.map p_shopifyid created
        = List.map (fun sp => Some (str (sp_id sp)))
                   (not_yet_imported sps st))
  /\ collection_tables (db st') = collection_tables (db st)
  /\ delayed st' = delayed st.
Proof.
  rewrite perform_mutation_stages. intros E Hmenu.
  apply bind_inv in E as [([] & sa & Eseed & E)|(e1 & Eseed & [= ->])];
    [|apply create_color_sizes_raises in Eseed;
      destruct Hmenu as [-> | ->], Eseed; discriminate].
  apply bind_inv in E
    as [([prods imgs] & sb & Ecreate & E)|(e1 & Ecreate & [= ->])];
    [|apply create_color_sizes_ready in Eseed;
      eapply create_products_ready in Ecreate; [|exact Eseed];
      destruct Hmenu as [-> | ->], Ecreate as [?|[?|[?|?]]]; discriminate].
  cbn [fst snd] in E.
  apply bind_inv in E as [([] & sd & Ecoll & E)|(e1 & Ecoll & [= ->])].
  { destruct (create_products_image_tasks _ _ _ _ _ sd Ecreate)
      as [_ Eimg].
    unfold bind in E. rewrite Eimg in E. discriminate. }
  pose proof (create_color_sizes_products _ _ _ _ Eseed) as Hp1.
  pose proof (create_color_sizes_collection_tables _ _ _ _ Eseed) as Hc1.
  pose proof (create_color_sizes_delayed _ _ _ _ Eseed) as Hd1.
  pose proof (create_products_collection_tables _ _ _ _ Ecreate) as Hc2.
  pose proof (create_products_delayed _ _ _ _ Ecreate) as Hd2.
  pose proof (create_collection_delayed _ _ _ _ _ Ecoll) as Hd3.
  unfold same_db, same_delayed in *.
  apply create_products_ok in Ecreate as (_ & Hprods & Hids).
  unfold create_collection in Ecoll. apply atomic_raise_db in Ecoll.
  rewrite Ecoll. split; [|split].
  - exists prods. split; [now rewrite Hprods, Hp1 | exact Hids].
  - now rewrite Hc2, Hc1.
  - now rewrite Hd3, Hd2, Hd1.
Qed.

(** X8. [create_collection] keeps the names of the collections different
    from one another, letter case apart: whether it succeeds or raises, if
    no two collections shared a name before, none do after. *)
Theorem create_collection_keeps_names_distinct sc prods st r st' :
  distinct_names (db st) ->
  create_collection sc prods st = (r, st') ->
  distinct_names (db st').
Proof.
  intros Hdistinct E. destruct r as [[]|e].
  - pose proof E as E'.
    apply create_collection_ok in E' as (c & Hname & Hcols & _).
    apply collection_name_loop_first_free in Hname as [Hfree _].
    unfold distinct_names. rewrite Hcols, map_app. cbn [List.map].
    apply List.NoDup_app; [exact Hdistinct| |].
    + repeat constructor. intros [].
    + intros x Hx [<- | []]. apply Hfree.
      apply in_map_iff in Hx as (c' & Heq & Hc'). exists c'. auto.
  - unfold create_collection in E. apply atomic_raise_db in E.
    unfold distinct_names. now rewrite E.
Qed.

End ImportFailures.

Lemma import_does_not_fail_on_a_lookup_witness :
  let e := DoesNotExist "Warehouse" in
  (perform_mutation summer [shirt] shop_without_warehouse).1 = Raise e
  /\ e <> StopIteration /\ e <> KeyError.
Proof.
  intros e. split; [vm_compute; reflexivity|].
  apply (import_does_not_fail_on_a_lookup summer [shirt]
           shop_without_warehouse e
           (perform_mutation summer [shirt] shop_without_warehouse).2).
  vm_compute. reflexivity.
Defined.

Lemma import_without_menu_keeps_products_witness :
  let st' := (perform_mutation summer [shirt] shop_without_menu).2 in
  (exists created,
     products (db st') = products (db shop_without_menu) ++ created
     /\ List.map p_shopifyid created
        = List.map (fun sp => Some (str (sp_id sp)))
                   (not_yet_imported [shirt] shop_without_menu))
  /\ collection_tables (db st') = collection_tables (db shop_without_menu)
  /\ delayed st' = delayed shop_without_menu.
Proof.
  intros st'.
  apply (import_without_menu_keeps_products summer [shirt] shop_without_menu
           (DoesNotExist "Menu") st').
  - vm_compute. reflexivity.
  - left. reflexivity.
Defined.

Lemma create_collection_keeps_names_distinct_witness :
  distinct_names (db (create_collection summer [] shop_with_summers).2).
Proof.
  apply (create_collection_keeps_names_distinct summer [] shop_with_summers
           (Ok tt) (create_collection summer [] shop_with_summers).2).
  - unfold distinct_names. vm_compute.
    repeat constructor; cbn; intuition discriminate.
  - vm_compute. reflexivity.
Defined.

(** ** The variants of an imported product *)

Section VariantRows.

Context `{Externals}.

Lemma get_default_warehouse_db :
  respects (same_db (fun d => d)) get_default_warehouse.
Proof. respects_with same_db_leaf. Qed.

Lemma create_variants_body_rows product si ci vs ss variant st acc' st' :
  has_sku_and_price variant = true ->
  create_variants_body product si ci (vs, ss) variant st = (Ok acc', st') ->
  exists nv added,
    fst acc' = vs ++ [nv]
    /\ variant_of product variant nv
    /\ variants (db st') = variants (db st) ++ [nv]
    /\ assigned (db st') = assigned (db st) ++ added
    /\ List.map ava_variant added = [pv_pk nv; pv_pk nv].
Proof.
  intros Hvalid. unfold create_variants_body.
  unfold has_sku_and_price in Hvalid. rewrite Hvalid. cbn [negb].
  intros E.
  apply bind_ok_inv in E as (price & s1 & E1 & E).
  apply or_raise_ok_inv in E1 as [Hprice ->].
  apply bind_ok_inv in E as (size_option & s2 & E2 & E).
  apply getattr_option_ok in E2 as ->.
  apply bind_ok_inv in E as (size & s3 & E3 & E).
  apply get_attribute_value_ok in E3 as ->.
  apply bind_ok_inv in E as (color_option & s4 & E4 & E).
  apply getattr_option_ok in E4 as ->.
  apply bind_ok_inv in E as (color & s5 & E5 & E).
  apply get_attribute_value_ok in E5 as ->.
  apply bind_ok_inv in E as (nv & s6 & E6 & E).
  injection E6 as <- <-.
  apply bind_ok_inv in E as (w & s7 & E7 & E).
  apply get_default_warehouse_db in E7. unfold same_db in E7. cbn in E7.
  apply bind_ok_inv in E as (u1 & s8 & E8 & E). injection E8 as _ <-.
  apply bind_ok_inv in E as (u2 & s9 & E9 & E). injection E9 as _ <-.
  injection E as <- <-. cbn. rewrite E7. cbn.
  eexists (Build_ProductVariant _ _ _ _ _), [_; _]. cbn.
  split; [reflexivity|]. split; [repeat split; exact Hprice|].
  split; [reflexivity|]. split; [now rewrite <- app_assoc | reflexivity].
Qed.

Lemma create_variants_loop_rows product si ci remote :
  forall vs ss st vs' ss' st',
    for_each (create_variants_body product si ci) (vs, ss) remote st
    = (Ok (vs', ss'), st') ->
    exists nv added,
      vs' = vs ++ nv
      /\ Forall2 (variant_of product)
                 (List.filter has_sku_and_price remote) nv
      /\ variants (db st') = variants (db st) ++ nv
      /\ assigned (db st') = assigned (db st) ++ added
      /\ List.map ava_variant added
         = flat_map (fun v => [pv_pk v; pv_pk v]) nv.
Proof.
  induction remote as [|variant remote IH];
    intros vs ss st vs' ss' st' E.
  - injection E as <- <- <-. exists [], []. rewrite !app_nil_r.
    split; [reflexivity|]. split; [constructor|]. auto.
  - rewrite for_each_cons in E. cbn [List.filter].
    destruct (has_sku_and_price variant) eqn:Hvalid.
    + apply bind_ok_inv in E as ([vs1 ss1] & st1 & Ebody & E).
      eapply create_variants_body_rows in Ebody
        as (v & added1 & Hvs1 & Hv & Hvars1 & Hass1 & Hmap1);
        [|exact Hvalid].
      cbn [fst] in Hvs1. subst vs1.
      apply IH in E as (nv & added & -> & Hall & Hvars & Hass & Hmap).
      exists (v :: nv), (added1 ++ added). rewrite <- !app_assoc.
      split; [reflexivity|]. split; [now constructor|].
      split; [now rewrite Hvars, Hvars1, <- app_assoc|].
      split; [now rewrite Hass, Hass1, <- app_assoc|].
      rewrite map_app, Hmap1, Hmap. reflexivity.
    + erewrite bind_ok in E
        by (apply create_variants_body_skip; exact Hvalid).
      now apply IH in E.
Qed.

(** X4. When [create_variants] returns the variants it made: the variant
    table has grown by exactly these rows, one for each remote variant with
    a [sku] and a [price], in their order; each belongs to the product and
    has the [sku] of its remote variant and its price as [Decimal] reads
    it; and each has got two attribute assignments. *)
Theorem one_variant_row_per_variant_with_sku_and_price
    product spa st new_variants st' :
  create_variants product spa st = (Ok (Some new_variants), st') ->
  variants (db st') = variants (db st) ++ new_variants
  /\ Forall2 (variant_of product)
             (List.filter has_sku_and_price (sp_variants spa)) new_variants
  /\ exists added,
       assigned (db st') = assigned (db st) ++ added
       /\ List.map ava_variant added
          = flat_map (fun v => [pv_pk v; pv_pk v]) new_variants.
Proof.
  unfold create_variants.
  destruct (get_size_color_index spa) as [si ci].
  destruct (negb _); [discriminate|]. intros E.
  apply bind_ok_inv in E as ([vs ss] & st1 & Eloop & E).
  apply bind_ok_inv in E as (u & st2 & Ebulk & E).
  injection E as <- <-. injection Ebulk as _ <-. cbn [fst snd].
  apply create_variants_loop_rows in Eloop
    as (nv & added & -> & Hall & Hvars & Hass & Hmap).
  cbn. split; [exact Hvars|]. split; [exact Hall|]. eauto.
Qed.

End VariantRows.

Lemma one_variant_row_witness :
  let seeded_shop := (create_color_sizes [shirt] shop).2 in
  let st' := (create_variants shirt_row shirt seeded_shop).2 in
  variants (db st') = variants (db seeded_shop) ++ shirt_variant_rows
  /\ Forall2 (variant_of shirt_row)
             (List.filter has_sku_and_price (sp_variants shirt))
             shirt_variant_rows
  /\ exists added,
       assigned (db st') = assigned (db seeded_shop) ++ added
       /\ List.map ava_variant added
          = flat_map (fun v => [pv_pk v; pv_pk v]) shirt_variant_rows.
Proof.
  intros seeded_shop st'.
  apply (one_variant_row_per_variant_with_sku_and_price
           shirt_row shirt seeded_shop shirt_variant_rows st').
  vm_compute. reflexivity.
Defined.

(** ** Duplicated warehouse ids *)

Section Duplicates.

Import ProductVariantBulkCreate ProductVariantStocksCreate.

Lemma combine_seq_shift (P : nat * string -> bool) l :
  (forall i y, P (S i, y) = P (i, y)) ->
  forall k n,
    List.map fst (List.filter P (combine (seq (S k) n) l))
    = List.map S (List.map fst (List.filter P (combine (seq k n) l))).
Proof.
  intros HP. induction l as [|y l IH]; intros k [|n]; try reflexivity.
  cbn [seq combine List.filter]. rewrite HP.
  destruct (P (k, y)); cbn [List.map fst]; now rewrite IH.
Qed.

Lemma indexes_of_cons x y l :
  indexes_of x (y :: l)
  = (if String.eqb y x then [0%nat] else []) ++ List.map S (indexes_of x l).
Proof.
  unfold indexes_of, enumerate.
  cbn [List.length seq combine List.filter snd].
  destruct (String.eqb y x); cbn [List.map fst app];
    now rewrite combine_seq_shift.
Qed.

Lemma indexes_of_In x l i : In i (indexes_of x l) <-> nth_error l i = Some x.
Proof.
  revert i. induction l as [|y l IH]; intros i.
  - cbn. destruct i; split; [intros []|discriminate|intros []|discriminate].
  - rewrite indexes_of_cons, in_app_iff, in_map_iff. split.
    + intros [Hhead | (j & <- & Hj)].
      * destruct (String.eqb_spec y x); [|destruct Hhead].
        destruct Hhead as [<- | []]. cbn. now subst.
      * cbn. now apply IH.
    + destruct i as [|i]; cbn.
      * intros [= ->]. left. rewrite String.eqb_refl. now left.
      * intros Hi. right. exists i. split; [reflexivity | now apply IH].
Qed.

(** The last position of [x], when [indexes_of] ends with it. *)
Lemma indexes_of_last x l i :
  last (indexes_of x l) = Some i ->
  nth_error l i = Some x
  /\ forall j, (i < j)%nat -> nth_error l j <> Some x.
Proof.
  revert i. induction l as [|y l IH]; intros i; [discriminate|].
  rewrite indexes_of_cons.
  destruct (last (indexes_of x l)) as [i'|] eqn:Hlast.
  - assert (Hl : last ((if String.eqb y x then [0%nat] else [])
                       ++ List.map S (indexes_of x l)) = Some (S i')).
    { destruct (indexes_of x l) as [|a rest] eqn:Hidx; [discriminate|].
      rewrite last_app.
      change (List.map S (a :: rest)) with (S <$> (a :: rest)).
      now rewrite fmap_last, Hlast. }
    rewrite Hl. intros [= <-]. destruct (IH i' eq_refl) as [Hnth Hafter].
    split; [exact Hnth|]. intros [|j] Hj; [lia|]. cbn. apply Hafter. lia.
  - apply last_None in Hlast. rewrite Hlast. cbn [List.map]. rewrite app_nil_r.
    destruct (String.eqb_spec y x) as [-> | Hne]; [|discriminate].
    cbn. intros [= <-]. split; [reflexivity|].
    intros [|j] Hj; [lia|]. cbn. intros Hnth.
    apply indexes_of_In in Hnth. rewrite Hlast in Hnth. destruct Hnth.
Qed.

Lemma indexes_of_last_some x l :
  In x l -> is_Some (last (indexes_of x l)).
Proof.
  intros Hin. apply In_nth_error in Hin as [i Hi].
  apply indexes_of_In in Hi.
  destruct (last (indexes_of x l)) eqn:Hlast; [eauto|].
  apply last_None in Hlast. rewrite Hlast in Hi. destruct Hi.
Qed.

Lemma count_cons x y l :
  count x (y :: l) = ((if String.eqb x y then 1 else 0) + count x l)%nat.
Proof. unfold count. cbn. destruct (String.eqb x y); reflexivity. Qed.

Lemma count_absent x l : ~ In x l -> count x l = 0%nat.
Proof.
  induction l as [|y l IH]; intros Hx; [reflexivity|].
  rewrite count_cons, IH by (intros Hin; apply Hx; now right).
  destruct (String.eqb_spec x y); [|reflexivity].
  exfalso. apply Hx. left. auto.
Qed.

Lemma count_present x l : In x l -> (1 <= count x l)%nat.
Proof.
  induction l as [|y l IH]; intros [].
  - subst. rewrite count_cons, String.eqb_refl. lia.
  - rewrite count_cons. specialize (IH H). lia.
Qed.

(** The ids are pairwise different exactly when none occurs twice. *)
Lemma NoDup_count l :
  List.NoDup l <-> forall x, In x l -> count x l = 1%nat.
Proof.
  induction l as [|y l IH].
  - split; [intros _ x [] | constructor].
  - split.
    + intros Hnd. inversion Hnd as [|? ? Hy Hl]; subst.
      intros x Hx. rewrite count_cons.
      destruct (String.eqb_spec x y) as [-> | Hne].
      * now rewrite count_absent.
      * destruct Hx as [-> | Hx]; [congruence|].
        apply IH; assumption.
    + intros Hall. constructor.
      * intros Hy. specialize (Hall y ltac:(now left)).
        rewrite count_cons, String.eqb_refl in Hall.
        apply count_present in Hy. lia.
      * apply IH. intros x Hx. specialize (Hall x ltac:(now right)).
        rewrite count_cons in Hall. apply count_present in Hx.
        destruct (String.eqb x y); lia.
Qed.

Lemma duplicates_elements (ids : list string) d :
  In d (elements
          (list_to_set
             (List.filter (fun id => Nat.ltb 1 (count id ids)) ids)
           : gset string))
  <-> In d ids /\ (1 < count d ids)%nat.
Proof.
  rewrite <- list_elem_of_In, elem_of_elements, elem_of_list_to_set,
    list_elem_of_In, filter_In, Nat.ltb_lt.
  reflexivity.
Qed.

Lemma duplicates_loop ids ds :
  forall acc st,
    (forall d, In d ds -> In d ids) ->
    for_each
      (fun indexes duplicated_id =>
         i <~ or_raise IndexError (last (indexes_of duplicated_id ids)) ;;
         ret (indexes ++ [i]))
      acc ds st
    = (Ok (acc ++ List.map
                    (fun d => default 0%nat (last (indexes_of d ids))) ds),
       st).
Proof.
  induction ds as [|d ds IH]; intros acc st Hin.
  - cbn. now rewrite app_nil_r.
  - rewrite for_each_cons.
    destruct (indexes_of_last_some d ids (Hin d ltac:(now left))) as [i Hi].
    unfold bind at 1. unfold bind at 1. rewrite Hi. cbn [or_raise ret].
    cbv beta iota. rewrite IH by (intros d' Hd'; apply Hin; now right).
    cbn. rewrite Hi. cbn. now rewrite <- app_assoc.
Qed.

Lemma check_for_duplicates_eq ids errors st :
  check_for_duplicates ids errors st
  = (Ok (update_errors errors "Duplicated warehouse ID." "warehouse" UNIQUE
           (List.map
              (fun d => default 0%nat (last (indexes_of d ids)))
              (elements
                 (list_to_set
                    (List.filter (fun id => Nat.ltb 1 (count id ids)) ids)
                  : gset string)))),
     st).
Proof.
  unfold check_for_duplicates.
  erewrite bind_ok
    by (apply duplicates_loop; intros d Hd;
        now apply duplicates_elements in Hd).
  reflexivity.
Qed.

Lemma update_errors_lookup msg field code indexes :
  forall errors,
    default [] (update_errors errors msg field code indexes !! field)
    = default [] (errors !! field)
      ++ List.map (fun index => {| ve_msg := msg; ve_code := code;
                                   ve_index := index |}) indexes
    /\ (forall other, other <> field ->
          update_errors errors msg field code indexes !! other
          = errors !! other)
    /\ (indexes <> [] ->
        is_Some (update_errors errors msg field code indexes !! field)).
Proof.
  unfold update_errors.
  induction indexes as [|i indexes IH]; intros errors.
  - cbn. rewrite app_nil_r. repeat split; auto. congruence.
  - cbn [fold_left List.map].
    destruct (IH (append_error field
                    {| ve_msg := msg; ve_code := code; ve_index := i |}
                    errors)) as (Hfield & Hother & Hsome).
    unfold append_error in *. split; [|split].
    + rewrite Hfield, lookup_insert_eq. cbn. now rewrite <- app_assoc.
    + intros other Hne. rewrite Hother by exact Hne.
      now apply lookup_insert_ne.
    + intros _. destruct indexes as [|j indexes].
      * cbn. rewrite lookup_insert_eq. eauto.
      * apply Hsome. discriminate.
Qed.

Lemma truthy_errors_lookup (errors : StockErrors) field :
  is_Some (errors !! field) -> truthy_errors errors = true.
Proof.
  intros [l Hl]. unfold truthy_errors. apply negb_true_iff.
  apply bool_decide_eq_false. intros ->. now rewrite lookup_empty in Hl.
Qed.

Lemma check_for_duplicates_verdict ids errors st :
  exists errors',
    check_for_duplicates ids errors st = (Ok errors', st)
    /\ (List.NoDup ids -> errors' = errors)
    /\ (~ List.NoDup ids -> truthy_errors errors' = true).
Proof.
  rewrite check_for_duplicates_eq. eexists. split; [reflexivity|].
  set (ds := elements _). split.
  - intros Hnd. assert (ds = []) as ->; [|reflexivity].
    destruct ds as [|d ds'] eqn:Hds; [reflexivity|].
    assert (Hd : In d ds) by (rewrite Hds; now left).
    apply duplicates_elements in Hd as [Hin Hcount].
    rewrite NoDup_count in Hnd. rewrite (Hnd d Hin) in Hcount. lia.
  - intros Hdup. destruct ds as [|d ds'] eqn:Hds.
    + exfalso. apply Hdup. apply NoDup_count. intros x Hx.
      pose proof (count_present x ids Hx) as Hge.
      destruct (decide (count x ids = 1%nat)) as [|Hne]; [assumption|].
      assert (Hd : In x ds) by (apply duplicates_elements; split; [auto|lia]).
      rewrite Hds in Hd. destruct Hd.
    + eapply truthy_errors_lookup.
      apply update_errors_lookup. discriminate.
Qed.

(** X9. [check_for_duplicates] never raises and never touches the state.
    When the warehouse ids are pairwise different it returns [errors] as it
    got it; when an id occurs twice, [errors] comes back true, so that the
    mutation will raise. *)
Theorem duplicates_are_found_exactly_when_there_are_some ids errors st :
  exists errors',
    check_for_duplicates ids errors st = (Ok errors', st)
    /\ (List.NoDup ids -> errors' = errors)
    /\ (~ List.NoDup ids -> truthy_errors errors' = true).
Proof. exact (check_for_duplicates_verdict ids errors st). Qed.

(** X10. The errors [check_for_duplicates] adds, all under "warehouse",
    are one for each id that occurs more than once, and carry the position
    of the last occurrence of that id, however often it occurs; the
    [IndexError] of the [[-1]] cannot happen. *)
Theorem duplicates_are_reported_at_their_last_position ids errors st :
  exists errors' indexes,
    check_for_duplicates ids errors st = (Ok errors', st)
    /\ default [] (errors' !! "warehouse")
       = default [] (errors !! "warehouse")
         ++ List.map duplicate_error indexes
    /\ (forall other, other <> "warehouse" ->
          errors' !! other = errors !! other)
    /\ List.NoDup indexes
    /\ forall i, In i indexes <-> last_of_a_duplicate ids i.
Proof.
  rewrite check_for_duplicates_eq. set (ds := elements _).
  set (g := fun d => default 0%nat (last (indexes_of d ids))).
  exists (update_errors errors "Duplicated warehouse ID." "warehouse" UNIQUE
            (List.map g ds)), (List.map g ds).
  destruct (update_errors_lookup "Duplicated warehouse ID." "warehouse"
              UNIQUE (List.map g ds) errors) as (Hfield & Hother & _).
  split; [reflexivity|]. split; [exact Hfield|]. split; [exact Hother|].
  assert (Hg : forall d, In d ds ->
                 nth_error ids (g d) = Some d
                 /\ forall j, (g d < j)%nat -> nth_error ids j <> Some d).
  { intros d Hd. apply duplicates_elements in Hd as [Hin _].
    destruct (indexes_of_last_some d ids Hin) as [i Hi].
    unfold g. rewrite Hi. cbn. now apply indexes_of_last. }
  split.
  - apply NoDup_map_NoDup_ForallPairs.
    + intros d1 d2 H1 H2 Heq.
      destruct (Hg d1 H1) as [Hn1 _]. destruct (Hg d2 H2) as [Hn2 _].
      rewrite Heq in Hn1. congruence.
    + apply NoDup_ListNoDup. apply NoDup_elements.
  - intros i. rewrite in_map_iff. split.
    + intros (d & <- & Hd). destruct (Hg d Hd) as [Hnth Hafter].
      apply duplicates_elements in Hd as [_ Hcount].
      exists d. auto.
    + intros (x & Hnth & Hcount & Hafter).
      assert (Hx : In x ds).
      { apply duplicates_elements. split; [|exact Hcount].
        eapply nth_error_In; exact Hnth. }
      exists x. split; [|exact Hx].
      destruct (Hg x Hx) as [Hn Ha].
      destruct (Nat.lt_trichotomy (g x) i) as [Hlt | [Heq | Hgt]];
        [|exact Heq|].
      * exfalso. exact (Ha i Hlt Hnth).
      * exfalso. exact (Hafter (g x) Hgt Hn).
Qed.

End Duplicates.

(** ** Writing and deleting the stocks of a variant *)

Section Upsert.

Import ProductVariantBulkCreate ProductVariantStocksCreate.
Import ProductVariantStocksUpdate.

Variable default_quantity : Z.
Variable variant : ProductVariant.

Lemma same_stock_spec v w s :
  same_stock v w s = true <-> s_product_variant s = v /\ s_warehouse s = w.
Proof.
  unfold same_stock. rewrite andb_true_iff, Z.eqb_eq, String.eqb_eq.
  reflexivity.
Qed.

Lemma filter_map_commute {A} (P : A -> bool) (f : A -> A) l :
  (forall x, P (f x) = P x) ->
  List.filter P (List.map f l) = List.map f (List.filter P l).
Proof.
  intros HP. induction l as [|x l IH]; [reflexivity|].
  cbn. rewrite HP. destruct (P x); cbn; now rewrite IH.
Qed.

Lemma map_id_on {A} (f : A -> A) l :
  (forall x, In x l -> f x = x) -> List.map f l = l.
Proof.
  induction l as [|x l IH]; intros Hf; [reflexivity|].
  cbn. rewrite Hf by now left. f_equal. apply IH. intros y Hy.
  apply Hf. now right.
Qed.

Lemma NoDup_map_In {A B} (f : A -> B) l a b :
  List.NoDup (List.map f l) -> In a l -> In b l -> f a = f b -> a = b.
Proof.
  induction l as [|x l IH]; intros Hnd Ha Hb Heq; [destruct Ha|].
  cbn in Hnd. inversion Hnd as [|? ? Hx Hl]; subst.
  destruct Ha as [-> | Ha], Hb as [-> | Hb]; auto.
  - exfalso. apply Hx. rewrite Heq. now apply in_map.
  - exfalso. apply Hx. rewrite <- Heq. now apply in_map.
Qed.

(** What [get_or_create] does to the table, and what it returns. *)
Lemma Stock_get_or_create_ok w st stock st' :
  Stock_get_or_create default_quantity variant w st = (Ok stock, st') ->
  s_product_variant stock = pv_pk variant
  /\ s_warehouse stock = wh_pk w
  /\ List.filter (same_stock (pv_pk variant) (wh_pk w)) (stocks (db st'))
     = [stock]
  /\ exists extra,
       stocks (db st') = stocks (db st) ++ extra
       /\ forall s, In s extra ->
            s_product_variant s = pv_pk variant /\ s_warehouse s = wh_pk w.
Proof.
  unfold Stock_get_or_create, bind, gets, modify_db, modify, ret, raise. cbn.
  destruct (List.filter _ (stocks (db st))) as [|s [|s' l]] eqn:Hf; cbn;
    intros E; [injection E as <- <- | injection E as -> <- | discriminate];
    cbn.
  - split; [reflexivity|]. split; [reflexivity|]. split.
    + rewrite List.filter_app, Hf. cbn. unfold same_stock. cbn.
      now rewrite Z.eqb_refl, String.eqb_refl.
    + eexists [_]. split; [reflexivity|]. intros s [<- | []]. auto.
  - assert (Hs : In stock
                     (List.filter (same_stock (pv_pk variant) (wh_pk w))
                                  (stocks (db st)))).
    { rewrite Hf. now left. }
    apply filter_In in Hs as [_ Hs]. apply same_stock_spec in Hs as [Hv Hw].
    split; [exact Hv|]. split; [exact Hw|]. split; [exact Hf|].
    exists []. rewrite app_nil_r. split; [reflexivity|]. intros s0 [].
Qed.

Lemma upsert_loop pairs :
  forall objs st objs' st',
    List.NoDup (List.map (fun p => wh_pk (snd p)) pairs) ->
    for_each
      (fun stocks '(stock_data, warehouse) =>
         stock <~ Stock_get_or_create default_quantity variant warehouse ;;
         let stock := {| s_warehouse := s_warehouse stock;
                         s_product_variant := s_product_variant stock;
                         s_quantity := si_quantity stock_data |} in
         ret (stocks ++ [stock]))
      objs pairs st
    = (Ok objs', st') ->
    objs' = objs ++ List.map (stock_of variant) pairs
    /\ (forall p, In p pairs ->
          exists row,
            List.filter (same_stock (pv_pk variant) (wh_pk (snd p)))
                        (stocks (db st')) = [row])
    /\ exists extra,
         stocks (db st') = stocks (db st) ++ extra
         /\ forall s, In s extra ->
              s_product_variant s = pv_pk variant
              /\ In (s_warehouse s)
                    (List.map (fun p => wh_pk (snd p)) pairs).
Proof.
  induction pairs as [|[sd w] pairs IH]; intros objs st objs' st' Hnd E.
  - injection E as <- <-. rewrite app_nil_r. split; [reflexivity|].
    split; [intros p []|]. exists []. rewrite app_nil_r.
    split; [reflexivity | intros s []].
  - rewrite for_each_cons in E. cbn [List.map snd] in Hnd.
    inversion Hnd as [|? ? Hw Hrest]; subst.
    apply bind_ok_inv in E as (objs1 & st1 & Ebody & E).
    apply bind_ok_inv in Ebody as (stock & s1 & Eget & Ebody).
    injection Ebody as <- <-.
    apply Stock_get_or_create_ok in Eget
      as (Hv & Hwh & Hone & extra1 & Hext1 & Hkeys1).
    apply IH in E as (-> & Hrows & extra & Hext & Hkeys); [|exact Hrest].
    split.
    { rewrite <- app_assoc. cbn. unfold stock_of at 2. cbn.
      now rewrite Hv, Hwh. }
    split.
    + intros p [<- | Hp]; [|now apply Hrows].
      cbn [snd]. exists stock. rewrite Hext, List.filter_app, Hone.
      rewrite (filter_nil _ extra); [reflexivity|].
      intros s Hs. destruct (Hkeys s Hs) as [_ Hin].
      destruct (same_stock _ _ s) eqn:Hsame; [|reflexivity].
      apply same_stock_spec in Hsame as [_ Hsw]. rewrite Hsw in Hin.
      contradiction.
    + exists (extra1 ++ extra). rewrite Hext, Hext1, <- app_assoc.
      split; [reflexivity|]. intros s Hs. cbn [List.map snd].
      apply in_app_iff in Hs as [Hs | Hs].
      * destruct (Hkeys1 s Hs) as [Hsv Hsw]. split; [exact Hsv|].
        left. auto.
      * destruct (Hkeys s Hs) as [Hsv Hsw]. split; [exact Hsv|].
        right. exact Hsw.
Qed.

Lemma find_stock_of pairs p :
  List.NoDup (List.map (fun p => wh_pk (snd p)) pairs) ->
  In p pairs ->
  List.find (same_stock (pv_pk variant) (wh_pk (snd p)))
            (List.map (stock_of variant) pairs)
  = Some (stock_of variant p).
Proof.
  intros Hnd Hp.
  destruct (List.find _ _) as [obj|] eqn:Hfind.
  - apply find_some in Hfind as [Hin Hsame].
    apply in_map_iff in Hin as (q & <- & Hq).
    apply same_stock_spec in Hsame as [_ Hw]. cbn in Hw.
    f_equal. f_equal.
    exact (NoDup_map_In (fun p => wh_pk (snd p)) pairs q p Hnd Hq Hp Hw).
  - eapply find_none in Hfind; [|apply in_map; exact Hp].
    unfold same_stock, stock_of in Hfind. cbn in Hfind.
    now rewrite Z.eqb_refl, String.eqb_refl in Hfind.
Qed.

Lemma update_or_create_variant_stocks_rows stocks_data warehouses st st' :
  let pairs := combine stocks_data warehouses in
  let pks := List.map (fun p => wh_pk (snd p)) pairs in
  List.NoDup pks ->
  update_or_create_variant_stocks default_quantity variant stocks_data
    warehouses st = (Ok tt, st') ->
  (forall p, In p pairs ->
     List.filter (same_stock (pv_pk variant) (wh_pk (snd p)))
                 (stocks (db st'))
     = [stock_of variant p])
  /\ List.filter (fun s => negb (touched variant pks s)) (stocks (db st'))
     = List.filter (fun s => negb (touched variant pks s)) (stocks (db st)).
Proof.
  intros pairs pks Hnd E. unfold update_or_create_variant_stocks in E.
  apply atomic_ok_inv in E.
  apply bind_ok_inv in E as (objs & st1 & Eloop & E).
  apply upsert_loop in Eloop as (-> & Hrows & extra & Hext & Hkeys);
    [|exact Hnd].
  cbn [app] in E. injection E as <-. cbn. fold pairs.
  set (upd := fun row : Stock => match List.find _ _ with
                                 | Some obj => _ | None => row end).
  assert (Hkey : forall row,
             s_product_variant (upd row) = s_product_variant row
             /\ s_warehouse (upd row) = s_warehouse row).
  { intros row. unfold upd. destruct (List.find _ _); auto. }
  split.
  - intros p Hp. destruct (Hrows p Hp) as [row Hrow].
    rewrite filter_map_commute, Hrow.
    + cbn [List.map]. f_equal.
      assert (Hin : In row (List.filter
                              (same_stock (pv_pk variant) (wh_pk (snd p)))
                              (stocks (db st1)))) by (rewrite Hrow; now left).
      apply filter_In in Hin as [_ Hsame].
      apply same_stock_spec in Hsame as [Hv Hw].
      unfold upd. cbv beta.
      rewrite Hv, Hw, (find_stock_of pairs p Hnd Hp). reflexivity.
    + intros row0. unfold same_stock. destruct (Hkey row0) as [-> ->].
      reflexivity.
  - rewrite filter_map_commute.
    + rewrite map_id_on.
      * rewrite Hext, List.filter_app, (filter_nil _ extra), app_nil_r;
          [reflexivity|].
        intros s Hs. destruct (Hkeys s Hs) as [Hsv Hsw].
        apply negb_false_iff. unfold touched. rewrite Hsv, Z.eqb_refl.
        now apply contains_In.
      * intros row Hrow. apply filter_In in Hrow as [_ Hrow].
        apply negb_true_iff in Hrow. unfold upd. cbv beta.
        destruct (List.find _ _) as [obj|] eqn:Hfind; [|reflexivity].
        exfalso. apply find_some in Hfind as [Hin Hsame].
        apply in_map_iff in Hin as (q & <- & Hq).
        apply same_stock_spec in Hsame as [Hv Hw]. cbn in Hv, Hw.
        unfold touched in Hrow. rewrite <- Hv, Z.eqb_refl in Hrow.
        cbn in Hrow. apply not_true_iff_false in Hrow. apply Hrow.
        apply contains_In. rewrite <- Hw.
        apply (in_map (fun p => wh_pk (snd p))). exact Hq.
    + intros row0. unfold touched. destruct (Hkey row0) as [-> ->].
      reflexivity.
Qed.

(** X11. [update_or_create_variant_stocks], for warehouses that are
    pairwise different as far as they are paired with an input: where it
    succeeds, the variant has exactly one Stock row in each of them, with
    the quantity of the input paired with it, whatever quantity a new row
    starts with; and the Stock rows of other variants or in other
    warehouses are as they were. *)
Theorem upsert_sets_each_quantity stocks_data warehouses st st' :
  let pairs := combine stocks_data warehouses in
  let pks := List.map (fun p => wh_pk (snd p)) pairs in
  List.NoDup pks ->
  update_or_create_variant_stocks default_quantity variant stocks_data
    warehouses st = (Ok tt, st') ->
  (forall p, In p pairs ->
     List.filter (same_stock (pv_pk variant) (wh_pk (snd p)))
                 (stocks (db st'))
     = [stock_of variant p])
  /\ List.filter (fun s => negb (touched variant pks s)) (stocks (db st'))
     = List.filter (fun s => negb (touched variant pks s)) (stocks (db st)).
Proof.
  exact (update_or_create_variant_stocks_rows stocks_data warehouses st st').
Qed.

Lemma set_stocks_same d : set_stocks (stocks d) d = d.
Proof. now destruct d. Qed.

Lemma set_stocks_twice l l' d :
  set_stocks l (set_stocks l' d) = set_stocks l d.
Proof. reflexivity. Qed.

Lemma only_stocks_refl st : only_stocks st st.
Proof.
  unfold only_stocks. rewrite set_stocks_same. repeat split.
Qed.

Lemma only_stocks_trans st1 st2 st3 :
  only_stocks st1 st2 -> only_stocks st2 st3 -> only_stocks st1 st3.
Proof.
  unfold only_stocks.
  intros (Hdb & Hs & Hw & Hd) (Hdb' & Hs' & Hw' & Hd').
  split; [|repeat split; congruence].
  rewrite Hdb', Hdb. reflexivity.
Qed.

Lemma Stock_get_or_create_only_stocks w st r st' :
  Stock_get_or_create default_quantity variant w st = (r, st') ->
  only_stocks st st'.
Proof.
  unfold Stock_get_or_create, bind, gets, modify_db, modify, ret, raise. cbn.
  destruct (List.filter _ (stocks (db st))) as [|s [|s' l]]; cbn;
    intros E; injection E as <- <-;
    solve [apply only_stocks_refl | repeat split].
Qed.

Lemma upsert_loop_only_stocks pairs :
  forall objs st objs' st',
    for_each
      (fun stocks '(stock_data, warehouse) =>
         stock <~ Stock_get_or_create default_quantity variant warehouse ;;
         let stock := {| s_warehouse := s_warehouse stock;
                         s_product_variant := s_product_variant stock;
                         s_quantity := si_quantity stock_data |} in
         ret (stocks ++ [stock]))
      objs pairs st
    = (Ok objs', st') ->
    only_stocks st st'.
Proof.
  induction pairs as [|[sd w] pairs IH]; intros objs st objs' st' E.
  - injection E as <- <-. apply only_stocks_refl.
  - rewrite for_each_cons in E.
    apply bind_ok_inv in E as (objs1 & st1 & Ebody & E).
    apply bind_ok_inv in Ebody as (stock & s1 & Eget & Ebody).
    injection Ebody as <- <-.
    eapply only_stocks_trans.
    + eapply Stock_get_or_create_only_stocks. exact Eget.
    + eapply IH. exact E.
Qed.

Lemma update_or_create_variant_stocks_only_stocks
    stocks_data warehouses st st' :
  update_or_create_variant_stocks default_quantity variant stocks_data
    warehouses st = (Ok tt, st') ->
  only_stocks st st'.
Proof.
  intros E. unfold update_or_create_variant_stocks in E.
  apply atomic_ok_inv in E.
  apply bind_ok_inv in E as (objs & st1 & Eloop & E).
  apply upsert_loop_only_stocks in Eloop.
  eapply only_stocks_trans; [exact Eloop|].
  injection E as <-. repeat split.
Qed.

Lemma filter_all {A} (P : A -> bool) l :
  (forall x, In x l -> P x = true) -> List.filter P l = l.
Proof.
  induction l as [|x l IH]; intros HP; [reflexivity|].
  cbn. rewrite HP by now left. f_equal. apply IH. intros y Hy.
  apply HP. now right.
Qed.

(** Whether or not a warehouse comes twice, the loop appends rows of the
    variant in these warehouses and nothing else, and collects one object
    for each pair. *)
Lemma upsert_loop_frame pairs :
  forall objs st objs' st',
    for_each
      (fun stocks '(stock_data, warehouse) =>
         stock <~ Stock_get_or_create default_quantity variant warehouse ;;
         let stock := {| s_warehouse := s_warehouse stock;
                         s_product_variant := s_product_variant stock;
                         s_quantity := si_quantity stock_data |} in
         ret (stocks ++ [stock]))
      objs pairs st
    = (Ok objs', st') ->
    objs' = objs ++ List.map (stock_of variant) pairs
    /\ exists extra,
         stocks (db st') = stocks (db st) ++ extra
         /\ forall s, In s extra ->
              s_product_variant s = pv_pk variant
              /\ In (s_warehouse s)
                    (List.map (fun p => wh_pk (snd p)) pairs).
Proof.
  induction pairs as [|[sd w] pairs IH]; intros objs st objs' st' E.
  - injection E as <- <-. rewrite app_nil_r. split; [reflexivity|].
    exists []. rewrite app_nil_r. split; [reflexivity | intros s []].
  - rewrite for_each_cons in E.
    apply bind_ok_inv in E as (objs1 & st1 & Ebody & E).
    apply bind_ok_inv in Ebody as (stock & s1 & Eget & Ebody).
    injection Ebody as <- <-.
    apply Stock_get_or_create_ok in Eget
      as (Hv & Hwh & _ & extra1 & Hext1 & Hkeys1).
    apply IH in E as (-> & extra & Hext & Hkeys).
    split.
    { rewrite <- app_assoc. cbn. unfold stock_of at 2. cbn.
      now rewrite Hv, Hwh. }
    exists (extra1 ++ extra). rewrite Hext, Hext1, <- app_assoc.
    split; [reflexivity|]. intros s Hs. cbn [List.map snd].
    apply in_app_iff in Hs as [Hs | Hs].
    + destruct (Hkeys1 s Hs) as [Hsv Hsw]. split; [exact Hsv|].
      left. auto.
    + destruct (Hkeys s Hs) as [Hsv Hsw]. split; [exact Hsv|].
      right. exact Hsw.
Qed.

Lemma update_or_create_variant_stocks_rest stocks_data warehouses st st' :
  let pks := List.map (fun p => wh_pk (snd p))
                      (combine stocks_data warehouses) in
  update_or_create_variant_stocks default_quantity variant stocks_data
    warehouses st = (Ok tt, st') ->
  List.filter (fun s => negb (touched variant pks s)) (stocks (db st'))
  = List.filter (fun s => negb (touched variant pks s)) (stocks (db st)).
Proof.
  intros pks E. unfold update_or_create_variant_stocks in E.
  apply atomic_ok_inv in E.
  apply bind_ok_inv in E as (objs & st1 & Eloop & E).
  apply upsert_loop_frame in Eloop as (-> & extra & Hext & Hkeys).
  cbn [app] in E. injection E as <-. cbn.
  set (upd := fun row : Stock => match List.find _ _ with
                                 | Some obj => _ | None => row end).
  assert (Hkey : forall row,
             s_product_variant (upd row) = s_product_variant row
             /\ s_warehouse (upd row) = s_warehouse row).
  { intros row. unfold upd. destruct (List.find _ _); auto. }
  rewrite filter_map_commute.
  - rewrite map_id_on.
    + rewrite Hext, List.filter_app, (filter_nil _ extra), app_nil_r;
        [reflexivity|].
      intros s Hs. destruct (Hkeys s Hs) as [Hsv Hsw].
      apply negb_false_iff. unfold touched. rewrite Hsv, Z.eqb_refl.
      now apply contains_In.
    + intros row Hrow. apply filter_In in Hrow as [_ Hrow].
      apply negb_true_iff in Hrow. unfold upd. cbv beta.
      destruct (List.find _ _) as [obj|] eqn:Hfind; [|reflexivity].
      exfalso. apply find_some in Hfind as [Hin Hsame].
      apply in_map_iff in Hin as (q & <- & Hq).
      apply same_stock_spec in Hsame as [Hv Hw]. cbn in Hv, Hw.
      unfold touched in Hrow. rewrite <- Hv, Z.eqb_refl in Hrow.
      cbn in Hrow. apply not_true_iff_false in Hrow. apply Hrow.
      apply contains_In. rewrite <- Hw.
      apply (in_map (fun p => wh_pk (snd p))). exact Hq.
  - intros row0. unfold touched. destruct (Hkey row0) as [-> ->].
    reflexivity.
Qed.

(** X12. Writing the stocks of a variant and deleting them again, with
    [Stock.objects.filter(...).delete()] of [ProductVariantStocksDelete] on
    the primary keys of the same warehouses, gives back the state there was
    before, when the variant had no stock in these warehouses, whether or
    not a warehouse comes twice: the rows of other variants and warehouses
    are kept, in their order. *)
Theorem delete_undoes_upsert stocks_data warehouses st st1 :
  let pks := List.map (fun p => wh_pk (snd p))
                      (combine stocks_data warehouses) in
  (forall s, In s (stocks (db st)) -> touched variant pks s = false) ->
  update_or_create_variant_stocks default_quantity variant stocks_data
    warehouses st = (Ok tt, st1) ->
  ProductVariantStocksDelete.Stock_delete variant pks st1 = (Ok tt, st).
Proof.
  intros pks Hfree E.
  pose proof (update_or_create_variant_stocks_rest _ _ _ _ E) as Hrest.
  apply update_or_create_variant_stocks_only_stocks in E
    as (Hdb & Hs & Hw & Hd).
  unfold ProductVariantStocksDelete.Stock_delete, modify_db, modify.
  f_equal. fold pks in Hrest. unfold touched in Hrest. rewrite Hrest.
  rewrite filter_all.
  - rewrite Hdb, set_stocks_twice, set_stocks_same.
    destruct st, st1; cbn in *; subst; reflexivity.
  - intros s Hin. apply negb_true_iff. exact (Hfree s Hin).
Qed.

End Upsert.

Lemma upsert_sets_each_quantity_witness :
  let st' :=
    (ProductVariantStocksUpdate.update_or_create_variant_stocks 0
       sample_variant [stock_input "gid-north" 9; stock_input "gid-south" 3]
       [north; south] stocked).2 in
  List.filter (ProductVariantStocksUpdate.same_stock 1 "north")
              (stocks (db st'))
  = [ {| s_warehouse := "north"; s_product_variant := 1; s_quantity := 9 |} ]
  /\ List.filter (ProductVariantStocksUpdate.same_stock 1 "south")
                 (stocks (db st'))
     = [ {| s_warehouse := "south"; s_product_variant := 1;
            s_quantity := 3 |} ].
Proof.
  intros st'.
  assert (Hnd : List.NoDup
                  (List.map (fun p => wh_pk (snd p))
                     (combine [stock_input "gid-north" 9;
                               stock_input "gid-south" 3] [north; south]))).
  { vm_compute. repeat constructor; cbn; intuition discriminate. }
  assert (Hrun :
    ProductVariantStocksUpdate.update_or_create_variant_stocks 0
      sample_variant [stock_input "gid-north" 9; stock_input "gid-south" 3]
      [north; south] stocked = (Ok tt, st')).
  { vm_compute. reflexivity. }
  destruct (upsert_sets_each_quantity 0 sample_variant _ _ _ _ Hnd Hrun)
    as [Hrows _].
  split.
  - apply (Hrows (stock_input "gid-north" 9, north)). cbn. auto.
  - apply (Hrows (stock_input "gid-south" 3, south)). cbn. auto.
Defined.

Lemma delete_undoes_upsert_witness :
  let st1 :=
    (ProductVariantStocksUpdate.update_or_create_variant_stocks 0
       sample_variant [stock_input "gid-south" 3; stock_input "gid-south" 5]
       [south; south] stocked).2 in
  ProductVariantStocksDelete.Stock_delete sample_variant ["south"; "south"]
    st1
  = (Ok tt, stocked).
Proof.
  intros st1.
  apply (delete_undoes_upsert 0 sample_variant
           [stock_input "gid-south" 3; stock_input "gid-south" 5]
           [south; south] stocked st1).
  - intros s Hin. vm_compute in Hin.
    destruct Hin as [<- | [<- | []]]; vm_compute; reflexivity.
  - vm_compute. reflexivity.
Defined.

(** ** What the stock mutations accept *)

Section StockMutations.

Import ProductVariantBulkCreate ProductVariantStocksCreate.

Variable get_node_or_error : Z -> M ProductVariant.
Variable get_nodes_or_error : list string -> M (list Warehouse).
Variable to_global_id : string -> string -> string.
Variable create_stocks :
  ProductVariant -> list StockInput -> list Warehouse -> M unit.

Lemma indexes_of_nil x ids : indexes_of x ids = [] <-> ~ In x ids.
Proof.
  split.
  - intros Hnil Hin. apply In_nth_error in Hin as [i Hi].
    apply indexes_of_In in Hi. rewrite Hnil in Hi. destruct Hi.
  - intros Hx. destruct (indexes_of x ids) as [|i l] eqn:Hl; [reflexivity|].
    exfalso. apply Hx.
    assert (Hi : In i (indexes_of x ids)) by (rewrite Hl; now left).
    apply indexes_of_In in Hi. eapply nth_error_In. exact Hi.
Qed.

Lemma existing_indexes ids existing :
  forall acc,
    fold_left
      (fun indexes warehouse_pk =>
         indexes ++ indexes_of (to_global_id "Warehouse" warehouse_pk) ids)
      existing acc = []
    <-> acc = []
        /\ forall pk, In pk existing ->
             ~ In (to_global_id "Warehouse" pk) ids.
Proof.
  induction existing as [|pk existing IH]; intros acc.
  - cbn. split; [intros ->; split; [reflexivity | intros pk []] | tauto].
  - cbn [fold_left]. rewrite IH. split.
    + intros [Happ Hrest]. apply app_eq_nil in Happ as [-> Hpk].
      split; [reflexivity|]. intros pk' [<- | Hin]; [|now apply Hrest].
      now apply indexes_of_nil.
    + intros [-> Hall]. split.
      * cbn. apply indexes_of_nil. apply Hall. now left.
      * intros pk' Hin. apply Hall. now right.
Qed.

Lemma truthy_errors_empty : truthy_errors ∅ = false.
Proof. reflexivity. Qed.

Lemma update_errors_truthy msg field code indexes :
  forall errors,
    truthy_errors errors = true ->
    truthy_errors (update_errors errors msg field code indexes) = true.
Proof.
  unfold update_errors.
  induction indexes as [|i indexes IH]; intros errors Htrue; [exact Htrue|].
  cbn [fold_left]. apply IH. apply (truthy_errors_lookup _ field).
  unfold append_error. rewrite lookup_insert_eq. eauto.
Qed.

(** X13. [ProductVariantStocksUpdate.perform_mutation] once the variant is
    found: an input that names a warehouse twice ends with
    [ValidationError] before the warehouses are looked up, so whatever
    [get_nodes_or_error] would do and with nothing written; an input
    without repetition goes on to the lookup and the writing. *)
Theorem update_rejects_repeated_warehouses default_quantity variant_id
    stocks_data st variant st1 :
  get_node_or_error variant_id st = (Ok variant, st1) ->
  let warehouse_ids := List.map si_warehouse stocks_data in
  (~ List.NoDup warehouse_ids ->
   ProductVariantStocksUpdate.perform_mutation get_node_or_error
     get_nodes_or_error default_quantity variant_id stocks_data st
   = (Raise ValidationError, st1))
  /\ (List.NoDup warehouse_ids -> stocks_data <> [] ->
      ProductVariantStocksUpdate.perform_mutation get_node_or_error
        get_nodes_or_error default_quantity variant_id stocks_data st
      = (warehouses <~ get_nodes_or_error warehouse_ids ;;
         ProductVariantStocksUpdate.update_or_create_variant_stocks
           default_quantity variant stocks_data warehouses ;;;
         ret variant) st1).
Proof.
  intros Enode ids.
  destruct (check_for_duplicates_verdict ids ∅ st1)
    as (errors' & Echeck & Hgood & Hbad).
  unfold ProductVariantStocksUpdate.perform_mutation. split.
  - intros Hdup. destruct stocks_data as [|sd data'].
    + exfalso. apply Hdup. constructor.
    + subst ids. cbv zeta. unfold bind at 1. rewrite Enode.
      unfold bind at 1. rewrite Echeck, (Hbad Hdup). reflexivity.
  - intros Hnd Hne. destruct stocks_data as [|sd data']; [congruence|].
    subst ids. cbv zeta. unfold bind at 1. rewrite Enode.
    unfold bind at 1. rewrite Echeck, (Hgood Hnd).
    rewrite truthy_errors_empty. reflexivity.
Qed.

(** X14. [ProductVariantStocksCreate.perform_mutation] once the variant and
    the warehouses are found, for a non-empty input: it ends with
    [ValidationError], without [create_stocks] being called, when the input
    names a warehouse twice or the variant already has a stock in one of
    the warehouses whose global id the input names; in every other case it
    hands the input and the warehouses to [create_stocks]. *)
Theorem create_rejects_repeated_and_stocked_warehouses variant_id
    stocks_data st variant st1 warehouses st2 :
  let warehouse_ids := List.map si_warehouse stocks_data in
  stocks_data <> [] ->
  get_node_or_error variant_id st = (Ok variant, st1) ->
  get_nodes_or_error warehouse_ids st1 = (Ok warehouses, st2) ->
  (~ List.NoDup warehouse_ids
   \/ already_stocked to_global_id variant warehouses warehouse_ids (db st2) ->
   ProductVariantStocksCreate.perform_mutation get_node_or_error
     get_nodes_or_error to_global_id create_stocks variant_id stocks_data st
   = (Raise ValidationError, st2))
  /\ (List.NoDup warehouse_ids ->
      ~ already_stocked to_global_id variant warehouses warehouse_ids
          (db st2) ->
      ProductVariantStocksCreate.perform_mutation get_node_or_error
        get_nodes_or_error to_global_id create_stocks variant_id stocks_data
        st
      = (create_stocks variant stocks_data warehouses ;;; ret variant) st2).
Proof.
  intros ids Hne Enode Enodes.
  destruct (check_for_duplicates_verdict ids ∅ st1)
    as (errors' & Echeck & Hgood & Hbad).
  destruct stocks_data as [|sd data']; [congruence|].
  subst ids. set (ids := List.map si_warehouse (sd :: data')) in *.
  assert (Eclean :
    clean_stocks_input get_nodes_or_error to_global_id variant (sd :: data')
      ∅ st1
    = (Ok (warehouses,
           update_errors errors'
             "Stock for this warehouse already exists for this product variant."
             "warehouse" UNIQUE
             (fold_left
                (fun indexes warehouse_pk =>
                   indexes
                   ++ indexes_of (to_global_id "Warehouse" warehouse_pk) ids)
                (existing_stocks variant warehouses (db st2)) [])),
       st2)).
  { unfold clean_stocks_input. cbv zeta. fold ids.
    unfold bind at 1. rewrite Echeck.
    unfold bind at 1. rewrite Enodes. reflexivity. }
  unfold ProductVariantStocksCreate.perform_mutation.
  rewrite (bind_ok _ _ _ _ _ Enode).
  rewrite (bind_ok _ _ _ _ _ Eclean).
  set (indexes := fold_left _ _ []).
  destruct (update_errors_lookup
              "Stock for this warehouse already exists for this product variant."
              "warehouse" UNIQUE indexes errors') as (_ & _ & Hsome).
  split.
  - intros [Hdup | (pk & Hpk & Hid)].
    + rewrite update_errors_truthy by exact (Hbad Hdup). reflexivity.
    + assert (Hidx : indexes <> []).
      { intros Hnil. apply existing_indexes in Hnil as [_ Hall].
        exact (Hall pk Hpk Hid). }
      rewrite (truthy_errors_lookup _ "warehouse" (Hsome Hidx)). reflexivity.
  - intros Hnd Hfree. rewrite (Hgood Hnd).
    assert (indexes = []) as ->.
    { apply existing_indexes. split; [reflexivity|].
      intros pk Hpk Hid. apply Hfree. exists pk. auto. }
    cbn. reflexivity.
Qed.

End StockMutations.

Lemma update_rejects_repeated_warehouses_witness :
  ProductVariantStocksUpdate.perform_mutation demo_get_node demo_get_nodes 0
    1 [stock_input "north" 1; stock_input "north" 2] stocked
  = (Raise ValidationError, stocked).
Proof.
  refine (proj1 (update_rejects_repeated_warehouses demo_get_node
                   demo_get_nodes 0 1
                   [stock_input "north" 1; stock_input "north" 2]
                   stocked sample_variant stocked _) _).
  - vm_compute. reflexivity.
  - cbn. intros Hnd. inversion Hnd as [|? ? Hin _]. apply Hin. now left.
Defined.

Lemma create_rejects_stocked_warehouse_witness :
  ProductVariantStocksCreate.perform_mutation demo_get_node demo_get_nodes
    demo_to_global_id demo_create_stocks 1 [stock_input "north" 1] stocked
  = (Raise ValidationError, stocked).
Proof.
  refine (proj1 (create_rejects_repeated_and_stocked_warehouses
                   demo_get_node demo_get_nodes demo_to_global_id
                   demo_create_stocks 1 [stock_input "north" 1] stocked
                   sample_variant stocked [north] stocked _ _ _) _).
  - discriminate.
  - vm_compute. reflexivity.
  - vm_compute. reflexivity.
  - right. exists "north". split; vm_compute; auto.
Defined.

(** ** The image task *)

Section ImageDownloads.

Import Thumbnails.

Variable urlopen : string -> option string.

Lemma media_eta media :
  {| images := images media; thumbnailed := thumbnailed media;
     logged := logged media |} = media.
Proof. now destruct media. Qed.

Lemma fresh_pk_new l : ~ In (fresh_pk l) l.
Proof.
  intros Hin. assert (H1 : forall x, In x l -> x < fresh_pk l).
  { unfold fresh_pk. clear Hin. induction l as [|y l' IH]; intros x [].
    - subst. cbn. lia.
    - specialize (IH x H). cbn. lia. }
  specialize (H1 _ Hin). lia.
Qed.

Lemma create_product_images_from_url_loop product image_urls :
  forall index media,
    exists index' added,
      fold_left (create_product_images_from_url_body urlopen product)
                image_urls (index, media)
      = (index',
         {| images := images media ++ added;
            thumbnailed := thumbnailed media ++ List.map img_pk added;
            logged := logged media
                      ++ List.map (String.append "Unable to download image: ")
                                  (failures urlopen image_urls) |})
      /\ List.map img_content added = downloads urlopen image_urls
      /\ Forall (uploaded_for product) added
      /\ (List.NoDup (List.map img_pk (images media)) ->
          List.NoDup (List.map img_pk (images media ++ added))).
Proof.
  induction image_urls as [|url urls IH]; intros index media.
  - exists index, []. cbn. rewrite !app_nil_r, media_eta.
    repeat split; auto.
  - cbn [fold_left create_product_images_from_url_body].
    unfold downloads, failures. cbn [flat_map List.filter].
    fold (downloads urlopen urls). fold (failures urlopen urls).
    destruct (urlopen url) as [image_bytes|] eqn:Hopen.
    + match goal with
      | |- context [fold_left _ urls (?i, ?m)] =>
          destruct (IH i m) as (index' & added & -> & Hbytes & Hfor & Hnd)
      end.
      cbn [images thumbnailed logged] in *.
      eexists index', (_ :: added). rewrite <- !app_assoc.
      cbn [List.map app]. split; [reflexivity|].
      split; [cbn; now rewrite Hbytes|].
      split.
      * constructor; [|exact Hfor]. repeat split.
      * intros Hold.
        change (images media ++ ?x :: added)
          with (images media ++ [x] ++ added).
        rewrite app_assoc. apply Hnd.
        rewrite List.map_app. cbn [List.map img_pk].
        apply List.NoDup_app; [exact Hold | repeat constructor; intros [] |].
        intros x Hx [<- | []]. exact (fresh_pk_new _ Hx).
    + match goal with
      | |- context [fold_left _ urls (?i, ?m)] =>
          destruct (IH i m) as (index' & added & -> & Hbytes & Hfor & Hnd)
      end.
      cbn [images thumbnailed logged] in *.
      exists index', added. rewrite <- !app_assoc. cbn [List.map app].
      repeat split; auto.
Qed.

Lemma find_by_pk (p : Product) l :
  In p l -> exists q, List.find (fun x => Z.eqb (p_pk x) (p_pk p)) l = Some q.
Proof.
  intros Hin. destruct (List.find _ l) as [q|] eqn:Hfind; [eauto|].
  eapply find_none in Hfind; [|exact Hin]. cbn in Hfind.
  now rewrite Z.eqb_refl in Hfind.
Qed.

Lemma create_product_images_from_url_found d media product_id product image_urls :
  List.find (fun p => Z.eqb (p_pk p) product_id) (products d)
  = Some product ->
  exists added,
    create_product_images_from_url urlopen d media product_id image_urls
    = Ok {| images := images media ++ added;
            thumbnailed := thumbnailed media ++ List.map img_pk added;
            logged := logged media
                      ++ List.map (String.append "Unable to download image: ")
                                  (failures urlopen image_urls) |}
    /\ List.map img_content added = downloads urlopen image_urls
    /\ Forall (uploaded_for product) added
    /\ (List.NoDup (List.map img_pk (images media)) ->
        List.NoDup (List.map img_pk (images media ++ added))).
Proof.
  intros Hfind. unfold create_product_images_from_url. rewrite Hfind.
  destruct (create_product_images_from_url_loop product image_urls 1 media)
    as (index' & added & -> & Hrest).
  exists added. split; [reflexivity | exact Hrest].
Qed.


(** X15. When [create_product_images_from_url] returns, for a product
    that is found: [product.images.create] has been called once for each
    url that could be read, in the order of the urls, each time with the
    empty alt text and an upload made of the bytes read, named
    slug + ".jpg" whichever url it came from (the counter [index] is not
    used) and said to be "image/png"; [create_product_thumbnails] has been
    called with the primary key of each row made; and each url that could
    not be read has been reported to the logger and passed over, the urls
    after it being tried all the same. *)
Theorem one_upload_per_download d media product_id product image_urls
    media' :
  List.find (fun p => Z.eqb (p_pk p) product_id) (products d)
  = Some product ->
  create_product_images_from_url urlopen d media product_id image_urls
  = Ok media' ->
  exists added,
    images media' = images media ++ added
    /\ thumbnailed media' = thumbnailed media ++ List.map img_pk added
    /\ logged media'
       = logged media
         ++ List.map (String.append "Unable to download image: ")
                     (failures urlopen image_urls)
    /\ List.map img_content added = downloads urlopen image_urls
    /\ Forall (uploaded_for product) added.
Proof.
  intros Hfind E.
  destruct (create_product_images_from_url_found d media product_id product
              image_urls Hfind) as (added & E' & Hbytes & Hfor & _).
  rewrite E' in E. injection E as <-.
  exists added. cbn. auto.
Qed.

Section Queued.

Context `{Externals}.

#[local] Arguments collection_name_loop : simpl never.

(** X16. The tasks a successful [perform_mutation] queues are image tasks,
    one for each product it returns, and each of them finds its product
    when it runs on the tables the mutation leaves: the
    [Product.objects.get] of [create_product_images_from_url] does not
    raise [DoesNotExist]. *)
Theorem queued_image_tasks_find_their_product sc sps st prods st' :
  perform_mutation sc sps st = (Ok prods, st') ->
  exists tasks,
    delayed st' = delayed st ++ tasks
    /\ List.length tasks = List.length prods
    /\ Forall (image_task_runs urlopen (db st')) tasks.
Proof.
  rewrite perform_mutation_stages. intros E.
  apply bind_ok_inv in E as ([] & sa & Eseed & E).
  apply bind_ok_inv in E as ([created imgs] & sb & Eprods & E).
  apply bind_ok_inv in E as ([] & sc' & Ecoll & E).
  apply bind_ok_inv in E as ([] & sd & Eimgs & E).
  injection E as <- <-. cbn [fst snd] in *.
  destruct (create_products_image_tasks _ _ _ _ _ sc' Eprods)
    as [Hlen Hrun].
  rewrite Hrun in Eimgs. injection Eimgs as <-.
  apply create_color_sizes_delayed in Eseed.
  apply create_products_delayed in Eprods as Hdel.
  apply create_collection_delayed in Ecoll as Hdel'.
  apply create_collection_products in Ecoll.
  apply create_products_ok in Eprods as (_ & Hprods & _).
  unfold same_delayed, same_db in *.
  exists (List.map image_task (combine (not_yet_imported sps st) created)).
  cbn [delayed with_delayed db]. split; [congruence|]. split.
  - rewrite length_map, length_combine. lia.
  - apply List.Forall_forall. intros task Htask.
    apply in_map_iff in Htask as ([sp p] & <- & Hpair).
    apply in_combine_r in Hpair. cbn. intros media.
    assert (Hin : In p (products (db sc'))).
    { rewrite Ecoll, Hprods. apply in_app_iff. now right. }
    destruct (find_by_pk p _ Hin) as [q Hq].
    destruct (create_product_images_from_url_found (db sc') media (p_pk p) q
                (List.map i_src (sp_images sp)) Hq) as (added & -> & _).
    eauto.
Qed.

End Queued.
End ImageDownloads.

Lemma one_upload_per_download_witness :
  let image_urls :=
    ["https://cdn.example/gone.jpg"; "https://cdn.example/shirt.jpg"] in
  let media' :=
    {| Thumbnails.images :=
         [ {| Thumbnails.img_pk := 1; Thumbnails.img_product := 1;
              Thumbnails.img_file_name := "shirt1001.jpg";
              Thumbnails.img_content := "PNG-bytes";
              Thumbnails.img_content_type := "image/png";
              Thumbnails.img_alt := "" |} ];
       Thumbnails.thumbnailed := [1];
       Thumbnails.logged :=
         ["Unable to download image: https://cdn.example/gone.jpg"] |} in
  exists added,
    Thumbnails.images media' = Thumbnails.images no_media ++ added
    /\ Thumbnails.thumbnailed media'
       = Thumbnails.thumbnailed no_media ++ List.map Thumbnails.img_pk added
    /\ Thumbnails.logged media'
       = Thumbnails.logged no_media
         ++ List.map (String.append "Unable to download image: ")
                     (failures demo_urlopen image_urls)
    /\ List.map Thumbnails.img_content added
       = downloads demo_urlopen image_urls
    /\ Forall (uploaded_for shirt_row) added.
Proof.
  intros image_urls media'.
  apply (one_upload_per_download demo_urlopen (db shop_with_shirt)
           no_media 1 shirt_row image_urls media').
  - vm_compute. reflexivity.
  - vm_compute. reflexivity.
Defined.

Lemma queued_image_tasks_find_their_product_witness :
  let st' := (perform_mutation summer [shirt] shop).2 in
  exists tasks,
    delayed st' = delayed shop ++ tasks
    /\ List.length tasks = List.length [shirt_row]
    /\ Forall (image_task_runs demo_urlopen (db st')) tasks.
Proof.
  intros st'.
  apply (queued_image_tasks_find_their_product demo_urlopen summer [shirt]
           shop [shirt_row] st').
  vm_compute. reflexivity.
Defined.

(** ** Batches [ProductVariantBulkCreate] refuses *)

Section BulkCreate.

Variables VariantData CleanedInput Used : Type.
Variable vd_sku : VariantData -> option string.
Variable get_node_or_error : Z -> M Product.
Variable get_used_variants_attribute_values : Product -> M Used.
Variable validate_duplicated_attribute_values :
  VariantData -> Used -> Used * bool.
Variable clean_variant_input :
  VariantData -> Z -> ProductVariantBulkCreate.Errors -> nat ->
  M (option CleanedInput * ProductVariantBulkCreate.Errors).
Variable construct_instance :
  Product -> CleanedInput -> ProductVariantBulkCreate.Unsaved.
Variable clean_instance :
  ProductVariantBulkCreate.Unsaved -> State -> option (list string).
Variable save_attributes : ProductVariant -> CleanedInput -> M unit.
Variable ci_stocks :
  CleanedInput -> list ProductVariantBulkCreate.StockInput.
Variable get_nodes_or_error : list string -> M (list Warehouse).
Variable create_stocks :
  ProductVariant -> list ProductVariantBulkCreate.StockInput ->
  list Warehouse -> M unit.

Local Abbreviation bulk_create :=
  (ProductVariantBulkCreate.perform_mutation VariantData CleanedInput Used
     vd_sku get_node_or_error get_used_variants_attribute_values
     validate_duplicated_attribute_values clean_variant_input
     construct_instance clean_instance save_attributes ci_stocks
     get_nodes_or_error create_stocks).

Local Abbreviation clean_variants :=
  (ProductVariantBulkCreate.clean_variants VariantData CleanedInput Used
     vd_sku get_used_variants_attribute_values
     validate_duplicated_attribute_values clean_variant_input).

Local Abbreviation create_variants :=
  (ProductVariantBulkCreate.create_variants CleanedInput construct_instance
     clean_instance).

Lemma enumerate_snd {A} (l : list A) :
  List.map snd (ProductVariantBulkCreate.enumerate l) = l.
Proof.
  unfold ProductVariantBulkCreate.enumerate. generalize 0%nat.
  induction l as [|x l IH]; intros k; [reflexivity|].
  cbn. now rewrite IH.
Qed.

(** [create_variants] reads the state only, never raises, keeps the errors
    it is given, and makes at most one instance per cleaned input and none
    for a false one. *)
Lemma bulk_create_variants_loop product l :
  forall instances errors st,
    exists instances' errors',
      for_each
        (fun '(instances, errors) '(index, cleaned_input) =>
           match cleaned_input with
           | None => ret (instances, errors)
           | Some cleaned_input =>
               let instance := construct_instance product cleaned_input in
               exc <~ gets (clean_instance instance) ;;
               match exc with
               | None => ret (instances ++ [instance], errors)
               | Some exc =>
                   ret (instances,
                        ProductVariantBulkCreate.add_indexes_to_errors
                          index exc errors)
               end
           end)
        (instances, errors) l st
      = (Ok (instances', errors'), st)
      /\ (errors <> [] -> errors' <> [])
      /\ (List.length instances' <= List.length instances + List.length l)%nat
      /\ (In None (List.map snd l) ->
          (List.length instances' < List.length instances + List.length l)%nat).
Proof.
  match goal with |- context [for_each ?f] => set (body := f) end.
  induction l as [|[index [ci|]] l IH]; intros instances errors st.
  - exists instances, errors. cbn. repeat split; auto; [lia | intros []].
  - rewrite for_each_cons.
    assert (Hstep :
      body (instances, errors) (index, Some ci) st
      = (Ok (match clean_instance (construct_instance product ci) st with
             | Some exc =>
                 (instances,
                  ProductVariantBulkCreate.add_indexes_to_errors index exc
                    errors)
             | None => (instances ++ [construct_instance product ci], errors)
             end), st)).
    { unfold body, bind, gets, ret. cbv beta iota zeta.
      destruct (clean_instance _ st); reflexivity. }
    rewrite (bind_ok _ _ _ _ _ Hstep). clear Hstep.
    destruct (clean_instance _ st) as [exc|].
    + destruct (IH instances
                  (ProductVariantBulkCreate.add_indexes_to_errors index exc
                     errors) st)
        as (instances' & errors' & -> & Herr & Hle & Hlt).
      exists instances', errors'. split; [reflexivity|]. split.
      * intros Hne. apply Herr.
        unfold ProductVariantBulkCreate.add_indexes_to_errors.
        destruct errors; [congruence | discriminate].
      * cbn [List.length List.map snd]. split; [lia|]. intros _. lia.
    + destruct (IH (instances ++ [construct_instance product ci]) errors st)
        as (instances' & errors' & -> & Herr & Hle & Hlt).
      exists instances', errors'. split; [reflexivity|].
      split; [exact Herr|]. rewrite length_app in Hle, Hlt.
      cbn [List.length List.map snd] in *. split; [lia|].
      intros [Hnone | Hin]; [discriminate|]. specialize (Hlt Hin). lia.
  - rewrite for_each_cons.
    assert (Hstep : body (instances, errors) (index, None) st
                    = (Ok (instances, errors), st)) by reflexivity.
    rewrite (bind_ok _ _ _ _ _ Hstep). clear Hstep.
    destruct (IH instances errors st)
      as (instances' & errors' & -> & Herr & Hle & Hlt).
    exists instances', errors'. split; [reflexivity|].
    split; [exact Herr|]. cbn [List.length List.map snd].
    split; [lia|]. intros _. lia.
Qed.

Lemma create_variants_runs cleaned_inputs product errors st :
  exists instances errors',
    create_variants cleaned_inputs product errors st
    = (Ok (instances, errors'), st)
    /\ (errors <> [] -> errors' <> [])
    /\ (In None cleaned_inputs ->
        (List.length instances < List.length cleaned_inputs)%nat).
Proof.
  unfold ProductVariantBulkCreate.create_variants.
  destruct (bulk_create_variants_loop product
              (ProductVariantBulkCreate.enumerate cleaned_inputs) [] errors st)
    as (instances & errors' & E & Herr & _ & Hlt).
  exists instances, errors'. split; [exact E|]. split; [exact Herr|].
  rewrite enumerate_snd in Hlt. intros Hin. specialize (Hlt Hin).
  unfold ProductVariantBulkCreate.enumerate in Hlt.
  rewrite length_combine, length_seq in Hlt. cbn in Hlt. lia.
Qed.

(** X17. A batch in which the cleaning of an input gives a false cleaned
    input is never saved: [create_variants] passes such an input over, so
    when nothing else is at fault [save_variants] gets fewer instances than
    cleaned inputs and its [assert] fails; the mutation ends with
    [ValidationError] or with [AssertionError], in the state the cleaning
    left. *)
Theorem false_cleaned_input_fails_the_batch product_id variants st product
    st1 cleaned_inputs errors st2 :
  get_node_or_error product_id st = (Ok product, st1) ->
  clean_variants variants product [] st1
  = (Ok (cleaned_inputs, errors), st2) ->
  In None cleaned_inputs ->
  bulk_create product_id variants st = (Raise ValidationError, st2)
  \/ bulk_create product_id variants st
     = (Raise (AssertionError
          "There should be the same number of instances and cleaned inputs."),
        st2).
Proof.
  intros Enode Eclean Hnone.
  unfold ProductVariantBulkCreate.perform_mutation.
  rewrite (bind_ok _ _ _ _ _ Enode). rewrite (bind_ok _ _ _ _ _ Eclean).
  cbv beta iota.
  destruct (create_variants_runs cleaned_inputs product errors st2)
    as (instances & errors' & Ecreate & _ & Hlt).
  rewrite (bind_ok _ _ _ _ _ Ecreate). cbv beta iota.
  destruct errors' as [|err errors']; [right | left; reflexivity].
  unfold bind at 1. unfold ProductVariantBulkCreate.save_variants, atomic.
  specialize (Hlt Hnone).
  assert (Nat.eqb (List.length instances) (List.length cleaned_inputs)
          = false) as -> by (apply Nat.eqb_neq; lia).
  cbn. now rewrite with_db_same.
Qed.

(** [clean_variant_input] adds to [errors] and takes nothing out of it. *)
Hypothesis clean_variant_input_keeps_errors :
  forall variant_data product_type errors index st cleaned_input errors' st',
    clean_variant_input variant_data product_type errors index st
    = (Ok (cleaned_input, errors'), st') ->
    errors <> [] -> errors' <> [].

Lemma clean_variants_loop product l :
  forall cleaned_inputs sku_list used errors st
         cleaned_inputs' sku_list' used' errors' st',
    for_each
      (fun '(cleaned_inputs, sku_list, used, errors) '(index, variant_data) =>
         let '(used, failed) :=
           validate_duplicated_attribute_values variant_data used in
         let errors :=
           if (failed : bool) then errors ++ [("attributes", index)]
           else errors in
         r <~ clean_variant_input variant_data (p_product_type product)
                errors index ;;
         let '(cleaned_input, errors) := r in
         let cleaned_inputs := cleaned_inputs ++ [cleaned_input] in
         if negb (truthy_str (vd_sku variant_data)) then
           ret (cleaned_inputs, sku_list, used, errors)
         else
           let '(sku_list, errors) :=
             ProductVariantBulkCreate.validate_duplicated_sku
               (default "" (vd_sku variant_data)) index sku_list errors in
           ret (cleaned_inputs, sku_list, used, errors))
      (cleaned_inputs, sku_list, used, errors) l st
    = (Ok (cleaned_inputs', sku_list', used', errors'), st') ->
    (errors <> [] -> errors' <> [])
    /\ (List.NoDup sku_list ->
        ~ List.NoDup (sku_list ++ skus_of vd_sku (List.map snd l)) ->
        errors' <> []).
Proof.
  match goal with |- context [for_each ?f] => set (body := f) end.
  induction l as [|[index vd] l IH];
    intros cis sl used errs st cis' sl' used' errs' st' E.
  - injection E as <- <- <- <- <-. split; [auto|].
    intros Hnd Hdup. cbn in Hdup. rewrite app_nil_r in Hdup. contradiction.
  - rewrite for_each_cons in E.
    apply bind_ok_inv in E as ([[[cis1 sl1] used1] errs1] & st1 & Ebody & E).
    apply IH in E as [Hkeep Hdups]. clear IH.
    unfold body in Ebody. cbv beta iota in Ebody.
    destruct (validate_duplicated_attribute_values vd used)
      as [used0 failed].
    apply bind_ok_inv in Ebody as ([c errs0] & s0 & Ehelper & Ebody).
    pose proof (clean_variant_input_keeps_errors _ _ _ _ _ _ _ _ Ehelper)
      as Hhelper.
    assert (Hin : errs <> [] -> errs0 <> []).
    { intros Hne. apply Hhelper. destruct failed; [|exact Hne].
      destruct errs; [congruence | discriminate]. }
    clear Ehelper Hhelper. cbn [List.map snd]. unfold skus_of. cbn [flat_map].
    fold (skus_of vd_sku (List.map snd l)).
    destruct (truthy_str (vd_sku vd)); cbn [negb] in Ebody.
    + unfold ProductVariantBulkCreate.validate_duplicated_sku in Ebody.
      injection Ebody as <- <- <- <- <-. split.
      * intros Hne. apply Hkeep. specialize (Hin Hne).
        destruct (contains _ sl); [|exact Hin].
        destruct errs0; [congruence | discriminate].
      * intros Hnd Hdup.
        destruct (contains (default "" (vd_sku vd)) sl) eqn:Hc.
        -- apply Hkeep. destruct errs0; discriminate.
        -- apply Hdups.
           ++ apply List.NoDup_app; [exact Hnd | repeat constructor; intros []|].
              intros x Hx [<- | []].
              apply contains_In in Hx. congruence.
           ++ rewrite <- app_assoc. exact Hdup.
    + injection Ebody as <- <- <- <- <-. split.
      * intros Hne. apply Hkeep. exact (Hin Hne).
      * cbn [app]. exact Hdups.
Qed.

(** X18. A batch in which two inputs have the same SKU is never saved:
    when the product is found and the cleaning of the inputs goes through,
    [validate_duplicated_sku] has left an error for the later of the two,
    and the mutation ends with [ValidationError] in the state the cleaning
    left, [save_variants] not being reached. *)
Theorem repeated_sku_fails_the_batch product_id variants st product st1
    cleaned_inputs errors st2 :
  get_node_or_error product_id st = (Ok product, st1) ->
  clean_variants variants product [] st1
  = (Ok (cleaned_inputs, errors), st2) ->
  ~ List.NoDup (skus_of vd_sku variants) ->
  bulk_create product_id variants st = (Raise ValidationError, st2).
Proof.
  intros Enode Eclean Hdup.
  unfold ProductVariantBulkCreate.perform_mutation.
  rewrite (bind_ok _ _ _ _ _ Enode). rewrite (bind_ok _ _ _ _ _ Eclean).
  cbv beta iota.
  destruct (create_variants_runs cleaned_inputs product errors st2)
    as (instances & errors' & Ecreate & Hkeep & _).
  rewrite (bind_ok _ _ _ _ _ Ecreate). cbv beta iota.
  assert (Herrors : errors <> []).
  { unfold ProductVariantBulkCreate.clean_variants in Eclean.
    apply bind_ok_inv in Eclean as (used & s1 & _ & Eclean).
    apply bind_ok_inv in Eclean
      as ([[[cis sl] used'] errs] & s2 & Eloop & Eclean).
    injection Eclean as <- <- <-.
    apply clean_variants_loop in Eloop as [_ Hdups].
    apply Hdups; [constructor|].
    cbn [app]. now rewrite enumerate_snd. }
  specialize (Hkeep Herrors).
  destruct errors' as [|err errors']; [congruence | reflexivity].
Qed.

End BulkCreate.

Lemma false_cleaned_input_fails_the_batch_witness :
  ProductVariantBulkCreate.perform_mutation unit unit unit
    (fun _ => None) product_by_pk (fun _ => ret tt)
    (fun _ u => (u, false)) (fun _ _ errors _ => ret (None, errors))
    (fun product _ pk =>
       {| pv_pk := pk; pv_product := p_pk product;
          pv_weight := {| w_unit := "g"; w_value := 0 |};
          pv_sku := ""; pv_price_amount := 0 |})
    (fun _ _ => None) (fun _ _ => ret tt) (fun _ => [])
    (fun _ => ret []) (fun _ _ _ => ret tt) 1 [tt] shop_with_shirt
  = (Raise ValidationError, shop_with_shirt)
  \/ ProductVariantBulkCreate.perform_mutation unit unit unit
       (fun _ => None) product_by_pk (fun _ => ret tt)
       (fun _ u => (u, false)) (fun _ _ errors _ => ret (None, errors))
       (fun product _ pk =>
          {| pv_pk := pk; pv_product := p_pk product;
             pv_weight := {| w_unit := "g"; w_value := 0 |};
             pv_sku := ""; pv_price_amount := 0 |})
       (fun _ _ => None) (fun _ _ => ret tt) (fun _ => [])
       (fun _ => ret []) (fun _ _ _ => ret tt) 1 [tt] shop_with_shirt
     = (Raise (AssertionError
          "There should be the same number of instances and cleaned inputs."),
        shop_with_shirt).
Proof.
  apply (false_cleaned_input_fails_the_batch unit unit unit (fun _ => None)
           product_by_pk (fun _ => ret tt) (fun _ u => (u, false))
           (fun _ _ errors _ => ret (None, errors))
           (fun product _ pk =>
              {| pv_pk := pk; pv_product := p_pk product;
                 pv_weight := {| w_unit := "g"; w_value := 0 |};
                 pv_sku := ""; pv_price_amount := 0 |})
           (fun _ _ => None) (fun _ _ => ret tt) (fun _ => [])
           (fun _ => ret []) (fun _ _ _ => ret tt)
           1 [tt] shop_with_shirt shirt_row shop_with_shirt [None] []
           shop_with_shirt).
  - vm_compute. reflexivity.
  - vm_compute. reflexivity.
  - cbn. auto.
Defined.

Lemma repeated_sku_fails_the_batch_witness :
  ProductVariantBulkCreate.perform_mutation string unit unit
    Some product_by_pk (fun _ => ret tt)
    (fun _ u => (u, false)) (fun _ _ errors _ => ret (Some tt, errors))
    (fun product _ pk =>
       {| pv_pk := pk; pv_product := p_pk product;
          pv_weight := {| w_unit := "g"; w_value := 0 |};
          pv_sku := ""; pv_price_amount := 0 |})
    (fun _ _ => None) (fun _ _ => ret tt) (fun _ => [])
    (fun _ => ret []) (fun _ _ _ => ret tt) 1 ["SH-S"; "SH-M"; "SH-S"]
    shop_with_shirt
  = (Raise ValidationError, shop_with_shirt).
Proof.
  apply (repeated_sku_fails_the_batch string unit unit Some
           product_by_pk (fun _ => ret tt) (fun _ u => (u, false))
           (fun _ _ errors _ => ret (Some tt, errors))
           (fun product _ pk =>
              {| pv_pk := pk; pv_product := p_pk product;
                 pv_weight := {| w_unit := "g"; w_value := 0 |};
                 pv_sku := ""; pv_price_amount := 0 |})
           (fun _ _ => None) (fun _ _ => ret tt) (fun _ => [])
           (fun _ => ret []) (fun _ _ _ => ret tt))
    with (product := shirt_row) (st1 := shop_with_shirt)
         (cleaned_inputs := [Some tt; Some tt; Some tt])
         (errors := [("sku", 2%nat)]).
  - intros vd pt errors index st c errors' st' E Hne.
    injection E as _ <- _. exact Hne.
  - vm_compute. reflexivity.
  - vm_compute. reflexivity.
  - vm_compute. intros Hnd. inversion Hnd as [|? ? Hin _]. apply Hin.
    right. now left.
Defined.
